(** * Storage console commands (storage_cli.c): model and properties

    The handlers of [applications/services/storage/storage_cli.c] are
    embedded as functions in a small state monad over a [World] that holds
    the console's pending input, the storage service, the resources a
    handler holds, and a chronological log of every console and storage
    call.  Collaborators whose code lives in other files of the firmware
    (argument scanning, the storage "common" calls, directory cursors, the
    digest helper) are the methods of the class [Collaborators]. *)

From Stdlib Require Import ZArith String Ascii Bool Lia Arith List.
From Stdlib Require Import Strings.Byte.
Import ListNotations.

Set Implicit Arguments.

Open Scope string_scope.
Open Scope list_scope.

(** ** Data *)

(** Modelled from the spec: the error codes of the storage service, "a
    single flat enumeration of filesystem failure reasons (e.g., not-found,
    exists, invalid-name, denied, not-implemented, internal) plus a
    distinguished ok value".  The type is FS_Error of the storage headers;
    this file names [FSE_OK] and [FSE_NOT_IMPLEMENTED]. *)
Inductive FS_Error : Set :=
| FSE_OK
| FSE_NOT_READY
| FSE_EXIST
| FSE_NOT_EXIST
| FSE_INVALID_PARAMETER
| FSE_DENIED
| FSE_INVALID_NAME
| FSE_INTERNAL
| FSE_NOT_IMPLEMENTED
| FSE_ALREADY_OPEN.

Definition FS_Error_eqb (a b : FS_Error) : bool :=
  match a, b with
  | FSE_OK, FSE_OK | FSE_NOT_READY, FSE_NOT_READY | FSE_EXIST, FSE_EXIST
  | FSE_NOT_EXIST, FSE_NOT_EXIST
  | FSE_INVALID_PARAMETER, FSE_INVALID_PARAMETER
  | FSE_DENIED, FSE_DENIED | FSE_INVALID_NAME, FSE_INVALID_NAME
  | FSE_INTERNAL, FSE_INTERNAL | FSE_NOT_IMPLEMENTED, FSE_NOT_IMPLEMENTED
  | FSE_ALREADY_OPEN, FSE_ALREADY_OPEN => true
  | _, _ => false
  end.

(** Modelled from the spec: "an access mode (read/write) and an open
    disposition (open-existing/append-create)"; the names are those this
    file passes to [storage_file_open]. *)
Inductive FS_AccessMode : Set := FSAM_READ | FSAM_WRITE.
Inductive FS_OpenMode : Set := FSOM_OPEN_EXISTING | FSOM_OPEN_APPEND.

(** Modelled from the spec: what a directory cursor yields for one entry,
    "name, kind: File | Directory, size": the name, whether
    [file_info_is_dir] holds, and the size field of [FileInfo]. *)
Record FileInfo : Set := { is_dir : bool; size : Z }.

Record DirEntry : Set := { name : string; info : FileInfo }.

(** The results of [dir_walk_read] (lib/toolbox/dir_walk.h); this file
    names [DirWalkOK]. *)
Inductive DirWalkResult : Set := DirWalkOK | DirWalkError | DirWalkLast.

(** The fields of SDInfo (storage_sd_api.h) that [storage_cli_info]
    prints. *)
Record SDInfo : Set := {
  label : string;
  fs_type : Z;
  kb_total : Z;
  kb_free : Z;
  manufacturer_id : Z;
  oem_id : string;
  product_name : string;
  product_revision_major : Z;
  product_revision_minor : Z;
  product_serial_number : Z;
  manufacturing_month : Z;
  manufacturing_year : Z
}.

(** Macros of storage.h and cli.h.  The usage text of this file names
    "/int" and "/ext", and [storage_cli_list] prints int, ext and any for
    the root; the cancel symbol is ASCII "end of text".
    [MAX_NAME_LENGTH] is this file's own. *)
Definition STORAGE_INT_PATH_PREFIX : string := "/int".
Definition STORAGE_EXT_PATH_PREFIX : string := "/ext".
Definition STORAGE_ANY_PATH_PREFIX : string := "/any".
Definition CliSymbolAsciiETX : byte := x03.
Definition MAX_NAME_LENGTH : Z := 254.

Definition uint32 (z : Z) : Z := z mod 2 ^ 32.
Definition uint64 (z : Z) : Z := z mod 2 ^ 64.

(** ** Console and storage calls, as they are logged

    A call that opens something is logged with the error its handle holds
    afterwards, [FSE_OK] when it returned [true]. *)

Inductive Arg : Set :=
| ArgStr (s : string)
| ArgNum (n : Z)
| ArgChar (c : byte).

Inductive Event : Set :=
(* console *)
| Printf (fmt : string) (args : list Arg)
| Putchar (c : byte)
| CliGetc (c : byte)
| CliRead (requested : Z) (data : list byte)
(* storage record and handles *)
| RecordOpen
| RecordClose
| FileAlloc
| FileFree
| FileOpen (path : string) (am : FS_AccessMode) (om : FS_OpenMode)
    (e : FS_Error)
| FileSize (n : Z)
| FileRead (requested : Z) (data : list byte)
| FileWrite (data : list byte) (written : Z)
| FileClose (ok : bool)
| DirOpen (path : string) (e : FS_Error)
| DirRead (ok : bool)
| DirClose (ok : bool)
| DirWalkAlloc
| DirWalkOpen (path : string) (e : FS_Error)
| DirWalkRead (r : DirWalkResult)
| DirWalkFree
(* storage calls by path *)
| CommonFsInfo (path : string) (e : FS_Error)
| SdInfo (e : FS_Error)
| SdFormat (e : FS_Error)
| CommonStat (path : string) (e : FS_Error)
| CommonTimestamp (path : string) (e : FS_Error)
| CommonCopy (old_path new_path : string) (e : FS_Error)
| CommonRemove (path : string) (e : FS_Error)
| CommonRename (old_path new_path : string) (e : FS_Error)
| CommonMigrate (old_path new_path : string) (e : FS_Error)
| CommonMkdir (path : string) (e : FS_Error)
| Md5CalcFile (path : string) (e : FS_Error)
(* system *)
| RtcSetFlagFactoryReset
| PowerReboot.

(** ** The world *)

(** Modelled from the spec: the storage service's regular files ("open/close
    file handles by path with an access mode and an open disposition;
    read/write byte buffers returning actual transferred count; query file
    size").  [files] maps a path to the content of the regular file there,
    [fault] gives the error with which opening a path fails ([FSE_OK]: it
    does not), [space] is the number of bytes the volume still takes: a
    write beyond it is short. *)
Record Storage : Type := {
  files : string -> option (list byte);
  fault : string -> FS_Error;
  space : nat
}.

(** The state of a [File] object: the path it is open on, the read/write
    pointer, the error of the last call ([storage_file_get_error]) and,
    for a handle opened by [storage_dir_open], the entries still to read. *)
Record File : Set := {
  f_open : option string;
  f_pos : nat;
  f_error : FS_Error;
  f_entries : list DirEntry
}.

(** The state of a [DirWalk] object: the entries the cursor still yields,
    the result of the read after the last of them, and its error. *)
Record DirWalk : Set := {
  dw_open : bool;
  dw_rest : list DirEntry;
  dw_end : DirWalkResult;
  dw_error : FS_Error
}.

Record World : Type := {
  cli_rx : list byte;      (* console input not consumed yet *)
  storage : Storage;
  records : nat;           (* references held on RECORD_STORAGE *)
  handles : nat;           (* File and DirWalk objects allocated, not freed *)
  opened : nat;            (* handles that are open *)
  log : list Event         (* every call so far, oldest first *)
}.

Definition emits (es : list Event) (w : World) : World :=
  {| cli_rx := cli_rx w; storage := storage w; records := records w;
     handles := handles w; opened := opened w; log := log w ++ es |}.

Definition emit (e : Event) (w : World) : World := emits [e] w.

Definition set_cli_rx (rx : list byte) (w : World) : World :=
  {| cli_rx := rx; storage := storage w; records := records w;
     handles := handles w; opened := opened w; log := log w |}.

Definition set_storage (s : Storage) (w : World) : World :=
  {| cli_rx := cli_rx w; storage := s; records := records w;
     handles := handles w; opened := opened w; log := log w |}.

Definition set_records (n : nat) (w : World) : World :=
  {| cli_rx := cli_rx w; storage := storage w; records := n;
     handles := handles w; opened := opened w; log := log w |}.

Definition set_handles (n : nat) (w : World) : World :=
  {| cli_rx := cli_rx w; storage := storage w; records := records w;
     handles := n; opened := opened w; log := log w |}.

Definition set_opened (n : nat) (w : World) : World :=
  {| cli_rx := cli_rx w; storage := storage w; records := records w;
     handles := handles w; opened := n; log := log w |}.

(** ** The monad of handlers *)

(** A call returns ([Done]), waits for console input that never comes
    ([Blocked]), resets the device ([Rebooted]), or runs out of the fuel
    that bounds a loop ([OutOfFuel]; the handlers give their loops
    enough: [table_fueled], [storage_cli_fueled]). *)
Inductive Result (A : Type) : Type :=
| Done (a : A) (w : World)
| Blocked (w : World)
| Rebooted (w : World)
| OutOfFuel (w : World).

Arguments Blocked {A} w.
Arguments Rebooted {A} w.
Arguments OutOfFuel {A} w.

Definition M (A : Type) : Type := World -> Result A.

Definition ret {A} (a : A) : M A := fun w => Done a w.

Definition bind {A B} (m : M A) (k : A -> M B) : M B :=
  fun w =>
    match m w with
    | Done a w' => k a w'
    | Blocked w' => Blocked w'
    | Rebooted w' => Rebooted w'
    | OutOfFuel w' => OutOfFuel w'
    end.

Declare Scope cmd_scope.
Delimit Scope cmd_scope with cmd.
Notation "x <- m ;; k" := (bind m (fun x => k))
  (at level 100, m at next level, right associativity) : cmd_scope.
Notation "' p <- m ;; k" := (bind m (fun x => let 'p := x in k))
  (at level 100, p pattern, m at next level, right associativity) : cmd_scope.
Notation "m ;; k" := (bind m (fun _ => k))
  (at level 100, right associativity) : cmd_scope.
Open Scope cmd_scope.

Definition world_of {A} (r : Result A) : World :=
  match r with
  | Done _ w | Blocked w | Rebooted w | OutOfFuel w => w
  end.

Definition returned {A} (r : Result A) : bool :=
  match r with Done _ _ => true | _ => false end.

(** ** Primitives: console *)

(** [printf] of the C library: the call is logged with its format and
    arguments. *)
Definition printf (fmt : string) (args : list Arg) : M unit :=
  fun w => Done tt (emit (Printf fmt args) w).

(** [putchar] of the C library. *)
Definition putchar (c : byte) : M unit :=
  fun w => Done tt (emit (Putchar c) w).

(** Modelled from the spec: the console transport's "blocking
    single-character read": with no input left the caller waits. *)
Definition cli_getc : M byte :=
  fun w =>
    match cli_rx w with
    | [] => Blocked w
    | c :: rx => Done c (emit (CliGetc c) (set_cli_rx rx w))
    end.

(** Modelled from the spec: the console transport's "blocking bounded
    raw-byte read returning actual count": at most [n] bytes, fewer when
    the transport has no more to give. *)
Definition cli_read (n : Z) : M (list byte) :=
  fun w =>
    let data := firstn (Z.to_nat n) (cli_rx w) in
    Done data
      (emit (CliRead n data) (set_cli_rx (skipn (Z.to_nat n) (cli_rx w)) w)).

(** ** Primitives: the storage record and file handles *)

(** Modelled from the spec: "the storage collaborator is treated as a
    single shared handle obtained once per command":
    [furi_record_open(RECORD_STORAGE)] takes one reference. *)
Definition furi_record_open : M unit :=
  fun w => Done tt (emit RecordOpen (set_records (S (records w)) w)).

(** Modelled from the spec: [furi_record_close(RECORD_STORAGE)] gives one
    reference back. *)
Definition furi_record_close : M unit :=
  fun w => Done tt (emit RecordClose (set_records (Nat.pred (records w)) w)).

(** Modelled from the spec: [storage_file_alloc] gives a fresh handle
    object, not open. *)
Definition storage_file_alloc : M File :=
  fun w =>
    Done {| f_open := None; f_pos := 0; f_error := FSE_OK; f_entries := [] |}
      (emit FileAlloc (set_handles (S (handles w)) w)).

(** The two ways [storage_file_open] ends. *)
Definition open_fail (path : string) (am : FS_AccessMode) (om : FS_OpenMode)
    (e : FS_Error) : M (bool * File) :=
  fun w =>
    Done (false,
          {| f_open := None; f_pos := 0; f_error := e; f_entries := [] |})
      (emit (FileOpen path am om e) w).

Definition open_ok (path : string) (am : FS_AccessMode) (om : FS_OpenMode)
    (pos : nat) : M (bool * File) :=
  fun w =>
    Done (true,
          {| f_open := Some path; f_pos := pos; f_error := FSE_OK;
             f_entries := [] |})
      (emit (FileOpen path am om FSE_OK) (set_opened (S (opened w)) w)).

(** The storage with [content] in the file at [path] and [room] bytes
    left. *)
Definition put_file (path : string) (content : list byte) (room : nat)
    (s : Storage) : Storage :=
  {| files := fun p => if String.eqb p path then Some content else files s p;
     fault := fault s;
     space := room |}.

(** Modelled from the spec: [storage_file_open], "open file handles by
    path with an access mode and an open disposition": it fails with the
    path's [fault] if there is one; to open an existing file the file has
    to be there and the pointer is at its start; to append, a missing
    file is created empty and the pointer is at the end. *)
Definition storage_file_open (file : File) (path : string)
    (am : FS_AccessMode) (om : FS_OpenMode) : M (bool * File) :=
  fun w =>
    match fault (storage w) path with
    | FSE_OK =>
        match files (storage w) path, om with
        | Some content, FSOM_OPEN_EXISTING => open_ok path am om 0 w
        | Some content, FSOM_OPEN_APPEND =>
            open_ok path am om (length content) w
        | None, FSOM_OPEN_EXISTING => open_fail path am om FSE_NOT_EXIST w
        | None, FSOM_OPEN_APPEND =>
            open_ok path am om 0
              (set_storage
                 (put_file path [] (space (storage w)) (storage w)) w)
        end
    | e => open_fail path am om e w
    end.

(** The content of the file a handle is open on. *)
Definition file_content (file : File) (w : World) : list byte :=
  match f_open file with
  | Some path =>
      match files (storage w) path with Some c => c | None => [] end
  | None => []
  end.

(** Modelled from the spec: [storage_file_get_error], the error of the
    last call on the handle. *)
Definition storage_file_get_error (file : File) : FS_Error := f_error file.

(** Modelled from the spec: [storage_file_size], "query file size". *)
Definition storage_file_size (file : File) : M Z :=
  fun w =>
    let n := uint64 (Z.of_nat (length (file_content file w))) in
    Done n (emit (FileSize n) w).

(** Modelled from the spec: [storage_file_read], "read byte buffers
    returning actual transferred count": the bytes from the pointer on, at
    most [n], none at the end of the file. *)
Definition storage_file_read (file : File) (n : Z) : M (list byte * File) :=
  fun w =>
    match f_open file with
    | Some path =>
        let data :=
          firstn (Z.to_nat n) (skipn (f_pos file) (file_content file w)) in
        Done (data, {| f_open := Some path;
                       f_pos := f_pos file + length data;
                       f_error := FSE_OK; f_entries := [] |})
          (emit (FileRead n data) w)
    | None =>
        Done ([], {| f_open := None; f_pos := f_pos file;
                     f_error := FSE_INVALID_PARAMETER;
                     f_entries := [] |})
          (emit (FileRead n []) w)
    end.

(** Modelled from the spec: [storage_file_write], "write byte buffers
    returning actual transferred count": it puts at the pointer as many of
    the bytes as the volume has [space] for. *)
Definition storage_file_write (file : File) (data : list byte)
    : M (Z * File) :=
  fun w =>
    match f_open file with
    | Some path =>
        let s := storage w in
        let old := file_content file w in
        let put := firstn (space s) data in
        let content :=
          firstn (f_pos file) old ++ put
            ++ skipn (f_pos file + length put) old in
        let written := Z.of_nat (length put) in
        Done (written,
              {| f_open := Some path;
                 f_pos := f_pos file + length put;
                 f_error := if (length put <? length data)%nat
                            then FSE_INTERNAL else FSE_OK;
                 f_entries := [] |})
          (emit (FileWrite data written)
             (set_storage (put_file path content (space s - length put) s) w))
    | None =>
        Done (0%Z, {| f_open := None; f_pos := f_pos file;
                      f_error := FSE_INVALID_PARAMETER;
                      f_entries := [] |})
          (emit (FileWrite data 0) w)
    end.

(** Modelled from the spec: [storage_file_close] closes an open handle
    and fails on one that is not open. *)
Definition storage_file_close (file : File) : M (bool * File) :=
  fun w =>
    match f_open file with
    | Some _ =>
        Done (true,
              {| f_open := None; f_pos := 0; f_error := FSE_OK;
                 f_entries := [] |})
          (emit (FileClose true) (set_opened (Nat.pred (opened w)) w))
    | None =>
        Done (false,
              {| f_open := None; f_pos := 0;
                 f_error := FSE_INVALID_PARAMETER; f_entries := [] |})
          (emit (FileClose false) w)
    end.

(** Modelled from the spec: [storage_file_free] gives the handle object
    back, closing it first if it is still open. *)
Definition storage_file_free (file : File) : M unit :=
  fun w =>
    let w1 :=
      match f_open file with
      | Some _ => set_opened (Nat.pred (opened w)) w
      | None => w
      end in
    Done tt (emit FileFree (set_handles (Nat.pred (handles w1)) w1)).

(** ** Collaborators outside this file *)

(** The functions [storage_cli.c] calls whose code lives elsewhere in the
    firmware (lib/toolbox/args.c, the C library, the storage service, the
    SD API, lib/toolbox/dir_walk.c, lib/toolbox/md5_calc.c, the HAL).  The
    argument readers return the word read and what is left of [args]; [None]
    is their [false].  [sscanf_lu s] is [Some n] when
    [sscanf(s, "%lu", &n)] returns 1.  The calls of the storage service
    take the service's state and return their error code first. *)
Class Collaborators : Type := {
  args_read_string_and_trim : string -> option (string * string);
  args_read_probably_quoted_string_and_trim :
    string -> option (string * string);
  sscanf_lu : string -> option Z;
  storage_error_get_desc : FS_Error -> string;
  sd_api_get_fs_type_text : Z -> string;
  furi_hal_version_get_name_ptr : option string;
  svc_fs_info : string -> Storage -> FS_Error * (Z * Z);
  svc_sd_info : Storage -> FS_Error * SDInfo;
  svc_sd_format : Storage -> FS_Error * Storage;
  svc_stat : string -> Storage -> FS_Error * FileInfo;
  svc_timestamp : string -> Storage -> FS_Error * Z;
  svc_copy : string -> string -> Storage -> FS_Error * Storage;
  svc_remove : string -> Storage -> FS_Error * Storage;
  svc_rename : string -> string -> Storage -> FS_Error * Storage;
  svc_migrate : string -> string -> Storage -> FS_Error * Storage;
  svc_mkdir : string -> Storage -> FS_Error * Storage;
  (* what a directory cursor opened on the path yields, or why it cannot
     be opened *)
  svc_dir : string -> Storage -> FS_Error + list DirEntry;
  (* the same for the recursive walker, with the result of the read that
     follows the last entry *)
  svc_walk : string -> Storage -> FS_Error + (list DirEntry * DirWalkResult);
  (* the digest of the file at the path as text, or the storage error *)
  svc_md5 : string -> Storage -> FS_Error + string
}.

Section Handlers.

Context {collab : Collaborators}.

(** *** Storage calls, logged *)

(** A call of the storage service that reads its state, and one that may
    change it; the call is logged with the error code it returns. *)
Definition query {A} (f : Storage -> FS_Error * A) (ev : FS_Error -> Event)
    : M (FS_Error * A) :=
  fun w =>
    let r := f (storage w) in
    Done r (emit (ev (fst r)) w).

Definition update (f : Storage -> FS_Error * Storage)
    (ev : FS_Error -> Event) : M FS_Error :=
  fun w =>
    let r := f (storage w) in
    Done (fst r) (emit (ev (fst r)) (set_storage (snd r) w)).

(** The calls by path this file makes, each the collaborator of its
    name: the error code, and the values left in the out-parameters. *)
Definition storage_common_fs_info (path : string) : M (FS_Error * (Z * Z)) :=
  query (svc_fs_info path) (CommonFsInfo path).

Definition storage_sd_info : M (FS_Error * SDInfo) :=
  query svc_sd_info SdInfo.

Definition storage_sd_format : M FS_Error :=
  update svc_sd_format SdFormat.

Definition storage_common_stat (path : string) : M (FS_Error * FileInfo) :=
  query (svc_stat path) (CommonStat path).

Definition storage_common_timestamp (path : string) : M (FS_Error * Z) :=
  query (svc_timestamp path) (CommonTimestamp path).

Definition storage_common_copy (old_path new_path : string) : M FS_Error :=
  update (svc_copy old_path new_path) (CommonCopy old_path new_path).

Definition storage_common_remove (path : string) : M FS_Error :=
  update (svc_remove path) (CommonRemove path).

Definition storage_common_rename (old_path new_path : string) : M FS_Error :=
  update (svc_rename old_path new_path) (CommonRename old_path new_path).

Definition storage_common_migrate (old_path new_path : string) : M FS_Error :=
  update (svc_migrate old_path new_path) (CommonMigrate old_path new_path).

Definition storage_common_mkdir (path : string) : M FS_Error :=
  update (svc_mkdir path) (CommonMkdir path).

(** Modelled from the spec: [md5_string_calc_file], "open the target
    file, stream its full contents through an external digest primitive":
    it opens the file on the handle it is given and has closed it again
    when it returns. *)
Definition md5_string_calc_file (file : File) (path : string)
    : M (FS_Error + string) :=
  fun w =>
    let r := svc_md5 path (storage w) in
    Done r
      (emit (Md5CalcFile path (match r with inr _ => FSE_OK | inl e => e end))
         w).

(** *** Directory cursors *)

(** Modelled from the spec: [storage_dir_open]: a cursor that opens
    holds the finite sequence of entries it will yield, "traversal order
    is whatever the underlying cursor yields". *)
Definition storage_dir_open (file : File) (path : string) : M (bool * File) :=
  fun w =>
    match svc_dir path (storage w) with
    | inr entries =>
        Done (true, {| f_open := Some path; f_pos := 0; f_error := FSE_OK;
                       f_entries := entries |})
          (emit (DirOpen path FSE_OK) (set_opened (S (opened w)) w))
    | inl e =>
        Done (false, {| f_open := None; f_pos := 0; f_error := e;
                        f_entries := [] |})
          (emit (DirOpen path e) w)
    end.

(** Modelled from the spec: [storage_dir_read] yields the next entry, and
    [false] after the last. *)
Definition storage_dir_read (file : File) : M (option DirEntry * File) :=
  fun w =>
    match f_entries file with
    | entry :: rest =>
        Done (Some entry,
              {| f_open := f_open file; f_pos := f_pos file;
                 f_error := FSE_OK; f_entries := rest |})
          (emit (DirRead true) w)
    | [] =>
        Done (None,
              {| f_open := f_open file; f_pos := f_pos file;
                 f_error := FSE_NOT_EXIST; f_entries := [] |})
          (emit (DirRead false) w)
    end.

(** Modelled from the spec: [storage_dir_close], as
    [storage_file_close]. *)
Definition storage_dir_close (file : File) : M (bool * File) :=
  fun w =>
    match f_open file with
    | Some _ =>
        Done (true, {| f_open := None; f_pos := 0; f_error := FSE_OK;
                       f_entries := [] |})
          (emit (DirClose true) (set_opened (Nat.pred (opened w)) w))
    | None =>
        Done (false, {| f_open := None; f_pos := 0;
                        f_error := FSE_INVALID_PARAMETER; f_entries := [] |})
          (emit (DirClose false) w)
    end.

(** Modelled from the spec: the walker of lib/toolbox/dir_walk.c,
    "depth-first traversal of a directory subtree producing an ordered
    sequence of entries": [dir_walk_alloc] gives a walker, not open. *)
Definition dir_walk_alloc : M DirWalk :=
  fun w =>
    Done {| dw_open := false; dw_rest := []; dw_end := DirWalkLast;
            dw_error := FSE_OK |}
      (emit DirWalkAlloc (set_handles (S (handles w)) w)).

(** Modelled from the spec: [dir_walk_open]: a walker that opens holds
    the entries it will yield and the result of the read after them. *)
Definition dir_walk_open (dir_walk : DirWalk) (path : string)
    : M (bool * DirWalk) :=
  fun w =>
    match svc_walk path (storage w) with
    | inr (entries, last) =>
        Done (true, {| dw_open := true; dw_rest := entries; dw_end := last;
                       dw_error := FSE_OK |})
          (emit (DirWalkOpen path FSE_OK) (set_opened (S (opened w)) w))
    | inl e =>
        Done (false, {| dw_open := false; dw_rest := []; dw_end := DirWalkLast;
                        dw_error := e |})
          (emit (DirWalkOpen path e) w)
    end.

(** Modelled from the spec: [dir_walk_read] yields the next entry with
    [DirWalkOK], and after the last entry [DirWalkLast] or
    [DirWalkError]. *)
Definition dir_walk_read (dir_walk : DirWalk)
    : M (DirWalkResult * option DirEntry * DirWalk) :=
  fun w =>
    match dw_rest dir_walk with
    | entry :: rest =>
        Done (DirWalkOK, Some entry,
              {| dw_open := dw_open dir_walk; dw_rest := rest;
                 dw_end := dw_end dir_walk; dw_error := FSE_OK |})
          (emit (DirWalkRead DirWalkOK) w)
    | [] =>
        let r := match dw_end dir_walk with
                 | DirWalkOK => DirWalkLast
                 | r => r
                 end in
        Done (r, None, dir_walk) (emit (DirWalkRead r) w)
    end.

(** Modelled from the spec: [dir_walk_get_error], the error of the
    walker's handle. *)
Definition dir_walk_get_error (dir_walk : DirWalk) : FS_Error :=
  dw_error dir_walk.

(** Modelled from the spec: "it is released on every exit path":
    [dir_walk_free] frees the walker and its handle, which closes the
    handle when it is open. *)
Definition dir_walk_free (dir_walk : DirWalk) : M unit :=
  fun w =>
    let w1 := if dw_open dir_walk
              then set_opened (Nat.pred (opened w)) w else w in
    Done tt (emit DirWalkFree (set_handles (Nat.pred (handles w1)) w1)).

(** *** System calls of the factory reset *)

(** [furi_hal_rtc_set_flag(FuriHalRtcFlagFactoryReset)]: logged. *)
Definition furi_hal_rtc_set_flag_FactoryReset : M unit :=
  fun w => Done tt (emit RtcSetFlagFactoryReset w).

(** [power_reboot(PowerBootModeNormal)] does not return. *)
Definition power_reboot : M unit :=
  fun w => Rebooted (emit PowerReboot w).

(** *** Loops *)

Definition out_of_fuel {A} : M A := fun w => OutOfFuel w.

Definition with_world {A} (k : World -> M A) : M A := fun w => k w w.

(** [for(i = 0; i < n; i++) f(data[i])] *)
Fixpoint for_each {A} (f : A -> M unit) (data : list A) : M unit :=
  match data with
  | [] => ret tt
  | x :: rest => f x ;; for_each f rest
  end.

(** [buffer[i] = x] *)
Fixpoint store {A} (i : nat) (x : A) (buffer : list A) : list A :=
  match buffer, i with
  | [], _ => []
  | _ :: rest, O => x :: rest
  | y :: rest, S i' => y :: store i' x rest
  end.

(** ** The handlers of storage_cli.c

    Format strings are the source's, escapes as written there. *)

Definition usage_text : list string :=
  [ "Usage:\r\n";
    "storage <cmd> <path> <args>\r\n";
    "The path must start with /int or /ext\r\n";
    "Cmd list:\r\n";
    "\tinfo\t - get FS info\r\n";
    "\tformat\t - format filesystem\r\n";
    "\tlist\t - list files and dirs\r\n";
    "\ttree\t - list files and dirs, recursive\r\n";
    "\tremove\t - delete the file or directory\r\n";
    "\tread\t - read text from file and print file size and content to cli\r\n";
    "\tread_chunks\t - read data from file and print file size and content to cli, <args> should contain how many bytes you want to read in block\r\n";
    "\twrite\t - read text from cli and append it to file, stops by ctrl+c\r\n";
    "\twrite_chunk\t - read data from cli and append it to file, <args> should contain how many bytes you want to write\r\n";
    "\tcopy\t - copy file to new file, <args> must contain new path\r\n";
    "\trename\t - move file to new file, <args> must contain new path\r\n";
    "\tmigrate\t - move folder to new path, renaming already present files by adding numbers to the end\r\n";
    "\tmkdir\t - creates a new directory\r\n";
    "\tmd5\t - md5 hash of the file\r\n";
    "\tstat\t - info about file or dir\r\n";
    "\ttimestamp\t - last modification timestamp\r\n" ].

Definition storage_cli_print_usage : M unit :=
  for_each (fun line => printf line []) usage_text.

Definition storage_cli_print_error (error : FS_Error) : M unit :=
  printf "Storage error: %s\r\n" [ArgStr (storage_error_get_desc error)].

Definition storage_cli_info (path : string) : M unit :=
  furi_record_open ;;
  (if String.eqb path STORAGE_INT_PATH_PREFIX then
     '(error, (total_space, free_space)) <-
        storage_common_fs_info STORAGE_INT_PATH_PREFIX ;;
     if negb (FS_Error_eqb error FSE_OK) then storage_cli_print_error error
     else
       printf "Label: %s\r\nType: LittleFS\r\n%luKiB total\r\n%luKiB free\r\n"
         [ ArgStr (match furi_hal_version_get_name_ptr with
                   | Some n => n
                   | None => "Unknown"
                   end);
           ArgNum (uint32 (total_space / 1024));
           ArgNum (uint32 (free_space / 1024)) ]
   else if String.eqb path STORAGE_EXT_PATH_PREFIX then
     '(error, sd_info) <- storage_sd_info ;;
     if negb (FS_Error_eqb error FSE_OK) then storage_cli_print_error error
     else
       printf
         "Label: %s\r\nType: %s\r\n%luKiB total\r\n%luKiB free\r\n%02x%s %s v%i.%i\r\nSN:%04lx %02i/%i\r\n"
         [ ArgStr (label sd_info);
           ArgStr (sd_api_get_fs_type_text (fs_type sd_info));
           ArgNum (kb_total sd_info);
           ArgNum (kb_free sd_info);
           ArgNum (manufacturer_id sd_info);
           ArgStr (oem_id sd_info);
           ArgStr (product_name sd_info);
           ArgNum (product_revision_major sd_info);
           ArgNum (product_revision_minor sd_info);
           ArgNum (product_serial_number sd_info);
           ArgNum (manufacturing_month sd_info);
           ArgNum (manufacturing_year sd_info) ]
   else storage_cli_print_usage) ;;
  furi_record_close.

Definition is_yes (answer : byte) : bool :=
  Byte.eqb answer "y"%byte || Byte.eqb answer "Y"%byte.

Definition storage_cli_format (path : string) : M unit :=
  if String.eqb path STORAGE_INT_PATH_PREFIX then
    storage_cli_print_error FSE_NOT_IMPLEMENTED
  else if String.eqb path STORAGE_EXT_PATH_PREFIX then
    printf "Formatting SD card, All data will be lost! Are you sure (y/n)?\r\n"
      [] ;;
    answer <- cli_getc ;;
    if is_yes answer then
      furi_record_open ;;
      printf "Formatting, please wait...\r\n" [] ;;
      error <- storage_sd_format ;;
      (if negb (FS_Error_eqb error FSE_OK) then storage_cli_print_error error
       else printf "SD card was successfully formatted.\r\n" []) ;;
      furi_record_close
    else printf "Cancelled.\r\n" []
  else storage_cli_print_usage.

Definition print_entry (entry : DirEntry) : M unit :=
  if is_dir (info entry) then printf "\t[D] %s\r\n" [ArgStr (name entry)]
  else
    printf "\t[F] %s %lub\r\n"
      [ArgStr (name entry); ArgNum (uint32 (size (info entry)))].

(** [while(storage_dir_read(file, &fileinfo, name, MAX_NAME_LENGTH))] *)
Fixpoint storage_cli_list_loop (fuel : nat) (file : File) (read_done : bool)
    : M (bool * File) :=
  match fuel with
  | O => out_of_fuel
  | S fuel' =>
      '(entry, file) <- storage_dir_read file ;;
      match entry with
      | Some entry =>
          print_entry entry ;;
          storage_cli_list_loop fuel' file true
      | None => ret (read_done, file)
      end
  end.

Definition storage_cli_list (path : string) : M unit :=
  if String.eqb path "/" then
    printf "\t[D] int\r\n" [] ;;
    printf "\t[D] ext\r\n" [] ;;
    printf "\t[D] any\r\n" []
  else
    furi_record_open ;;
    file <- storage_file_alloc ;;
    '(ok, file) <- storage_dir_open file path ;;
    file <-
      (if ok then
         '(read_done, file) <-
            storage_cli_list_loop (S (length (f_entries file))) file false ;;
         (if negb read_done then printf "\tEmpty\r\n" [] else ret tt) ;;
         ret file
       else
         storage_cli_print_error (storage_file_get_error file) ;;
         ret file) ;;
    '(_, file) <- storage_dir_close file ;;
    storage_file_free file ;;
    furi_record_close.

(** [while(dir_walk_read(dir_walk, name, &fileinfo) == DirWalkOK)] *)
Fixpoint storage_cli_tree_loop (fuel : nat) (dir_walk : DirWalk)
    (read_done : bool) : M (bool * DirWalk) :=
  match fuel with
  | O => out_of_fuel
  | S fuel' =>
      '(r, entry, dir_walk) <- dir_walk_read dir_walk ;;
      match r, entry with
      | DirWalkOK, Some entry =>
          print_entry entry ;;
          storage_cli_tree_loop fuel' dir_walk true
      | _, _ => ret (read_done, dir_walk)
      end
  end.

(** The branch of [storage_cli_tree] for a path other than "/". *)
Definition storage_cli_tree_walk (path : string) : M unit :=
  furi_record_open ;;
  dir_walk <- dir_walk_alloc ;;
  '(ok, dir_walk) <- dir_walk_open dir_walk path ;;
  dir_walk <-
    (if ok then
       '(read_done, dir_walk) <-
          storage_cli_tree_loop (S (length (dw_rest dir_walk))) dir_walk
            false ;;
       (if negb read_done then printf "\tEmpty\r\n" [] else ret tt) ;;
       ret dir_walk
     else
       storage_cli_print_error (dir_walk_get_error dir_walk) ;;
       ret dir_walk) ;;
  dir_walk_free dir_walk ;;
  furi_record_close.

(** [storage_cli_tree] calls itself on the two prefixes when the path is
    "/"; [depth] bounds the nesting of these calls, and one level is all
    there is since neither prefix is "/" ([storage_cli_tree_depth]). *)
Fixpoint storage_cli_tree_rec (depth : nat) (path : string) : M unit :=
  if String.eqb path "/" then
    match depth with
    | O => out_of_fuel
    | S depth' =>
        storage_cli_tree_rec depth' STORAGE_INT_PATH_PREFIX ;;
        storage_cli_tree_rec depth' STORAGE_EXT_PATH_PREFIX
    end
  else storage_cli_tree_walk path.

Definition storage_cli_tree (path : string) : M unit :=
  storage_cli_tree_rec 1 path.

(** [do { ... } while(read_size > 0)] *)
Fixpoint storage_cli_read_loop (fuel : nat) (file : File) : M File :=
  match fuel with
  | O => out_of_fuel
  | S fuel' =>
      '(data, file) <- storage_file_read file 128 ;;
      for_each (fun c => printf "%c" [ArgChar c]) data ;;
      if (0 <? length data)%nat then storage_cli_read_loop fuel' file
      else ret file
  end.

Definition storage_cli_read (path : string) : M unit :=
  furi_record_open ;;
  file <- storage_file_alloc ;;
  '(ok, file) <- storage_file_open file path FSAM_READ FSOM_OPEN_EXISTING ;;
  file <-
    (if ok then
       file_size <- storage_file_size file ;;
       printf "Size: %lu\r\n" [ArgNum (uint32 file_size)] ;;
       file <- with_world (fun w =>
                 storage_cli_read_loop (S (length (file_content file w)))
                   file) ;;
       printf "\r\n" [] ;;
       ret file
     else
       storage_cli_print_error (storage_file_get_error file) ;;
       ret file) ;;
  '(_, file) <- storage_file_close file ;;
  storage_file_free file ;;
  furi_record_close.

(** [while(true)] in [storage_cli_write]; [buffer_size] is 512 and
    [read_index] a uint32_t. *)
Fixpoint storage_cli_write_loop (fuel : nat) (file : File)
    (buffer : list byte) (read_index : Z) : M File :=
  match fuel with
  | O => out_of_fuel
  | S fuel' =>
      let buffer_size := 512%Z in
      symbol <- cli_getc ;;
      (* from [buffer[read_index % buffer_size] = symbol] to the end of
         the body *)
      let store_symbol : M File :=
        let buffer :=
          store (Z.to_nat (read_index mod buffer_size)) symbol buffer in
        printf "%c"
          [ArgChar (nth (Z.to_nat (read_index mod buffer_size)) buffer x00)] ;;
        let read_index := uint32 (read_index + 1) in
        if (read_index mod buffer_size =? 0)%Z then
          '(written_size, file) <-
             storage_file_write file
               (firstn (Z.to_nat buffer_size) buffer) ;;
          if negb (written_size =? buffer_size)%Z then
            storage_cli_print_error (storage_file_get_error file) ;;
            ret file (* break *)
          else storage_cli_write_loop fuel' file buffer read_index
        else storage_cli_write_loop fuel' file buffer read_index in
      if Byte.eqb symbol CliSymbolAsciiETX then
        let write_size := (read_index mod buffer_size)%Z in
        if (0 <? write_size)%Z then
          '(written_size, file) <-
             storage_file_write file (firstn (Z.to_nat write_size) buffer) ;;
          (if negb (written_size =? write_size)%Z then
             storage_cli_print_error (storage_file_get_error file)
           else ret tt) ;;
          ret file (* break *)
        else store_symbol
      else store_symbol
  end.

Definition storage_cli_write (path : string) : M unit :=
  furi_record_open ;;
  file <- storage_file_alloc ;;
  let buffer := repeat x00 512 in
  '(ok, file) <- storage_file_open file path FSAM_WRITE FSOM_OPEN_APPEND ;;
  file <-
    (if ok then
       printf
         "Just write your text data. New line by Ctrl+Enter, exit by Ctrl+C.\r\n"
         [] ;;
       file <- with_world (fun w =>
                 storage_cli_write_loop (S (length (cli_rx w))) file buffer
                   0%Z) ;;
       printf "\r\n" [] ;;
       ret file
     else
       storage_cli_print_error (storage_file_get_error file) ;;
       ret file) ;;
  '(_, file) <- storage_file_close file ;;
  storage_file_free file ;;
  furi_record_close.

(** [while(file_size > 0)] in [storage_cli_read_chunks]; [file_size] is a
    uint64_t. *)
Fixpoint storage_cli_read_chunks_loop (fuel : nat) (file : File)
    (buffer_size file_size : Z) : M File :=
  match fuel with
  | O => out_of_fuel
  | S fuel' =>
      if (0 <? file_size)%Z then
        printf "\r\nReady?\r\n" [] ;;
        _ <- cli_getc ;;
        '(data, file) <- storage_file_read file buffer_size ;;
        for_each putchar data ;;
        let read_size := Z.of_nat (length data) in
        storage_cli_read_chunks_loop fuel' file buffer_size
          (uint64 (file_size - read_size))
      else ret file
  end.

Definition storage_cli_read_chunks (path args : string) : M unit :=
  furi_record_open ;;
  file <- storage_file_alloc ;;
  file <-
    match sscanf_lu args with
    | None => (* parsed_count != 1 *)
        storage_cli_print_usage ;;
        ret file
    | Some n =>
        let buffer_size := uint32 n in
        '(ok, file) <-
           storage_file_open file path FSAM_READ FSOM_OPEN_EXISTING ;;
        if ok then
          file_size <- storage_file_size file ;;
          printf "Size: %llu\r\n" [ArgNum file_size] ;;
          file <-
            (if negb (buffer_size =? 0)%Z then
               with_world (fun w =>
                 storage_cli_read_chunks_loop (S (length (cli_rx w))) file
                   buffer_size file_size)
             else ret file) ;;
          printf "\r\n" [] ;;
          ret file
        else
          storage_cli_print_error (storage_file_get_error file) ;;
          ret file
    end ;;
  '(_, file) <- storage_file_close file ;;
  storage_file_free file ;;
  furi_record_close.

Definition storage_cli_write_chunk (path args : string) : M unit :=
  furi_record_open ;;
  file <- storage_file_alloc ;;
  file <-
    match sscanf_lu args with
    | None => (* parsed_count != 1 *)
        storage_cli_print_usage ;;
        ret file
    | Some n =>
        let buffer_size := uint32 n in
        '(ok, file) <-
           storage_file_open file path FSAM_WRITE FSOM_OPEN_APPEND ;;
        file <-
          (if ok then
             printf "Ready\r\n" [] ;;
             if negb (buffer_size =? 0)%Z then
               buffer <- cli_read buffer_size ;;
               let read_bytes := buffer in
               '(written_size, file) <- storage_file_write file read_bytes ;;
               (if negb (written_size =? buffer_size)%Z then
                  storage_cli_print_error (storage_file_get_error file)
                else ret tt) ;;
               ret file
             else ret file
           else
             storage_cli_print_error (storage_file_get_error file) ;;
             ret file) ;;
        '(_, file) <- storage_file_close file ;;
        ret file
    end ;;
  storage_file_free file ;;
  furi_record_close.

Definition storage_cli_stat (path : string) : M unit :=
  furi_record_open ;;
  (if String.eqb path "/" then printf "Storage\r\n" []
   else if String.eqb path STORAGE_EXT_PATH_PREFIX
           || String.eqb path STORAGE_INT_PATH_PREFIX
           || String.eqb path STORAGE_ANY_PATH_PREFIX then
     '(error, (total_space, free_space)) <- storage_common_fs_info path ;;
     if negb (FS_Error_eqb error FSE_OK) then storage_cli_print_error error
     else
       printf "Storage, %luKiB total, %luKiB free\r\n"
         [ ArgNum (uint32 (total_space / 1024));
           ArgNum (uint32 (free_space / 1024)) ]
   else
     '(error, fileinfo) <- storage_common_stat path ;;
     if FS_Error_eqb error FSE_OK then
       if is_dir fileinfo then printf "Directory\r\n" []
       else printf "File, size: %lub\r\n" [ArgNum (uint32 (size fileinfo))]
     else storage_cli_print_error error) ;;
  furi_record_close.

Definition storage_cli_timestamp (path : string) : M unit :=
  furi_record_open ;;
  '(error, timestamp) <- storage_common_timestamp path ;;
  (if negb (FS_Error_eqb error FSE_OK) then printf "Invalid arguments\r\n" []
   else printf "Timestamp %lu\r\n" [ArgNum (uint32 timestamp)]) ;;
  furi_record_close.

Definition storage_cli_copy (old_path args : string) : M unit :=
  furi_record_open ;;
  match args_read_probably_quoted_string_and_trim args with
  | None => storage_cli_print_usage
  | Some (new_path, _) =>
      error <- storage_common_copy old_path new_path ;;
      if negb (FS_Error_eqb error FSE_OK) then storage_cli_print_error error
      else ret tt
  end ;;
  furi_record_close.

Definition storage_cli_remove (path : string) : M unit :=
  furi_record_open ;;
  error <- storage_common_remove path ;;
  (if negb (FS_Error_eqb error FSE_OK) then storage_cli_print_error error
   else ret tt) ;;
  furi_record_close.

Definition storage_cli_rename (old_path args : string) : M unit :=
  furi_record_open ;;
  match args_read_probably_quoted_string_and_trim args with
  | None => storage_cli_print_usage
  | Some (new_path, _) =>
      error <- storage_common_rename old_path new_path ;;
      if negb (FS_Error_eqb error FSE_OK) then storage_cli_print_error error
      else ret tt
  end ;;
  furi_record_close.

Definition storage_cli_migrate (old_path args : string) : M unit :=
  furi_record_open ;;
  match args_read_probably_quoted_string_and_trim args with
  | None => storage_cli_print_usage
  | Some (new_path, _) =>
      error <- storage_common_migrate old_path new_path ;;
      if negb (FS_Error_eqb error FSE_OK) then storage_cli_print_error error
      else ret tt
  end ;;
  furi_record_close.

Definition storage_cli_mkdir (path : string) : M unit :=
  furi_record_open ;;
  error <- storage_common_mkdir path ;;
  (if negb (FS_Error_eqb error FSE_OK) then storage_cli_print_error error
   else ret tt) ;;
  furi_record_close.

Definition storage_cli_md5 (path : string) : M unit :=
  furi_record_open ;;
  file <- storage_file_alloc ;;
  r <- md5_string_calc_file file path ;;
  match r with
  | inr md5 => printf "%s\r\n" [ArgStr md5]
  | inl file_error => storage_cli_print_error file_error
  end ;;
  '(_, file) <- storage_file_close file ;;
  storage_file_free file ;;
  furi_record_close.

(** The command of the console: [args] is the line after the command's
    name. *)
Definition storage_cli (args : string) : M unit :=
  match args_read_string_and_trim args with
  | None => storage_cli_print_usage
  | Some (cmd, args) =>
      match args_read_probably_quoted_string_and_trim args with
      | None => storage_cli_print_usage
      | Some (path, args) =>
          if String.eqb cmd "info" then storage_cli_info path
          else if String.eqb cmd "format" then storage_cli_format path
          else if String.eqb cmd "list" then storage_cli_list path
          else if String.eqb cmd "tree" then storage_cli_tree path
          else if String.eqb cmd "read" then storage_cli_read path
          else if String.eqb cmd "read_chunks" then
            storage_cli_read_chunks path args
          else if String.eqb cmd "write" then storage_cli_write path
          else if String.eqb cmd "write_chunk" then
            storage_cli_write_chunk path args
          else if String.eqb cmd "copy" then storage_cli_copy path args
          else if String.eqb cmd "remove" then storage_cli_remove path
          else if String.eqb cmd "rename" then storage_cli_rename path args
          else if String.eqb cmd "migrate" then storage_cli_migrate path args
          else if String.eqb cmd "mkdir" then storage_cli_mkdir path
          else if String.eqb cmd "md5" then storage_cli_md5 path
          else if String.eqb cmd "stat" then storage_cli_stat path
          else if String.eqb cmd "timestamp" then storage_cli_timestamp path
          else storage_cli_print_usage
      end
  end.

Definition storage_cli_factory_reset (args : string) : M unit :=
  printf "All data will be lost! Are you sure (y/n)?\r\n" [] ;;
  c <- cli_getc ;;
  if is_yes c then
    printf "Data will be wiped after reboot.\r\n" [] ;;
    furi_hal_rtc_set_flag_FactoryReset ;;
    power_reboot
  else printf "Safe choice.\r\n" [].

End Handlers.

(** ** A sample of the collaborators

    One value of [Collaborators], to run the handlers on concrete
    worlds. *)
Module Sample.

Definition space_char : ascii := ascii_of_nat 32.
Definition quote_char : ascii := ascii_of_nat 34.

Fixpoint trim_left (s : string) : string :=
  match s with
  | String c rest => if Ascii.eqb c space_char then trim_left rest else s
  | EmptyString => EmptyString
  end.

(** The characters before the first [stop], and what follows it. *)
Fixpoint split_at (stop : ascii) (s : string) : string * option string :=
  match s with
  | EmptyString => (EmptyString, None)
  | String c rest =>
      if Ascii.eqb c stop then (EmptyString, Some rest)
      else let '(word, tail) := split_at stop rest in (String c word, tail)
  end.

(** Modelled from the spec: "extract a verb token": the characters up to
    the first space, none being a failure; the rest is trimmed. *)
Definition read_string_and_trim (args : string) : option (string * string) :=
  match split_at space_char args with
  | (EmptyString, _) => None
  | (word, Some rest) => Some (word, trim_left rest)
  | (word, None) => Some (word, EmptyString)
  end.

(** Modelled from the spec: "the path token may be quoted to admit
    embedded spaces; quoting is stripped, and leading/trailing whitespace
    trimmed". *)
Definition read_probably_quoted_string_and_trim (args : string)
    : option (string * string) :=
  match args with
  | String c (String d rest) =>
      if Ascii.eqb c quote_char then
        match split_at quote_char (String d rest) with
        | (word, Some tail) => Some (word, trim_left tail)
        | (_, None) => None
        end
      else read_string_and_trim args
  | _ => read_string_and_trim args
  end.

Definition digit (c : ascii) : option Z :=
  let n := nat_of_ascii c in
  if ((48 <=? n) && (n <=? 57))%nat then Some (Z.of_nat (n - 48)) else None.

Fixpoint digits (acc : Z) (s : string) : Z :=
  match s with
  | String c rest =>
      match digit c with
      | Some d => digits (10 * acc + d) rest
      | None => acc
      end
  | EmptyString => acc
  end.

(** The decimal number a text starts with, if it starts with a digit. *)
Definition scan_lu (s : string) : option Z :=
  match s with
  | String c _ =>
      match digit c with
      | Some _ => Some (digits 0 s)
      | None => None
      end
  | EmptyString => None
  end.

Definition error_desc (e : FS_Error) : string :=
  match e with
  | FSE_OK => "OK"
  | FSE_NOT_READY => "filesystem not ready"
  | FSE_EXIST => "file/dir already exist"
  | FSE_NOT_EXIST => "file/dir not exist"
  | FSE_INVALID_PARAMETER => "invalid parameter"
  | FSE_DENIED => "access denied"
  | FSE_INVALID_NAME => "invalid name/path"
  | FSE_INTERNAL => "internal error"
  | FSE_NOT_IMPLEMENTED => "function not implemented"
  | FSE_ALREADY_OPEN => "file is already open"
  end.

Definition no_card : SDInfo :=
  {| label := ""; fs_type := 0; kb_total := 0; kb_free := 0;
     manufacturer_id := 0; oem_id := ""; product_name := "";
     product_revision_major := 0; product_revision_minor := 0;
     product_serial_number := 0; manufacturing_month := 0;
     manufacturing_year := 0 |}.

(** A storage service that knows regular files only: a call by path
    fails with the path's [fault], or with [FSE_NOT_EXIST] where there is
    no file. *)
Definition check (path : string) (s : Storage) : FS_Error :=
  match fault s path with
  | FSE_OK =>
      match files s path with Some _ => FSE_OK | None => FSE_NOT_EXIST end
  | e => e
  end.

Definition a_file (content : list byte) : FileInfo :=
  {| is_dir := false; size := Z.of_nat (length content) |}.

Definition collaborators : Collaborators := {|
  args_read_string_and_trim := read_string_and_trim;
  args_read_probably_quoted_string_and_trim :=
    read_probably_quoted_string_and_trim;
  sscanf_lu := scan_lu;
  storage_error_get_desc := error_desc;
  sd_api_get_fs_type_text := fun _ => "FAT32";
  furi_hal_version_get_name_ptr := None;
  svc_fs_info := fun path s =>
    (fault s path, (Z.of_nat (space s), Z.of_nat (space s)));
  svc_sd_info := fun s => (fault s STORAGE_EXT_PATH_PREFIX, no_card);
  svc_sd_format := fun s =>
    (fault s STORAGE_EXT_PATH_PREFIX,
     {| files := fun _ => None; fault := fault s; space := space s |});
  svc_stat := fun path s =>
    (check path s,
     a_file (match files s path with Some c => c | None => [] end));
  svc_timestamp := fun path s => (check path s, 0%Z);
  svc_copy := fun old_path _ s => (check old_path s, s);
  svc_remove := fun path s => (check path s, s);
  svc_rename := fun old_path _ s => (check old_path s, s);
  svc_migrate := fun old_path _ s => (check old_path s, s);
  svc_mkdir := fun path s => (fault s path, s);
  svc_dir := fun path s =>
    match fault s path with FSE_OK => inr [] | e => inl e end;
  svc_walk := fun path s =>
    match fault s path with FSE_OK => inr ([], DirWalkLast) | e => inl e end;
  svc_md5 := fun path s =>
    match check path s with FSE_OK => inr "" | e => inl e end
|}.

(** A world with the given console input and one file. *)
Definition world (rx : list byte) (path : string) (content : list byte)
    (room : nat) : World :=
  {| cli_rx := rx;
     storage := {| files := fun p => if String.eqb p path then Some content
                                     else None;
                   fault := fun _ => FSE_OK;
                   space := room |};
     records := 0; handles := 0; opened := 0; log := [] |}.

Definition ext_a : string := "/ext/a".

(** The console gives the cancel symbol at once; the file exists and is
    empty. *)
Definition cancel_first : World := world [CliSymbolAsciiETX] ext_a [] 2000.

(** A file of three bytes, read in chunks of two; the console gives two
    acknowledgments and one more byte. *)
Definition three_bytes : World :=
  world ["a"; "b"; "c"]%byte ext_a ["1"; "2"; "3"]%byte 1000.

(** Two entries, a directory and a file of three bytes. *)
Definition two_entries : list DirEntry :=
  [ {| name := "docs"; info := {| is_dir := true; size := 0%Z |} |};
    {| name := "a"; info := a_file ["1"; "2"; "3"]%byte |} ].

(** The sample service with these two entries in every directory that
    opens, for the cursor and for the walker. *)
Definition shelf : Collaborators := {|
  args_read_string_and_trim := read_string_and_trim;
  args_read_probably_quoted_string_and_trim :=
    read_probably_quoted_string_and_trim;
  sscanf_lu := scan_lu;
  storage_error_get_desc := error_desc;
  sd_api_get_fs_type_text := fun _ => "FAT32";
  furi_hal_version_get_name_ptr := None;
  svc_fs_info := fun path s =>
    (fault s path, (Z.of_nat (space s), Z.of_nat (space s)));
  svc_sd_info := fun s => (fault s STORAGE_EXT_PATH_PREFIX, no_card);
  svc_sd_format := fun s =>
    (fault s STORAGE_EXT_PATH_PREFIX,
     {| files := fun _ => None; fault := fault s; space := space s |});
  svc_stat := fun path s =>
    (check path s,
     a_file (match files s path with Some c => c | None => [] end));
  svc_timestamp := fun path s => (check path s, 0%Z);
  svc_copy := fun old_path _ s => (check old_path s, s);
  svc_remove := fun path s => (check path s, s);
  svc_rename := fun old_path _ s => (check old_path s, s);
  svc_migrate := fun old_path _ s => (check old_path s, s);
  svc_mkdir := fun path s => (fault s path, s);
  svc_dir := fun path s =>
    match fault s path with FSE_OK => inr two_entries | e => inl e end;
  svc_walk := fun path s =>
    match fault s path with
    | FSE_OK => inr (two_entries, DirWalkLast)
    | e => inl e
    end;
  svc_md5 := fun path s =>
    match check path s with FSE_OK => inr "" | e => inl e end
|}.

(** The world [three_bytes] with access to its file denied. *)
Definition denied : World :=
  {| cli_rx := ["a"; "b"; "c"]%byte;
     storage := {| files := fun p => if String.eqb p ext_a
                                     then Some ["1"; "2"; "3"]%byte
                                     else None;
                   fault := fun p => if String.eqb p ext_a then FSE_DENIED
                                     else FSE_OK;
                   space := 1000 |};
     records := 0; handles := 0; opened := 0; log := [] |}.

(** The sample service with a walker that yields the two entries and
    then fails. *)
Definition broken_walk : Collaborators := {|
  args_read_string_and_trim := read_string_and_trim;
  args_read_probably_quoted_string_and_trim :=
    read_probably_quoted_string_and_trim;
  sscanf_lu := scan_lu;
  storage_error_get_desc := error_desc;
  sd_api_get_fs_type_text := fun _ => "FAT32";
  furi_hal_version_get_name_ptr := None;
  svc_fs_info := fun path s =>
    (fault s path, (Z.of_nat (space s), Z.of_nat (space s)));
  svc_sd_info := fun s => (fault s STORAGE_EXT_PATH_PREFIX, no_card);
  svc_sd_format := fun s =>
    (fault s STORAGE_EXT_PATH_PREFIX,
     {| files := fun _ => None; fault := fault s; space := space s |});
  svc_stat := fun path s =>
    (check path s,
     a_file (match files s path with Some c => c | None => [] end));
  svc_timestamp := fun path s => (check path s, 0%Z);
  svc_copy := fun old_path _ s => (check old_path s, s);
  svc_remove := fun path s => (check path s, s);
  svc_rename := fun old_path _ s => (check old_path s, s);
  svc_migrate := fun old_path _ s => (check old_path s, s);
  svc_mkdir := fun path s => (fault s path, s);
  svc_dir := fun path s =>
    match fault s path with FSE_OK => inr two_entries | e => inl e end;
  svc_walk := fun path s =>
    match fault s path with
    | FSE_OK => inr (two_entries, DirWalkError)
    | e => inl e
    end;
  svc_md5 := fun path s =>
    match check path s with FSE_OK => inr "" | e => inl e end
|}.

(** The console gives three bytes for a chunk; the volume has room for
    one. *)
Definition full_volume : World :=
  world ["a"; "b"; "c"]%byte ext_a [] 1.

End Sample.

(** ** Vocabulary of the properties *)

Section Vocabulary.

Context {collab : Collaborators}.

(** The two tokens the dispatcher reads, and what is left of the line. *)
Definition read_command (args : string) : option (string * string * string) :=
  match args_read_string_and_trim args with
  | Some (cmd, args) =>
      match args_read_probably_quoted_string_and_trim args with
      | Some (path, args) => Some (cmd, path, args)
      | None => None
      end
  | None => None
  end.

(** The verbs in the order [storage_cli] compares them, each with its
    handler (given the path and the rest of the line). *)
Definition command_table : list (string * (string -> string -> M unit)) :=
  [ ("info", fun path _ => storage_cli_info path);
    ("format", fun path _ => storage_cli_format path);
    ("list", fun path _ => storage_cli_list path);
    ("tree", fun path _ => storage_cli_tree path);
    ("read", fun path _ => storage_cli_read path);
    ("read_chunks", storage_cli_read_chunks);
    ("write", fun path _ => storage_cli_write path);
    ("write_chunk", storage_cli_write_chunk);
    ("copy", storage_cli_copy);
    ("remove", fun path _ => storage_cli_remove path);
    ("rename", storage_cli_rename);
    ("migrate", storage_cli_migrate);
    ("mkdir", fun path _ => storage_cli_mkdir path);
    ("md5", fun path _ => storage_cli_md5 path);
    ("stat", fun path _ => storage_cli_stat path);
    ("timestamp", fun path _ => storage_cli_timestamp path) ].

(** The first entry of the table whose verb is [cmd]. *)
Definition first_match (cmd : string)
    : option (string * (string -> string -> M unit)) :=
  find (fun entry => String.eqb cmd (fst entry)) command_table.

(** What printing the usage text adds to the log. *)
Definition usage_events : list Event :=
  map (fun line => Printf line []) usage_text.

Definition error_event (error : FS_Error) : Event :=
  Printf "Storage error: %s\r\n" [ArgStr (storage_error_get_desc error)].

(** The events a call added to the log of the world it started in. *)
Definition new_events {A} (w : World) (r : Result A) : list Event :=
  skipn (length (log w)) (log (world_of r)).

(** What [print_entry] adds to the log. *)
Definition entry_event (entry : DirEntry) : Event :=
  if is_dir (info entry) then Printf "\t[D] %s\r\n" [ArgStr (name entry)]
  else
    Printf "\t[F] %s %lub\r\n"
      [ArgStr (name entry); ArgNum (uint32 (size (info entry)))].

(** The result of the walker's read once its entries are exhausted. *)
Definition last_read (last : DirWalkResult) : DirWalkResult :=
  match last with DirWalkOK => DirWalkLast | r => r end.

(** What walking the given entries adds to the log, from the first read
    to the line that reports an empty directory. *)
Definition walk_events (entries : list DirEntry) (last : DirWalkResult)
    : list Event :=
  flat_map (fun entry => [DirWalkRead DirWalkOK; entry_event entry]) entries
  ++ [DirWalkRead (last_read last)]
  ++ match entries with [] => [Printf "\tEmpty\r\n" []] | _ => [] end.

(** The error code a logged storage call came back with, when it is not
    [FSE_OK]: the calls by path, the SD calls, the digest helper and the
    calls that open a file, a directory or a walker. *)
Definition error_of (ev : Event) : option FS_Error :=
  match ev with
  | FileOpen _ _ _ e | DirOpen _ e | DirWalkOpen _ e
  | CommonFsInfo _ e | SdInfo e | SdFormat e | CommonStat _ e
  | CommonTimestamp _ e | CommonCopy _ _ e | CommonRemove _ e
  | CommonRename _ _ e | CommonMigrate _ _ e | CommonMkdir _ e
  | Md5CalcFile _ e => if FS_Error_eqb e FSE_OK then None else Some e
  | _ => None
  end.

(** No call in [evs] came back with an error code. *)
Definition quiet (evs : list Event) : Prop :=
  Forall (fun ev => error_of ev = None) evs.

(** Every call in [evs] that came back with an error code is followed at
    once by the line that describes this code. *)
Fixpoint errors_reported (evs : list Event) : Prop :=
  match evs with
  | [] => True
  | ev :: rest =>
      match error_of ev with
      | Some e => exists post, rest = error_event e :: post
      | None => True
      end
      /\ errors_reported rest
  end.

(** The call reports every error code it meets, and having met one it
    returns. *)
Definition reports {A} (w : World) (r : Result A) : Prop :=
  exists evs,
    log (world_of r) = log w ++ evs
    /\ errors_reported evs
    /\ ((exists ev e, In ev evs /\ error_of ev = Some e) ->
        returned r = true).

(** A call that returns holds the resources the world started with. *)
Definition restores {A} (w : World) (r : Result A) : Prop :=
  returned r = true ->
  records (world_of r) = records w
  /\ handles (world_of r) = handles w
  /\ opened (world_of r) = opened w.

(** A call that meets no error code and leaves the held resources alone,
    however it ends; what it returns satisfies [P]. *)
Definition keeps {A} (P : A -> Prop) (m : M A) : Prop :=
  forall w,
    (exists evs, log (world_of (m w)) = log w ++ evs /\ quiet evs)
    /\ records (world_of (m w)) = records w
    /\ handles (world_of (m w)) = handles w
    /\ opened (world_of (m w)) = opened w
    /\ (forall a w', m w = Done a w' -> P a).

Definition is_open (file : File) : Prop := f_open file <> None.

(** The blocks of at most [n] bytes read one after the other from [data];
    [fuel] bounds their number. *)
Fixpoint chunks_fuel (fuel n : nat) (data : list byte) : list (list byte) :=
  match fuel with
  | O => []
  | S fuel' =>
      match data with
      | [] => []
      | _ => firstn n data :: chunks_fuel fuel' n (skipn n data)
      end
  end.

Definition chunks (n : nat) (data : list byte) : list (list byte) :=
  chunks_fuel (length data) n data.

(** What one round of read_chunks adds to the log: the prompt, the
    character taken from the console, the read and the bytes put out. *)
Definition chunk_events (buffer_size : Z) (ack : byte) (chunk : list byte)
    : list Event :=
  [Printf "\r\nReady?\r\n" []; CliGetc ack; FileRead buffer_size chunk]
  ++ map Putchar chunk.

Definition transfer_events (buffer_size : Z) (acks : list byte)
    (blocks : list (list byte)) : list Event :=
  flat_map (fun round => chunk_events buffer_size (fst round) (snd round))
    (combine acks blocks).

(** The bytes put out by [putchar], in order. *)
Definition put_out (evs : list Event) : list byte :=
  flat_map (fun ev => match ev with Putchar c => [c] | _ => [] end) evs.

(** What [storage_cli_write] does around its loop when the file opens. *)
Definition write_session (path : string) (old : list byte) (s1 : Storage)
    (w : World) : Result File :=
  storage_cli_write_loop (S (length (cli_rx w)))
    {| f_open := Some path; f_pos := length old; f_error := FSE_OK;
       f_entries := [] |}
    (repeat x00 512) 0
    (emits
       [ RecordOpen; FileAlloc;
         FileOpen path FSAM_WRITE FSOM_OPEN_APPEND FSE_OK;
         Printf
           "Just write your text data. New line by Ctrl+Enter, exit by Ctrl+C.\r\n"
           [] ]
       (set_opened (S (opened w))
          (set_handles (S (handles w))
             (set_records (S (records w)) (set_storage s1 w))))).

(** The call did not stop for want of fuel. *)
Definition fueled {A} (r : Result A) : Prop :=
  match r with OutOfFuel _ => False | _ => True end.

(** What listing the given entries adds to the log, from the first read
    to the line that reports an empty directory. *)
Definition list_events (entries : list DirEntry) : list Event :=
  flat_map (fun entry => [DirRead true; entry_event entry]) entries
  ++ [DirRead false]
  ++ match entries with [] => [Printf "\tEmpty\r\n" []] | _ => [] end.

(** What the loop of read adds to the log: for each block of 128 bytes
    the read and the characters printed, then the read that finds nothing
    more. *)
Definition read_events (content : list byte) : list Event :=
  flat_map
    (fun block =>
       FileRead 128 block :: map (fun c => Printf "%c" [ArgChar c]) block)
    (chunks 128 content)
  ++ [FileRead 128 []].

(** The characters printed one by one with the format "%c", in order. *)
Definition echoed (evs : list Event) : list byte :=
  flat_map
    (fun ev =>
       match ev with
       | Printf fmt [ArgChar c] => if String.eqb fmt "%c" then [c] else []
       | _ => []
       end) evs.

(** The characters taken from the console one by one, in order. *)
Definition taken (evs : list Event) : list byte :=
  flat_map (fun ev => match ev with CliGetc c => [c] | _ => [] end) evs.

(** The reads of a file among the events. *)
Definition file_reads (evs : list Event) : list Event :=
  filter (fun ev => match ev with FileRead _ _ => true | _ => false end) evs.

(** The call echoed what it took from the console: the characters it
    printed one by one are the characters it took, in order, but for a
    cancel symbol taken last; and what it took is the front of the
    console input. *)
Definition echoes {A} (w : World) (r : Result A) : Prop :=
  exists evs,
    log (world_of r) = log w ++ evs
    /\ (taken evs = echoed evs
        \/ taken evs = echoed evs ++ [CliSymbolAsciiETX])
    /\ cli_rx w = taken evs ++ cli_rx (world_of r).

(** What the loop of write adds to the log for symbols it takes and
    stores without a write to the file: each is taken and echoed. *)
Definition typed_events (symbols : list byte) : list Event :=
  flat_map (fun symbol => [CliGetc symbol; Printf "%c" [ArgChar symbol]])
    symbols.

(** Between the two states of the storage nothing but the file at [path]
    and the room left may differ: the faults are the same and so is every
    other file. *)
Definition only_file (path : string) (s s' : Storage) : Prop :=
  fault s' = fault s /\ forall q, q <> path -> files s' q = files s q.

(** The characters of [s] before its first tab escape (a backslash and a
    t, as the usage text writes it). *)
Fixpoint until_tab (s : string) : option string :=
  match s with
  | String "\" (String "t" _) => Some EmptyString
  | String c rest => option_map (String c) (until_tab rest)
  | EmptyString => None
  end.

(** The verb a line of the usage text documents: the word between the
    two tab escapes the line starts with. *)
Definition documented_verb (line : string) : option string :=
  match line with
  | String "\" (String "t" rest) => until_tab rest
  | _ => None
  end.

(** The verbs the usage text documents, in its order. *)
Definition usage_verbs : list string :=
  flat_map
    (fun line =>
       match documented_verb line with Some verb => [verb] | None => [] end)
    usage_text.

(** The verbs whose handlers ask the storage and print, and never read
    the console. *)
Definition query_verbs : list string :=
  ["info"; "list"; "tree"; "read"; "md5"; "stat"; "timestamp"].

(** The lines printed with [printf], in order. *)
Definition printed (evs : list Event) : list Event :=
  filter (fun ev => match ev with Printf _ _ => true | _ => false end) evs.

(** A write to a file that came back with fewer bytes than it was
    given. *)
Definition short_write (ev : Event) : bool :=
  match ev with
  | FileWrite data written => (written <? Z.of_nat (length data))%Z
  | _ => false
  end.

(** The error code of a call that failed: for the calls of [error_of]
    the code they came back with, and for a write that came back short
    the code that [storage_file_write] then leaves in the handle. *)
Definition failure_of (ev : Event) : option FS_Error :=
  match ev with
  | FileWrite _ _ => if short_write ev then Some FSE_INTERNAL else None
  | _ => error_of ev
  end.

(** Every call in [evs] that failed is followed at once by the line that
    describes its error code. *)
Fixpoint failures_reported (evs : list Event) : Prop :=
  match evs with
  | [] => True
  | ev :: rest =>
      match failure_of ev with
      | Some e => exists post, rest = error_event e :: post
      | None => True
      end
      /\ failures_reported rest
  end.

(** The call reports every failure it meets, an error code or a short
    write, and having met one it returns. *)
Definition reports_failures {A} (w : World) (r : Result A) : Prop :=
  exists evs,
    log (world_of r) = log w ++ evs
    /\ failures_reported evs
    /\ ((exists ev e, In ev evs /\ failure_of ev = Some e) ->
        returned r = true).




End Vocabulary.

(** * Properties *)

Section Properties.

Context {collab : Collaborators}.

Lemma emits_emits (a b : list Event) (w : World) :
  emits b (emits a w) = emits (a ++ b) w.
Proof. unfold emits; simpl. now rewrite app_assoc. Qed.

Lemma emits_nil (w : World) : emits [] w = w.
Proof. destruct w; unfold emits; simpl. now rewrite app_nil_r. Qed.

Lemma for_each_printf (lines : list string) (w : World) :
  for_each (fun line => printf line []) lines w
  = Done tt (emits (map (fun line => Printf line []) lines) w).
Proof.
  revert w; induction lines as [|line lines IH]; intro w; simpl.
  - unfold ret. now rewrite emits_nil.
  - unfold bind, printf, emit. rewrite IH, emits_emits. reflexivity.
Qed.

Lemma storage_cli_print_usage_spec (w : World) :
  storage_cli_print_usage w = Done tt (emits usage_events w).
Proof. apply for_each_printf. Qed.

(** The if-chain of [storage_cli] is the lookup in the table. *)
Lemma storage_cli_unfold (args : string) (w : World) :
  storage_cli args w
  = match read_command args with
    | Some (cmd, path, rest) =>
        match first_match cmd with
        | Some (_, handler) => handler path rest w
        | None => Done tt (emits usage_events w)
        end
    | None => Done tt (emits usage_events w)
    end.
Proof.
  unfold storage_cli, read_command.
  destruct (args_read_string_and_trim args) as [[cmd args1]|];
    [|apply storage_cli_print_usage_spec].
  destruct (args_read_probably_quoted_string_and_trim args1)
    as [[path rest]|]; [|apply storage_cli_print_usage_spec].
  unfold first_match, command_table; simpl.
  repeat match goal with
         | |- context [String.eqb cmd ?v] =>
             destruct (String.eqb cmd v); [reflexivity|]
         end.
  apply storage_cli_print_usage_spec.
Qed.

(** C3.  Command dispatch: a line whose verb or path token cannot be read,
    or whose verb is none of the table's, prints the usage text and
    returns, which adds the usage lines to the log and leaves the console
    input, the storage and the held resources as they were; any other
    line runs exactly the handler of the first table entry with that
    verb. *)
Theorem storage_cli_dispatch (args : string) (w : World) :
  storage_cli args w
  = match read_command args with
    | Some (cmd, path, rest) =>
        match first_match cmd with
        | Some (_, handler) => handler path rest w
        | None => Done tt (emits usage_events w)
        end
    | None => Done tt (emits usage_events w)
    end
  /\ (forall e, In e usage_events -> exists line, e = Printf line [])
  /\ cli_rx (emits usage_events w) = cli_rx w
  /\ storage (emits usage_events w) = storage w
  /\ records (emits usage_events w) = records w
  /\ handles (emits usage_events w) = handles w
  /\ opened (emits usage_events w) = opened w
  /\ log (emits usage_events w) = log w ++ usage_events.
Proof.
  split; [apply storage_cli_unfold|split; [|repeat split]].
  intros e He. unfold usage_events in He.
  apply in_map_iff in He. destruct He as [line [<- _]]. now exists line.
Qed.

(** Running a handler on a world whose fields are variables. *)
Ltac run :=
  cbv beta iota zeta delta
    [storage_cli_print_error error_event
     storage_common_fs_info storage_sd_info storage_sd_format
     storage_common_stat storage_common_timestamp storage_common_copy
     storage_common_remove storage_common_rename storage_common_migrate
     storage_common_mkdir md5_string_calc_file query update
     storage_dir_open storage_dir_read storage_dir_close
     dir_walk_alloc dir_walk_open dir_walk_read dir_walk_free
     dir_walk_get_error furi_hal_rtc_set_flag_FactoryReset power_reboot
     furi_record_open furi_record_close storage_file_alloc
     storage_file_open open_ok open_fail storage_file_size
     storage_file_read storage_file_write storage_file_close
     storage_file_free storage_file_get_error file_content
     cli_getc cli_read printf putchar with_world out_of_fuel
     bind ret emit emits set_cli_rx set_storage set_records
     set_handles set_opened world_of
     cli_rx storage records handles opened log
     f_open f_pos f_error f_entries
     dw_open dw_rest dw_end dw_error fst snd Nat.pred
     negb andb orb FS_Error_eqb returned].

Ltac same_world :=
  repeat (rewrite <- app_assoc || rewrite app_nil_r
          || rewrite <- app_comm_cons);
  reflexivity.

(** The same through a call that prints the usage text. *)
Ltac usage := run; rewrite ?storage_cli_print_usage_spec; run.

(** C6.  Argument before open: when the trailing argument does not scan
    as an unsigned integer, read_chunks and write_chunk print the usage
    text and return; between taking and releasing the storage record and
    the handle object nothing but the usage lines is logged (read_chunks
    still calls close on the handle it never opened), so no file is
    opened, and the storage is as it was. *)
Theorem chunk_size_checked_before_open (path args : string) (w : World) :
  sscanf_lu args = None ->
  storage_cli_read_chunks path args w
  = Done tt
      (emits ([RecordOpen; FileAlloc] ++ usage_events
              ++ [FileClose false; FileFree; RecordClose]) w)
  /\ storage_cli_write_chunk path args w
     = Done tt
         (emits ([RecordOpen; FileAlloc] ++ usage_events
                 ++ [FileFree; RecordClose]) w)
  /\ (forall p am om e,
        ~ In (FileOpen p am om e)
            ([RecordOpen; FileAlloc] ++ usage_events
             ++ [FileClose false; FileFree; RecordClose]))
  /\ (forall p am om e,
        ~ In (FileOpen p am om e)
            ([RecordOpen; FileAlloc] ++ usage_events
             ++ [FileFree; RecordClose])).
Proof.
  intro Hscan. repeat split.
  - unfold storage_cli_read_chunks. rewrite Hscan.
    unfold bind at 1 2 3. unfold furi_record_open at 1.
    unfold storage_file_alloc at 1. unfold bind at 1.
    rewrite storage_cli_print_usage_spec.
    destruct w; run. same_world.
  - unfold storage_cli_write_chunk. rewrite Hscan.
    unfold bind at 1 2 3. unfold furi_record_open at 1.
    unfold storage_file_alloc at 1. unfold bind at 1.
    rewrite storage_cli_print_usage_spec.
    destruct w; run. same_world.
  - intros p am om e Hin. simpl in Hin. intuition discriminate.
  - intros p am om e Hin. simpl in Hin. intuition discriminate.
Qed.

(** ** Handlers without a loop *)

Lemma quiet_reported (evs : list Event) : quiet evs -> errors_reported evs.
Proof.
  induction 1 as [|ev evs Hev _ IH]; simpl; [exact I|].
  rewrite Hev. now split.
Qed.

Lemma quiet_no_error (evs : list Event) :
  quiet evs -> ~ exists ev e, In ev evs /\ error_of ev = Some e.
Proof.
  intros Hq [ev [e [Hin He]]].
  unfold quiet in Hq. rewrite Forall_forall in Hq.
  rewrite (Hq _ Hin) in He. discriminate.
Qed.

Lemma quiet_usage : quiet usage_events.
Proof.
  unfold quiet, usage_events. apply Forall_forall.
  intros ev Hin. apply in_map_iff in Hin.
  destruct Hin as [line [<- _]]. reflexivity.
Qed.

Lemma quiet_app (a b : list Event) : quiet a -> quiet b -> quiet (a ++ b).
Proof. unfold quiet. intros. now apply Forall_app. Qed.

Lemma reported_app (a b : list Event) :
  quiet a -> errors_reported b -> errors_reported (a ++ b).
Proof.
  induction 1 as [|ev a Hev _ IH]; simpl; [tauto|].
  intro Hb. rewrite Hev. split; [exact I|]. now apply IH.
Qed.

(** The three parts of [reports] for a list of events written out. *)
Ltac solve_reports :=
  unfold reports; run; eexists; split;
  [ run; repeat rewrite <- app_assoc; reflexivity
  | split;
    [ simpl; repeat split; try (eexists; reflexivity)
    | try (intros _; reflexivity);
      intros [ev [e [Hin He]]]; simpl in Hin;
      repeat (destruct Hin as [<-|Hin]; [discriminate He|]);
      contradiction ] ].

Ltac solve_restores :=
  unfold restores; run; intros _; repeat split; reflexivity.

Lemma storage_cli_info_ok (path : string) (w : World) :
  restores w (storage_cli_info path w) /\ reports w (storage_cli_info path w).
Proof.
  unfold storage_cli_info.
  destruct (String.eqb path STORAGE_INT_PATH_PREFIX).
  { destruct w as [rx st rs hs os lg]. run.
    destruct (svc_fs_info STORAGE_INT_PATH_PREFIX st) as [e [t f]].
    destruct e; run; (split; [solve_restores|solve_reports]). }
  destruct (String.eqb path STORAGE_EXT_PATH_PREFIX).
  { destruct w as [rx st rs hs os lg]. run.
    destruct (svc_sd_info st) as [e sd].
    destruct e; run; (split; [solve_restores|solve_reports]). }
  destruct w as [rx st rs hs os lg]. unfold restores, reports. usage.
  split; [solve_restores|].
  exists ([RecordOpen] ++ usage_events ++ [RecordClose]).
  split; [same_world|].
  assert (Hq : quiet ([RecordOpen] ++ usage_events ++ [RecordClose])).
  { apply quiet_app; [repeat constructor|].
    apply quiet_app; [apply quiet_usage|repeat constructor]. }
  split; [now apply quiet_reported|intros _; reflexivity].
Qed.

Lemma storage_cli_format_spec (path : string) (w : World) :
  storage_cli_format path w
  = if String.eqb path STORAGE_INT_PATH_PREFIX then
      Done tt (emits [error_event FSE_NOT_IMPLEMENTED] w)
    else if String.eqb path STORAGE_EXT_PATH_PREFIX then
      let prompt :=
        Printf
          "Formatting SD card, All data will be lost! Are you sure (y/n)?\r\n"
          [] in
      match cli_rx w with
      | [] => Blocked (emits [prompt] w)
      | answer :: rest =>
          if is_yes answer then
            let '(error, formatted) := svc_sd_format (storage w) in
            Done tt
              (emits
                 [ prompt; CliGetc answer; RecordOpen;
                   Printf "Formatting, please wait...\r\n" [];
                   SdFormat error;
                   if FS_Error_eqb error FSE_OK then
                     Printf "SD card was successfully formatted.\r\n" []
                   else error_event error;
                   RecordClose ]
                 (set_storage formatted (set_cli_rx rest w)))
          else
            Done tt
              (emits [prompt; CliGetc answer; Printf "Cancelled.\r\n" []]
                 (set_cli_rx rest w))
      end
    else Done tt (emits usage_events w).
Proof.
  unfold storage_cli_format.
  destruct (String.eqb path STORAGE_INT_PATH_PREFIX); [reflexivity|].
  destruct (String.eqb path STORAGE_EXT_PATH_PREFIX);
    [|apply storage_cli_print_usage_spec].
  destruct w as [rx st rs hs os lg]. run.
  destruct rx as [|answer rest]; [reflexivity|].
  destruct (is_yes answer); [|same_world].
  destruct (svc_sd_format st) as [error formatted].
  destruct error; run; same_world.
Qed.

Lemma storage_cli_factory_reset_spec (args : string) (w : World) :
  storage_cli_factory_reset args w
  = let prompt :=
      Printf "All data will be lost! Are you sure (y/n)?\r\n" [] in
    match cli_rx w with
    | [] => Blocked (emits [prompt] w)
    | c :: rest =>
        if is_yes c then
          Rebooted
            (emits
               [ prompt; CliGetc c;
                 Printf "Data will be wiped after reboot.\r\n" [];
                 RtcSetFlagFactoryReset; PowerReboot ]
               (set_cli_rx rest w))
        else
          Done tt
            (emits [prompt; CliGetc c; Printf "Safe choice.\r\n" []]
               (set_cli_rx rest w))
    end.
Proof.
  unfold storage_cli_factory_reset.
  destruct w as [rx st rs hs os lg]. run.
  destruct rx as [|c rest]; [reflexivity|].
  destruct (is_yes c); same_world.
Qed.

Lemma storage_cli_format_ok (path : string) (w : World) :
  restores w (storage_cli_format path w)
  /\ reports w (storage_cli_format path w).
Proof.
  rewrite storage_cli_format_spec.
  destruct (String.eqb path STORAGE_INT_PATH_PREFIX).
  { destruct w. split; [solve_restores|solve_reports]. }
  destruct (String.eqb path STORAGE_EXT_PATH_PREFIX).
  { destruct w as [rx st rs hs os lg]. run.
    destruct rx as [|answer rest];
      [split; [intro; discriminate|solve_reports]|].
    destruct (is_yes answer); [|split; [solve_restores|solve_reports]].
    destruct (svc_sd_format st) as [error formatted].
    destruct error; run; (split; [solve_restores|solve_reports]). }
  destruct w. split; [solve_restores|].
  exists usage_events. split; [reflexivity|].
  split; [apply quiet_reported, quiet_usage|intros _; reflexivity].
Qed.

Lemma storage_cli_stat_ok (path : string) (w : World) :
  restores w (storage_cli_stat path w) /\ reports w (storage_cli_stat path w).
Proof.
  unfold storage_cli_stat. destruct w as [rx st rs hs os lg].
  destruct (String.eqb path "/");
    [split; [solve_restores|solve_reports]|].
  destruct (String.eqb path STORAGE_EXT_PATH_PREFIX
            || String.eqb path STORAGE_INT_PATH_PREFIX
            || String.eqb path STORAGE_ANY_PATH_PREFIX).
  - run. destruct (svc_fs_info path st) as [e [t f]].
    destruct e; run; (split; [solve_restores|solve_reports]).
  - run. destruct (svc_stat path st) as [e fileinfo].
    destruct e; run;
      destruct (is_dir fileinfo); (split; [solve_restores|solve_reports]).
Qed.

(** The timestamp handler answers every error code of its storage call
    with one fixed line. *)
Lemma storage_cli_timestamp_spec (path : string) (w : World) :
  storage_cli_timestamp path w
  = let '(error, timestamp) := svc_timestamp path (storage w) in
    Done tt
      (emits
         [ RecordOpen; CommonTimestamp path error;
           if FS_Error_eqb error FSE_OK then
             Printf "Timestamp %lu\r\n" [ArgNum (uint32 timestamp)]
           else Printf "Invalid arguments\r\n" [];
           RecordClose ] w).
Proof.
  unfold storage_cli_timestamp. destruct w as [rx st rs hs os lg]. run.
  destruct (svc_timestamp path st) as [error timestamp].
  destruct error; run; same_world.
Qed.

Lemma storage_cli_timestamp_ok (path : string) (w : World) :
  restores w (storage_cli_timestamp path w).
Proof.
  rewrite storage_cli_timestamp_spec. destruct w as [rx st rs hs os lg].
  run. destruct (svc_timestamp path st). solve_restores.
Qed.

(** copy, rename and migrate when the new path cannot be read. *)
Ltac two_paths_usage :=
  unfold restores, reports; usage; split; [solve_restores|];
  exists ([RecordOpen] ++ usage_events ++ [RecordClose]);
  split; [same_world|];
  split;
  [ apply quiet_reported; apply quiet_app; [repeat constructor|];
    apply quiet_app; [apply quiet_usage|repeat constructor]
  | intros _; reflexivity ].

Lemma storage_cli_copy_ok (old_path args : string) (w : World) :
  restores w (storage_cli_copy old_path args w)
  /\ reports w (storage_cli_copy old_path args w).
Proof.
  unfold storage_cli_copy. destruct w as [rx st rs hs os lg].
  destruct (args_read_probably_quoted_string_and_trim args)
    as [[new_path rest]|]; [|two_paths_usage].
  run. destruct (svc_copy old_path new_path st) as [e st'].
  destruct e; run; (split; [solve_restores|solve_reports]).
Qed.

Lemma storage_cli_rename_ok (old_path args : string) (w : World) :
  restores w (storage_cli_rename old_path args w)
  /\ reports w (storage_cli_rename old_path args w).
Proof.
  unfold storage_cli_rename. destruct w as [rx st rs hs os lg].
  destruct (args_read_probably_quoted_string_and_trim args)
    as [[new_path rest]|]; [|two_paths_usage].
  run. destruct (svc_rename old_path new_path st) as [e st'].
  destruct e; run; (split; [solve_restores|solve_reports]).
Qed.

Lemma storage_cli_migrate_ok (old_path args : string) (w : World) :
  restores w (storage_cli_migrate old_path args w)
  /\ reports w (storage_cli_migrate old_path args w).
Proof.
  unfold storage_cli_migrate. destruct w as [rx st rs hs os lg].
  destruct (args_read_probably_quoted_string_and_trim args)
    as [[new_path rest]|]; [|two_paths_usage].
  run. destruct (svc_migrate old_path new_path st) as [e st'].
  destruct e; run; (split; [solve_restores|solve_reports]).
Qed.

Lemma storage_cli_remove_ok (path : string) (w : World) :
  restores w (storage_cli_remove path w)
  /\ reports w (storage_cli_remove path w).
Proof.
  unfold storage_cli_remove. destruct w as [rx st rs hs os lg]. run.
  destruct (svc_remove path st) as [e st'].
  destruct e; run; (split; [solve_restores|solve_reports]).
Qed.

Lemma storage_cli_mkdir_ok (path : string) (w : World) :
  restores w (storage_cli_mkdir path w)
  /\ reports w (storage_cli_mkdir path w).
Proof.
  unfold storage_cli_mkdir. destruct w as [rx st rs hs os lg]. run.
  destruct (svc_mkdir path st) as [e st'].
  destruct e; run; (split; [solve_restores|solve_reports]).
Qed.

Lemma storage_cli_md5_ok (path : string) (w : World) :
  restores w (storage_cli_md5 path w)
  /\ reports w (storage_cli_md5 path w).
Proof.
  unfold storage_cli_md5. destruct w as [rx st rs hs os lg]. run.
  destruct (svc_md5 path st) as [e|md5].
  - destruct e; run; (split; [solve_restores|solve_reports]).
  - run. split; [solve_restores|solve_reports].
Qed.

(** C10.  Aggregate paths in info and in stat: stat prints a fixed label
    for the root marker and asks the storage for total and free space on
    each of the three prefixes (internal, external, any volume); info
    serves the internal and the external prefix only, and prints the
    usage text for every other path, the any-volume prefix and the root
    marker among them. *)
Theorem info_stat_aggregate_paths (path : string) (w : World) :
  path <> STORAGE_INT_PATH_PREFIX ->
  path <> STORAGE_EXT_PATH_PREFIX ->
  let stat_volume prefix :=
    let '(error, (total_space, free_space)) :=
      svc_fs_info prefix (storage w) in
    Done tt
      (emits [ RecordOpen; CommonFsInfo prefix error;
               if FS_Error_eqb error FSE_OK then
                 Printf "Storage, %luKiB total, %luKiB free\r\n"
                   [ ArgNum (uint32 (total_space / 1024));
                     ArgNum (uint32 (free_space / 1024)) ]
               else error_event error;
               RecordClose ] w) in
  let usage :=
    Done tt (emits ([RecordOpen] ++ usage_events ++ [RecordClose]) w) in
  (* info *)
  storage_cli_info path w = usage
  /\ storage_cli_info STORAGE_ANY_PATH_PREFIX w = usage
  /\ storage_cli_info "/" w = usage
  /\ storage_cli_info STORAGE_INT_PATH_PREFIX w
     = (let '(error, (total_space, free_space)) :=
          svc_fs_info STORAGE_INT_PATH_PREFIX (storage w) in
        Done tt
          (emits [ RecordOpen; CommonFsInfo STORAGE_INT_PATH_PREFIX error;
                   if FS_Error_eqb error FSE_OK then
                     Printf
                       "Label: %s\r\nType: LittleFS\r\n%luKiB total\r\n%luKiB free\r\n"
                       [ ArgStr (match furi_hal_version_get_name_ptr with
                                 | Some n => n
                                 | None => "Unknown"
                                 end);
                         ArgNum (uint32 (total_space / 1024));
                         ArgNum (uint32 (free_space / 1024)) ]
                   else error_event error;
                   RecordClose ] w))
  /\ (exists line,
        storage_cli_info STORAGE_EXT_PATH_PREFIX w
        = Done tt
            (emits [ RecordOpen; SdInfo (fst (svc_sd_info (storage w)));
                     line; RecordClose ] w)
        /\ (FS_Error_eqb (fst (svc_sd_info (storage w))) FSE_OK = false ->
            line = error_event (fst (svc_sd_info (storage w))))
        /\ ~ In line usage_events)
  (* stat *)
  /\ storage_cli_stat "/" w
     = Done tt (emits [RecordOpen; Printf "Storage\r\n" []; RecordClose] w)
  /\ storage_cli_stat STORAGE_INT_PATH_PREFIX w
     = stat_volume STORAGE_INT_PATH_PREFIX
  /\ storage_cli_stat STORAGE_EXT_PATH_PREFIX w
     = stat_volume STORAGE_EXT_PATH_PREFIX
  /\ storage_cli_stat STORAGE_ANY_PATH_PREFIX w
     = stat_volume STORAGE_ANY_PATH_PREFIX.
Proof.
  intros Hint Hext stat_volume usage.
  assert (Husage : forall p,
            String.eqb p STORAGE_INT_PATH_PREFIX = false ->
            String.eqb p STORAGE_EXT_PATH_PREFIX = false ->
            storage_cli_info p w = usage).
  { intros p H1 H2. unfold storage_cli_info. rewrite H1, H2.
    subst usage. destruct w. usage. same_world. }
  assert (Hstat : forall prefix,
            String.eqb prefix "/" = false ->
            String.eqb prefix STORAGE_EXT_PATH_PREFIX
            || String.eqb prefix STORAGE_INT_PATH_PREFIX
            || String.eqb prefix STORAGE_ANY_PATH_PREFIX = true ->
            storage_cli_stat prefix w = stat_volume prefix).
  { intros prefix H1 H2. unfold storage_cli_stat, stat_volume.
    rewrite H1, H2. destruct w as [rx st rs hs os lg]. run.
    destruct (svc_fs_info prefix st) as [error [total_space free_space]].
    destruct error; run; same_world. }
  repeat split.
  - apply Husage; now apply String.eqb_neq.
  - now apply Husage.
  - now apply Husage.
  - unfold storage_cli_info. simpl String.eqb. cbv iota.
    destruct w as [rx st rs hs os lg]. run.
    destruct (svc_fs_info STORAGE_INT_PATH_PREFIX st)
      as [error [total_space free_space]].
    destruct error; run; same_world.
  - unfold storage_cli_info. simpl String.eqb. cbv iota.
    destruct w as [rx st rs hs os lg]. run.
    destruct (svc_sd_info st) as [error sd_info].
    destruct error; run;
      (eexists; split; [same_world|split;
         [intro; (reflexivity || discriminate)
         |unfold usage_events; intro Hin; apply in_map_iff in Hin;
          destruct Hin as [l [Heq Hl]]; discriminate Heq]]).
  - unfold storage_cli_stat. simpl String.eqb. cbv iota.
    destruct w. run. same_world.
  - now apply Hstat.
  - now apply Hstat.
  - now apply Hstat.
Qed.

Lemma is_yes_spec (c : byte) :
  is_yes c = true <-> c = "y"%byte \/ c = "Y"%byte.
Proof.
  unfold is_yes. rewrite orb_true_iff.
  split; (intros [H|H]; [left|right]).
  - now apply Byte.byte_dec_bl in H.
  - now apply Byte.byte_dec_bl in H.
  - subst; reflexivity.
  - subst; reflexivity.
Qed.

(** C4.  Destructive operations wait for a yes: a run of format adds a
    storage format call to the log, and a run of the factory reset sets
    the reset flag or reboots, only when the character read from the
    console is y or Y; with any other character format on the external
    prefix and the factory reset print their cancellation message and
    return, and format leaves the storage as it was on every path. *)
Theorem destruction_needs_yes (path args : string) (w : World) :
  ((exists e, In (SdFormat e) (new_events w (storage_cli_format path w)))
   \/ In RtcSetFlagFactoryReset
        (new_events w (storage_cli_factory_reset args w))
   \/ In PowerReboot (new_events w (storage_cli_factory_reset args w)) ->
   exists c rest,
     cli_rx w = c :: rest /\ (c = "y"%byte \/ c = "Y"%byte))
  /\ (forall c rest,
        cli_rx w = c :: rest -> c <> "y"%byte -> c <> "Y"%byte ->
        storage_cli_format STORAGE_EXT_PATH_PREFIX w
        = Done tt
            (emits
               [ Printf
                   "Formatting SD card, All data will be lost! Are you sure (y/n)?\r\n"
                   [];
                 CliGetc c;
                 Printf "Cancelled.\r\n" [] ]
               (set_cli_rx rest w))
        /\ storage_cli_factory_reset args w
           = Done tt
               (emits
                  [ Printf "All data will be lost! Are you sure (y/n)?\r\n" [];
                    CliGetc c;
                    Printf "Safe choice.\r\n" [] ]
                  (set_cli_rx rest w))
        /\ storage (world_of (storage_cli_format path w)) = storage w).
Proof.
  rewrite !storage_cli_format_spec, storage_cli_factory_reset_spec.
  assert (Hnot : forall c, is_yes c = true -> c = "y"%byte \/ c = "Y"%byte)
    by (intro c; apply is_yes_spec).
  unfold new_events. simpl String.eqb. cbv iota.
  destruct w as [rx st rs hs os lg]. run.
  assert (Hskip : forall evs, skipn (length lg) (lg ++ evs) = evs).
  { intro evs. rewrite skipn_app, skipn_all, Nat.sub_diag. reflexivity. }
  split.
  - intros H.
    destruct rx as [|c rest].
    + exfalso.
      destruct (String.eqb path STORAGE_INT_PATH_PREFIX);
        [|destruct (String.eqb path STORAGE_EXT_PATH_PREFIX)];
        rewrite ?Hskip in H; destruct H as [[e H]|[H|H]];
        simpl in H; try (intuition discriminate);
        apply in_map_iff in H; destruct H as [l [Heq _]]; discriminate.
    + exists c, rest. split; [reflexivity|].
      apply Hnot. destruct (is_yes c); [reflexivity|exfalso].
      destruct (String.eqb path STORAGE_INT_PATH_PREFIX);
        [|destruct (String.eqb path STORAGE_EXT_PATH_PREFIX)];
        rewrite ?Hskip in H; destruct H as [[e H]|[H|H]];
        simpl in H; try (intuition discriminate);
        apply in_map_iff in H; destruct H as [l [Heq _]]; discriminate.
  - intros c rest Hrx Hy HY. subst rx.
    assert (Hyes : is_yes c = false).
    { destruct (is_yes c) eqn:E; [|reflexivity].
      apply is_yes_spec in E. tauto. }
    rewrite Hyes. repeat split.
    destruct (String.eqb path STORAGE_INT_PATH_PREFIX); [reflexivity|].
    destruct (String.eqb path STORAGE_EXT_PATH_PREFIX); reflexivity.
Qed.

Lemma print_entry_spec (entry : DirEntry) (w : World) :
  print_entry entry w = Done tt (emits [entry_event entry] w).
Proof.
  unfold print_entry, entry_event. now destruct (is_dir (info entry)).
Qed.

Lemma storage_cli_tree_loop_spec (entries : list DirEntry) :
  forall (fuel : nat) (dir_walk : DirWalk) (read_done : bool) (w : World),
    dw_rest dir_walk = entries ->
    (length entries < fuel)%nat ->
    exists dir_walk',
      storage_cli_tree_loop fuel dir_walk read_done w
      = Done (match entries with [] => read_done | _ => true end, dir_walk')
          (emits
             (flat_map
                (fun entry => [DirWalkRead DirWalkOK; entry_event entry])
                entries
              ++ [DirWalkRead (last_read (dw_end dir_walk))]) w)
      /\ dw_open dir_walk' = dw_open dir_walk.
Proof.
  induction entries as [|entry entries IH];
    intros fuel dir_walk read_done w Hrest Hfuel;
    (destruct fuel as [|fuel]; [simpl in Hfuel; lia|]).
  - exists dir_walk. split; [|reflexivity].
    simpl. unfold bind, dir_walk_read. rewrite Hrest.
    unfold last_read. now destruct (dw_end dir_walk).
  - simpl in Hfuel.
    destruct (IH fuel
                {| dw_open := dw_open dir_walk; dw_rest := entries;
                   dw_end := dw_end dir_walk; dw_error := FSE_OK |}
                true (emits [DirWalkRead DirWalkOK; entry_event entry] w)
                eq_refl ltac:(lia))
      as [dir_walk' [Hrun Hopen]].
    exists dir_walk'. split; [|exact Hopen].
    simpl storage_cli_tree_loop. unfold bind at 1. unfold dir_walk_read.
    rewrite Hrest. unfold bind at 1. rewrite print_entry_spec.
    unfold emit. rewrite emits_emits. simpl app.
    rewrite Hrun. rewrite emits_emits. simpl.
    now destruct entries.
Qed.

Lemma storage_cli_tree_walk_spec (path : string) (w : World) :
  storage_cli_tree_walk path w
  = Done tt
      (emits
         ([RecordOpen; DirWalkAlloc]
          ++ match svc_walk path (storage w) with
             | inr (entries, last) =>
                 DirWalkOpen path FSE_OK :: walk_events entries last
             | inl error => [DirWalkOpen path error; error_event error]
             end
          ++ [DirWalkFree; RecordClose]) w).
Proof.
  unfold storage_cli_tree_walk.
  destruct w as [rx st rs hs os lg]. run.
  destruct (svc_walk path st) as [error|[entries last]].
  - run. same_world.
  - match goal with
    | |- context [storage_cli_tree_loop ?f ?d ?b ?w0] =>
        destruct (@storage_cli_tree_loop_spec entries f d b w0 eq_refl)
          as [dir_walk' [Hrun Hopen]]; [simpl; lia|rewrite Hrun]
    end.
    destruct dir_walk' as [is_open rest final error].
    simpl in Hopen. subst is_open. unfold walk_events.
    destruct entries as [|entry entries]; run; same_world.
Qed.

Lemma reported_both (a b : list Event) :
  errors_reported a -> errors_reported b -> errors_reported (a ++ b).
Proof.
  induction a as [|ev a IH]; intros Ha Hb; [exact Hb|].
  simpl in *. destruct Ha as [Hev Ha]. split; [|now apply IH].
  destruct (error_of ev); [|exact I].
  destruct Hev as [post ->]. eexists. reflexivity.
Qed.

Lemma quiet_walk_events (entries : list DirEntry) (last : DirWalkResult) :
  quiet (walk_events entries last).
Proof.
  unfold walk_events.
  apply quiet_app; [|apply quiet_app; [repeat constructor|]].
  - induction entries as [|entry entries IH]; [constructor|].
    simpl. constructor; [reflexivity|].
    constructor; [|exact IH].
    unfold entry_event. now destruct (is_dir (info entry)).
  - destruct entries; repeat constructor.
Qed.

Lemma storage_cli_tree_walk_reported (path : string) (s : Storage) :
  errors_reported
    ([RecordOpen; DirWalkAlloc]
     ++ match svc_walk path s with
        | inr (entries, last) =>
            DirWalkOpen path FSE_OK :: walk_events entries last
        | inl error => [DirWalkOpen path error; error_event error]
        end
     ++ [DirWalkFree; RecordClose]).
Proof.
  simpl. split; [exact I|]. split; [exact I|].
  destruct (svc_walk path s) as [error|[entries last]].
  - destruct error; simpl; repeat split; eexists; reflexivity.
  - simpl. split; [exact I|].
    apply reported_app; [apply quiet_walk_events|]. simpl. tauto.
Qed.

Lemma storage_cli_tree_ok (path : string) (w : World) :
  restores w (storage_cli_tree path w) /\ reports w (storage_cli_tree path w).
Proof.
  unfold storage_cli_tree. simpl.
  destruct (String.eqb path "/").
  - unfold bind. rewrite storage_cli_tree_walk_spec. cbv beta iota.
    rewrite storage_cli_tree_walk_spec. rewrite emits_emits.
    split; [destruct w; solve_restores|].
    unfold reports. eexists. split; [reflexivity|].
    split; [|intros _; reflexivity].
    apply reported_both; apply storage_cli_tree_walk_reported.
  - rewrite storage_cli_tree_walk_spec.
    split; [destruct w; solve_restores|].
    unfold reports. eexists. split; [reflexivity|].
    split; [|intros _; reflexivity].
    apply storage_cli_tree_walk_reported.
Qed.

(** C7.  The tree walker: on the root marker it runs once on the internal
    prefix and then once on the external prefix, their outputs in that
    order; on any other path it opens a walker and, when that fails,
    reports the walker's error without a single read; when it succeeds,
    it prints each entry the walker yields and, if there was none, the
    empty line. *)
Theorem storage_cli_tree_spec (path : string) (w : World) :
  path <> "/" ->
  storage_cli_tree "/" w
  = (storage_cli_tree STORAGE_INT_PATH_PREFIX ;;
     storage_cli_tree STORAGE_EXT_PATH_PREFIX) w
  /\ storage_cli_tree path w
     = Done tt
         (emits
            ([RecordOpen; DirWalkAlloc]
             ++ match svc_walk path (storage w) with
                | inr (entries, last) =>
                    DirWalkOpen path FSE_OK
                    :: flat_map
                         (fun entry =>
                            [DirWalkRead DirWalkOK; entry_event entry])
                         entries
                    ++ [DirWalkRead (last_read last)]
                    ++ match entries with
                       | [] => [Printf "\tEmpty\r\n" []]
                       | _ => []
                       end
                | inl error => [DirWalkOpen path error; error_event error]
                end
             ++ [DirWalkFree; RecordClose]) w).
Proof.
  intro Hpath. split; [reflexivity|].
  unfold storage_cli_tree. simpl.
  apply String.eqb_neq in Hpath. rewrite Hpath.
  apply storage_cli_tree_walk_spec.
Qed.

(** ** Calls that keep the resources: the bodies of the loops *)

Lemma keeps_ret {A} (P : A -> Prop) (a : A) : P a -> keeps P (ret a).
Proof.
  intros Ha w. split; [exists []; split; [now rewrite app_nil_r|constructor]|].
  repeat split. intros a' w' H. now injection H as <- _.
Qed.

Lemma keeps_bind {A B} (P : A -> Prop) (Q : B -> Prop) (m : M A)
    (k : A -> M B) :
  keeps P m -> (forall a, P a -> keeps Q (k a)) -> keeps Q (bind m k).
Proof.
  intros Hm Hk w. unfold bind.
  destruct (Hm w) as [[evs [Hlog Hq]] [Hr [Hh [Ho HP]]]].
  destruct (m w) as [a w1|w1|w1|w1]; simpl in *;
    try (split; [exists evs; now split|]; repeat split; try assumption;
         intros; discriminate).
  destruct (Hk a (HP a w1 eq_refl) w1)
    as [[evs' [Hlog' Hq']] [Hr' [Hh' [Ho' HQ]]]].
  split; [exists (evs ++ evs'); split;
            [now rewrite Hlog', Hlog, app_assoc|now apply quiet_app]|].
  repeat split; try congruence. exact HQ.
Qed.

Lemma keeps_weaken {A} (P Q : A -> Prop) (m : M A) :
  (forall a, P a -> Q a) -> keeps P m -> keeps Q m.
Proof.
  intros HPQ Hm w. destruct (Hm w) as [Hl [Hr [Hh [Ho HP]]]].
  repeat split; try assumption. intros a w' H. eauto.
Qed.

(** A primitive that logs one event that carries no error code. *)
Ltac keeps_prim :=
  intro w; split;
  [ eexists; split; [run; reflexivity|repeat constructor]
  | run; repeat split; try reflexivity ].

Lemma keeps_printf (fmt : string) (args : list Arg) :
  keeps (fun _ => True) (printf fmt args).
Proof. keeps_prim. Qed.

Lemma keeps_putchar (c : byte) : keeps (fun _ => True) (putchar c).
Proof. keeps_prim. Qed.

Lemma keeps_print_error (e : FS_Error) :
  keeps (fun _ => True) (storage_cli_print_error e).
Proof. apply keeps_printf. Qed.

Lemma keeps_out_of_fuel {A} (P : A -> Prop) : keeps P out_of_fuel.
Proof.
  intro w. split; [exists []; split; [now rewrite app_nil_r|constructor]|].
  repeat split. intros; discriminate.
Qed.

Lemma keeps_cli_getc : keeps (fun _ => True) cli_getc.
Proof.
  intro w. destruct w as [rx st rs hs os lg]. run.
  destruct rx as [|c rx].
  - split; [exists []; split; [now rewrite app_nil_r|constructor]|].
    repeat split.
  - split; [eexists; split; [reflexivity|repeat constructor]|].
    repeat split.
Qed.

Lemma keeps_cli_read (n : Z) : keeps (fun _ => True) (cli_read n).
Proof. keeps_prim. Qed.

Lemma keeps_storage_file_size (file : File) :
  keeps (fun _ => True) (storage_file_size file).
Proof. keeps_prim. Qed.

Lemma keeps_storage_file_read (file : File) (n : Z) :
  is_open file -> keeps (fun r => is_open (snd r)) (storage_file_read file n).
Proof.
  intros Hopen w. unfold is_open in *. destruct file as [[path|] pos e es];
    [|now elim Hopen].
  split; [eexists; split; [run; reflexivity|repeat constructor]|].
  run. repeat split. intros a w' H. injection H as <- _. discriminate.
Qed.

Lemma keeps_storage_file_write (file : File) (data : list byte) :
  is_open file ->
  keeps (fun r => is_open (snd r)) (storage_file_write file data).
Proof.
  intros Hopen w. unfold is_open in *. destruct file as [[path|] pos e es];
    [|now elim Hopen].
  split; [eexists; split; [run; reflexivity|repeat constructor]|].
  run. repeat split. intros a w' H. injection H as <- _. discriminate.
Qed.

Lemma keeps_for_each {A} (f : A -> M unit) (data : list A) :
  (forall x, keeps (fun _ => True) (f x)) ->
  keeps (fun _ => True) (for_each f data).
Proof.
  intro Hf. induction data as [|x data IH]; simpl.
  - now apply keeps_ret.
  - eapply keeps_bind; [apply Hf|]. intros _ _. exact IH.
Qed.

Lemma keeps_with_world {A} (P : A -> Prop) (k : World -> M A) :
  (forall w, keeps P (k w)) -> keeps P (with_world k).
Proof. intros Hk w. exact (Hk w w). Qed.

Lemma keeps_read_loop (fuel : nat) :
  forall file, is_open file -> keeps is_open (storage_cli_read_loop fuel file).
Proof.
  induction fuel as [|fuel IH]; intros file Hopen; simpl.
  - apply keeps_out_of_fuel.
  - eapply keeps_bind; [now apply keeps_storage_file_read|].
    intros [data file'] Hopen'. simpl in Hopen'.
    eapply keeps_bind;
      [apply keeps_for_each; intro; apply keeps_printf|].
    intros _ _. destruct (0 <? length data)%nat; [now apply IH|].
    now apply keeps_ret.
Qed.

Lemma keeps_read_chunks_loop (fuel : nat) :
  forall file buffer_size file_size,
    is_open file ->
    keeps is_open
      (storage_cli_read_chunks_loop fuel file buffer_size file_size).
Proof.
  induction fuel as [|fuel IH]; intros file buffer_size file_size Hopen;
    simpl.
  - apply keeps_out_of_fuel.
  - destruct (0 <? file_size)%Z; [|now apply keeps_ret].
    eapply keeps_bind; [apply keeps_printf|]. intros _ _.
    eapply keeps_bind; [apply keeps_cli_getc|]. intros _ _.
    eapply keeps_bind; [now apply keeps_storage_file_read|].
    intros [data file'] Hopen'. simpl in Hopen'.
    eapply keeps_bind;
      [apply keeps_for_each; intro; apply keeps_putchar|].
    intros _ _. now apply IH.
Qed.

Lemma keeps_write_loop (fuel : nat) :
  forall file buffer read_index,
    is_open file ->
    keeps is_open (storage_cli_write_loop fuel file buffer read_index).
Proof.
  induction fuel as [|fuel IH]; intros file buffer read_index Hopen; simpl.
  - apply keeps_out_of_fuel.
  - eapply keeps_bind; [apply keeps_cli_getc|]. intros symbol _.
    assert (Hstore :
      keeps is_open
        (printf "%c"
           [ArgChar
              (nth (Z.to_nat (read_index mod 512))
                 (store (Z.to_nat (read_index mod 512)) symbol buffer) x00)] ;;
         if (uint32 (read_index + 1) mod 512 =? 0)%Z then
           ' (written_size, file0) <-
             storage_file_write file
               (firstn (Z.to_nat 512)
                  (store (Z.to_nat (read_index mod 512)) symbol buffer)) ;;
           if negb (written_size =? 512)%Z then
             storage_cli_print_error (storage_file_get_error file0) ;;
             ret file0
           else
             storage_cli_write_loop fuel file0
               (store (Z.to_nat (read_index mod 512)) symbol buffer)
               (uint32 (read_index + 1))
         else
           storage_cli_write_loop fuel file
             (store (Z.to_nat (read_index mod 512)) symbol buffer)
             (uint32 (read_index + 1)))).
    { eapply keeps_bind; [apply keeps_printf|]. intros _ _.
      destruct (uint32 (read_index + 1) mod 512 =? 0)%Z; [|now apply IH].
      eapply keeps_bind; [now apply keeps_storage_file_write|].
      intros [written_size file0] Hopen0. simpl in Hopen0.
      destruct (negb (written_size =? 512)%Z); [|now apply IH].
      eapply keeps_bind; [apply keeps_print_error|].
      intros _ _. now apply keeps_ret. }
    destruct (Byte.eqb symbol CliSymbolAsciiETX); [|exact Hstore].
    destruct (0 <? read_index mod 512)%Z; [|exact Hstore].
    eapply keeps_bind; [now apply keeps_storage_file_write|].
    intros [written_size file0] Hopen0. simpl in Hopen0.
    eapply keeps_bind with (P := fun _ => True).
    + destruct (negb (written_size =? read_index mod 512)%Z);
        [apply keeps_print_error|now apply keeps_ret].
    + intros _ _. now apply keeps_ret.
Qed.

(** ** Handlers with a loop *)

(** Splits on how the loop [m w1] in the goal ended; [H] is its [keeps]
    lemma at [w1]. *)
Ltac loop_cases H file' w' evs Hlog Hq HP :=
  let Hr := fresh "Hr" in
  let Hh := fresh "Hh" in
  let Ho := fresh "Ho" in
  destruct H as [[evs [Hlog Hq]] [Hr [Hh [Ho HP]]]];
  match type of Hlog with
  | log (world_of ?r) = _ =>
      destruct r as [file' w'|w'|w'|w'];
      [ specialize (HP _ _ eq_refl)
      | clear HP | clear HP | clear HP ];
      destruct w'; cbn [world_of log records handles opened] in *; subst
  end.

(** [reports] for a call that stopped short of returning, on a log that
    is quiet from the world [w] on. *)
Lemma reports_quiet {A} (w : World) (r : Result A) (evs : list Event) :
  log (world_of r) = log w ++ evs -> quiet evs -> reports w r.
Proof.
  intros Hlog Hq. exists evs. split; [exact Hlog|].
  split; [now apply quiet_reported|].
  intro H. now elim (quiet_no_error Hq).
Qed.

Ltac quiet_log :=
  repeat (apply quiet_app; [|try assumption]);
  try assumption; repeat constructor.

Lemma storage_cli_read_ok (path : string) (w : World) :
  restores w (storage_cli_read path w) /\ reports w (storage_cli_read path w).
Proof.
  unfold storage_cli_read. destruct w as [rx st rs hs os lg]. run.
  destruct (fault st path) eqn:Hfault;
    try (run; split; [solve_restores|solve_reports]).
  destruct (files st path) as [content|] eqn:Hfile;
    [|run; split; [solve_restores|solve_reports]].
  run.
  match goal with
  | |- context [storage_cli_read_loop ?f ?fl ?w1] =>
      assert (Hopen : is_open fl) by (unfold is_open; simpl; discriminate);
      pose proof (keeps_read_loop f Hopen w1) as H
  end.
  loop_cases H file' w' evs Hlog Hq HP; run;
    try (split; [intro; discriminate|];
         eapply reports_quiet;
         [simpl; rewrite <- !app_assoc; reflexivity|quiet_log]).
  destruct file' as [[p|] pos e es]; [|now elim HP]. run.
  split; [solve_restores|].
  eapply reports_quiet;
    [simpl; rewrite <- !app_assoc; reflexivity|quiet_log].
Qed.

Lemma storage_cli_write_ok (path : string) (w : World) :
  restores w (storage_cli_write path w)
  /\ reports w (storage_cli_write path w).
Proof.
  unfold storage_cli_write. destruct w as [rx st rs hs os lg]. run.
  destruct (fault st path) eqn:Hfault;
    try (run; split; [solve_restores|solve_reports]).
  destruct (files st path) as [content|] eqn:Hfile; run.
  - match goal with
    | |- context [storage_cli_write_loop ?f ?fl ?b ?i ?w1] =>
        assert (Hopen : is_open fl) by (unfold is_open; simpl; discriminate);
        pose proof (keeps_write_loop f b i Hopen w1) as H
    end.
    loop_cases H file' w' evs Hlog Hq HP; run;
      try (split; [intro; discriminate|];
           eapply reports_quiet;
           [simpl; rewrite <- !app_assoc; reflexivity|quiet_log]).
    destruct file' as [[p|] pos e es]; [|now elim HP]. run.
    split; [solve_restores|].
    eapply reports_quiet;
      [simpl; rewrite <- !app_assoc; reflexivity|quiet_log].
  - match goal with
    | |- context [storage_cli_write_loop ?f ?fl ?b ?i ?w1] =>
        assert (Hopen : is_open fl) by (unfold is_open; simpl; discriminate);
        pose proof (keeps_write_loop f b i Hopen w1) as H
    end.
    loop_cases H file' w' evs Hlog Hq HP; run;
      try (split; [intro; discriminate|];
           eapply reports_quiet;
           [simpl; rewrite <- !app_assoc; reflexivity|quiet_log]).
    destruct file' as [[p|] pos e es]; [|now elim HP]. run.
    split; [solve_restores|].
    eapply reports_quiet;
      [simpl; rewrite <- !app_assoc; reflexivity|quiet_log].
Qed.

Lemma usage_ok (w w' : World) (pre post : list Event) :
  log w' = log w ++ pre ++ usage_events ++ post ->
  quiet pre -> quiet post ->
  reports w (Done tt w').
Proof.
  intros Hlog Hpre Hpost. eapply reports_quiet; [exact Hlog|].
  apply quiet_app; [exact Hpre|].
  apply quiet_app; [apply quiet_usage|exact Hpost].
Qed.

Lemma storage_cli_read_chunks_ok (path args : string) (w : World) :
  restores w (storage_cli_read_chunks path args w)
  /\ reports w (storage_cli_read_chunks path args w).
Proof.
  unfold storage_cli_read_chunks. destruct w as [rx st rs hs os lg].
  destruct (sscanf_lu args) as [n|].
  2:{ unfold restores. usage. split; [solve_restores|].
      eapply usage_ok with (pre := [_; _]) (post := [_; _; _]);
        [simpl; same_world|repeat constructor|repeat constructor]. }
  run.
  destruct (fault st path) eqn:Hfault;
    try (run; split; [solve_restores|solve_reports]).
  destruct (files st path) as [content|] eqn:Hfile;
    [|run; split; [solve_restores|solve_reports]].
  run.
  destruct (uint32 n =? 0)%Z; run;
    [split; [solve_restores|solve_reports]|].
  match goal with
  | |- context [storage_cli_read_chunks_loop ?f ?fl ?b ?i ?w1] =>
      assert (Hopen : is_open fl) by (unfold is_open; simpl; discriminate);
      pose proof (keeps_read_chunks_loop f b i Hopen w1) as H
  end.
  loop_cases H file' w' evs Hlog Hq HP; run;
    try (split; [intro; discriminate|];
         eapply reports_quiet;
         [simpl; rewrite <- !app_assoc; reflexivity|quiet_log]).
  destruct file' as [[p|] pos e es]; [|now elim HP]. run.
  split; [solve_restores|].
  eapply reports_quiet;
    [simpl; rewrite <- !app_assoc; reflexivity|quiet_log].
Qed.

Lemma storage_cli_write_chunk_ok (path args : string) (w : World) :
  restores w (storage_cli_write_chunk path args w)
  /\ reports w (storage_cli_write_chunk path args w).
Proof.
  unfold storage_cli_write_chunk. destruct w as [rx st rs hs os lg].
  destruct (sscanf_lu args) as [n|].
  2:{ unfold restores. usage. split; [solve_restores|].
      eapply usage_ok with (pre := [_; _]) (post := [_; _]);
        [simpl; same_world|repeat constructor|repeat constructor]. }
  run.
  destruct (fault st path) eqn:Hfault;
    try (run; split; [solve_restores|solve_reports]).
  destruct (files st path) as [content|] eqn:Hfile; run;
    (destruct (uint32 n =? 0)%Z; run;
     [split; [solve_restores|solve_reports]|]);
    match goal with
    | |- context [(?a =? uint32 n)%Z] => destruct (a =? uint32 n)%Z
    end; run; (split; [solve_restores|solve_reports]).
Qed.

Lemma keeps_storage_dir_read (file : File) :
  is_open file -> keeps (fun r => is_open (snd r)) (storage_dir_read file).
Proof.
  intros Hopen w. unfold is_open in *.
  destruct file as [[path|] pos e [|entry entries]]; try now elim Hopen.
  - split; [eexists; split; [run; reflexivity|repeat constructor]|].
    run. repeat split. intros a w' H. injection H as <- _. discriminate.
  - split; [eexists; split; [run; reflexivity|repeat constructor]|].
    run. repeat split. intros a w' H. injection H as <- _. discriminate.
Qed.

Lemma keeps_print_entry (entry : DirEntry) :
  keeps (fun _ => True) (print_entry entry).
Proof.
  unfold print_entry. destruct (is_dir (info entry)); apply keeps_printf.
Qed.

Lemma keeps_list_loop (fuel : nat) :
  forall file read_done,
    is_open file ->
    keeps (fun r => is_open (snd r))
      (storage_cli_list_loop fuel file read_done).
Proof.
  induction fuel as [|fuel IH]; intros file read_done Hopen; simpl.
  - apply keeps_out_of_fuel.
  - eapply keeps_bind; [now apply keeps_storage_dir_read|].
    intros [[entry|] file'] Hopen'; simpl in Hopen'.
    + eapply keeps_bind; [apply keeps_print_entry|].
      intros _ _. now apply IH.
    + now apply keeps_ret.
Qed.

Lemma storage_cli_list_ok (path : string) (w : World) :
  restores w (storage_cli_list path w) /\ reports w (storage_cli_list path w).
Proof.
  unfold storage_cli_list. destruct w as [rx st rs hs os lg].
  destruct (String.eqb path "/");
    [split; [solve_restores|solve_reports]|].
  run.
  destruct (svc_dir path st) as [e|entries] eqn:Hdir.
  { destruct e; run; (split; [solve_restores|solve_reports]). }
  run.
  match goal with
  | |- context [storage_cli_list_loop ?f ?fl ?b ?w1] =>
      assert (Hopen : is_open fl) by (unfold is_open; simpl; discriminate);
      pose proof (keeps_list_loop f b Hopen w1) as H
  end.
  loop_cases H file' w' evs Hlog Hq HP; run;
    try (split; [intro; discriminate|];
         eapply reports_quiet;
         [simpl; rewrite <- !app_assoc; reflexivity|quiet_log]).
  destruct file' as [read_done [[p|] pos e es]]; [|now elim HP].
  destruct read_done; run;
    (split; [solve_restores|];
     eapply reports_quiet;
     [simpl; rewrite <- !app_assoc; reflexivity|quiet_log]).
Qed.

(** ** Every handler of the table *)

Lemma table_restores (verb : string) (handler : string -> string -> M unit)
    (path args : string) (w : World) :
  In (verb, handler) command_table -> restores w (handler path args w).
Proof.
  unfold command_table. simpl. intro Hin.
  repeat (destruct Hin as [Heq|Hin]; [injection Heq as <- <-|]);
    try contradiction.
  - apply storage_cli_info_ok.
  - apply storage_cli_format_ok.
  - apply storage_cli_list_ok.
  - apply storage_cli_tree_ok.
  - apply storage_cli_read_ok.
  - apply storage_cli_read_chunks_ok.
  - apply storage_cli_write_ok.
  - apply storage_cli_write_chunk_ok.
  - apply storage_cli_copy_ok.
  - apply storage_cli_remove_ok.
  - apply storage_cli_rename_ok.
  - apply storage_cli_migrate_ok.
  - apply storage_cli_mkdir_ok.
  - apply storage_cli_md5_ok.
  - apply storage_cli_stat_ok.
  - apply storage_cli_timestamp_ok.
Qed.


Lemma first_match_in (cmd : string) (entry : string * (string -> string -> M unit)) :
  first_match cmd = Some entry -> In entry command_table /\ fst entry = cmd.
Proof.
  unfold first_match. intro H. apply find_some in H.
  destruct H as [Hin Heq]. split; [exact Hin|].
  apply String.eqb_eq in Heq. now symmetry.
Qed.

(** C9.  Handle release: when a handler of the table returns, or the
    dispatcher does, the world holds as many references to the storage
    record, as many handle objects and as many open handles as when the
    call began: what the handler took, opened or allocated it has given
    back, whether it succeeded, stopped at its arguments or met a storage
    error. *)
Theorem handles_released (verb : string)
    (handler : string -> string -> M unit) (path args line : string)
    (w w' : World) :
  (In (verb, handler) command_table /\ handler path args w = Done tt w')
  \/ storage_cli line w = Done tt w' ->
  records w' = records w /\ handles w' = handles w /\ opened w' = opened w.
Proof.
  intros [[Hin Hrun]|Hrun].
  - pose proof (table_restores path args w Hin) as H.
    rewrite Hrun in H. now apply H.
  - rewrite storage_cli_unfold in Hrun.
    destruct (read_command line) as [[[cmd p] rest]|];
      [|injection Hrun as <-; now repeat split].
    destruct (first_match cmd) as [[v h]|] eqn:Hm;
      [|injection Hrun as <-; now repeat split].
    apply first_match_in in Hm. destruct Hm as [Hin _].
    pose proof (table_restores p rest w Hin) as H.
    rewrite Hrun in H. now apply H.
Qed.

(** ** The chunk protocols *)

Lemma files_put_same (path : string) (content : list byte) (room : nat)
    (s : Storage) :
  files (put_file path content room s) path = Some content.
Proof. simpl. now rewrite String.eqb_refl. Qed.

Lemma space_put (path : string) (content : list byte) (room : nat)
    (s : Storage) :
  space (put_file path content room s) = room.
Proof. reflexivity. Qed.

Lemma append_at_end {A} (old put : list A) :
  firstn (length old) old ++ put ++ skipn (length old + length put) old
  = old ++ put.
Proof.
  rewrite firstn_all, skipn_all2 by lia. now rewrite app_nil_r.
Qed.

(** C5.  The error flag of write_chunk: with a chunk size that scans and
    is not zero and a file that opens, the handler reads at most the
    requested number of bytes from the console, appends to the file those
    of them the storage takes, and prints an error line exactly when the
    number of bytes written differs from the requested size; so when the
    console gives fewer bytes than requested and all of them are written,
    the error line is printed all the same. *)
Theorem write_chunk_error_flag (path args : string) (n : Z) (w : World) :
  sscanf_lu args = Some n ->
  uint32 n <> 0%Z ->
  fault (storage w) path = FSE_OK ->
  let requested := uint32 n in
  let old := match files (storage w) path with Some c => c | None => [] end in
  let read_bytes := firstn (Z.to_nat requested) (cli_rx w) in
  let written := firstn (space (storage w)) read_bytes in
  let written_size := Z.of_nat (length written) in
  let error_line :=
    error_event
      (if (length written <? length read_bytes)%nat then FSE_INTERNAL
       else FSE_OK) in
  let flag := if (written_size =? requested)%Z then [] else [error_line] in
  exists w',
    storage_cli_write_chunk path args w = Done tt w'
    /\ log w'
       = log w
         ++ [ RecordOpen; FileAlloc;
              FileOpen path FSAM_WRITE FSOM_OPEN_APPEND FSE_OK;
              Printf "Ready\r\n" [];
              CliRead requested read_bytes;
              FileWrite read_bytes written_size ]
         ++ flag ++ [FileClose true; FileFree; RecordClose]
    /\ files (storage w') path = Some (old ++ written)
    /\ cli_rx w' = skipn (Z.to_nat requested) (cli_rx w)
    /\ (flag = [error_line] <-> written_size <> requested)
    /\ ((Z.of_nat (length (cli_rx w)) < requested)%Z ->
        (length (cli_rx w) <= space (storage w))%nat ->
        read_bytes = cli_rx w /\ written = read_bytes
        /\ flag = [error_line]).
Proof.
  intros Hscan Hn Hfault requested old read_bytes written written_size
    error_line flag.
  assert (Hflag : flag = [error_line] <-> written_size <> requested).
  { subst flag. destruct (written_size =? requested)%Z eqn:E.
    - apply Z.eqb_eq in E. split; [discriminate|tauto].
    - apply Z.eqb_neq in E. tauto. }
  assert (Hshort : (Z.of_nat (length (cli_rx w)) < requested)%Z ->
                   (length (cli_rx w) <= space (storage w))%nat ->
                   read_bytes = cli_rx w /\ written = read_bytes
                   /\ flag = [error_line]).
  { intros Hlt Hroom.
    assert (Hread : read_bytes = cli_rx w)
      by (subst read_bytes; apply firstn_all2; lia).
    assert (Hwritten : written = read_bytes)
      by (subst written; rewrite Hread; apply firstn_all2; lia).
    repeat split; try assumption.
    apply Hflag. subst written_size. rewrite Hwritten, Hread. lia. }
  unfold storage_cli_write_chunk. rewrite Hscan.
  destruct w as [rx st rs hs os lg].
  cbn [cli_rx storage log] in *. run. rewrite Hfault.
  pose proof Hn as Hn'. apply Z.eqb_neq in Hn'. fold requested in Hn'.
  destruct (files st path) as [content|] eqn:Hold;
    repeat (progress (run; rewrite ?files_put_same, ?space_put, ?Hold));
    fold requested; rewrite Hn';
    repeat (progress (run; rewrite ?files_put_same, ?space_put, ?Hold));
    fold read_bytes; cbn [length] in *;
    fold written; fold written_size;
    subst flag; destruct (written_size =? requested)%Z; run;
    (eexists; split; [reflexivity|]; cbn [log storage cli_rx];
     split; [same_world|];
     split; [rewrite files_put_same; f_equal; subst old;
             first [apply append_at_end|exact (append_at_end [] written)]|];
     split; [reflexivity|]; split; assumption).
Qed.

Lemma chunks_fuel_enough (n : nat) :
  (0 < n)%nat ->
  forall fuel1 fuel2 data,
    (length data <= fuel1)%nat -> (length data <= fuel2)%nat ->
    chunks_fuel fuel1 n data = chunks_fuel fuel2 n data.
Proof.
  intro Hn. induction fuel1 as [|fuel1 IH]; intros fuel2 data H1 H2.
  - destruct data; [|simpl in H1; lia]. now destruct fuel2.
  - destruct fuel2 as [|fuel2].
    + destruct data; [reflexivity|simpl in H2; lia].
    + destruct data as [|x data]; [reflexivity|].
      simpl chunks_fuel. f_equal.
      assert (Hlen : (length (skipn n (x :: data)) <= length data)%nat)
        by (rewrite length_skipn; cbn [length]; lia).
      simpl in H1, H2. apply IH; lia.
Qed.

Lemma chunks_cons (n : nat) (x : byte) (data : list byte) :
  (0 < n)%nat ->
  chunks n (x :: data)
  = firstn n (x :: data) :: chunks n (skipn n (x :: data)).
Proof.
  intro Hn. unfold chunks.
  assert (Hlen : (length (skipn n (x :: data)) <= length data)%nat)
    by (rewrite length_skipn; cbn [length]; lia).
  cbn [length chunks_fuel]. f_equal.
  apply chunks_fuel_enough; [exact Hn|exact Hlen|apply Nat.le_refl].
Qed.

Lemma chunks_concat (n : nat) :
  (0 < n)%nat -> forall data, concat (chunks n data) = data.
Proof.
  intro Hn.
  assert (H : forall len data, length data = len ->
                               concat (chunks n data) = data).
  { induction len as [len IH] using lt_wf_ind. intros data Hlen.
    destruct data as [|x data]; [reflexivity|].
    rewrite chunks_cons by exact Hn. simpl concat.
    rewrite (IH (length (skipn n (x :: data)))); [apply firstn_skipn| |reflexivity].
    rewrite length_skipn. cbn [length] in *. lia. }
  intro data. now apply (H (length data)).
Qed.

(** The number of blocks is the length divided by the block size,
    rounded up. *)
Lemma chunks_length (n : nat) :
  (0 < n)%nat ->
  forall data,
    Z.of_nat (length (chunks n data))
    = ((Z.of_nat (length data) + Z.of_nat n - 1) / Z.of_nat n)%Z.
Proof.
  intro Hn.
  assert (H : forall len data,
            length data = len ->
            Z.of_nat (length (chunks n data))
            = ((Z.of_nat len + Z.of_nat n - 1) / Z.of_nat n)%Z).
  { induction len as [len IH] using lt_wf_ind. intros data Hlen.
    destruct data as [|x data].
    - simpl in Hlen. subst len. simpl.
      symmetry. apply Z.div_small. lia.
    - rewrite chunks_cons by exact Hn.
      cbn [length]. rewrite Nat2Z.inj_succ.
      rewrite (IH (length (skipn n (x :: data))));
        [| rewrite length_skipn; cbn [length] in *; lia | reflexivity].
      rewrite length_skipn. rewrite Hlen.
      destruct (le_lt_dec n len) as [Hle|Hlt].
      + replace (Z.of_nat len + Z.of_nat n - 1)%Z
          with ((Z.of_nat (len - n) + Z.of_nat n - 1) + 1 * Z.of_nat n)%Z
          by lia.
        rewrite Z.div_add by lia. lia.
      + replace (len - n)%nat with 0%nat by lia.
        replace (Z.of_nat len + Z.of_nat n - 1)%Z
          with ((Z.of_nat len - 1) + 1 * Z.of_nat n)%Z by lia.
        rewrite Z.div_add by lia.
        rewrite !Z.div_small; cbn [length] in Hlen; lia. }
  intro data. now apply (H (length data)).
Qed.

Lemma for_each_putchar (data : list byte) (w : World) :
  for_each putchar data w = Done tt (emits (map Putchar data) w).
Proof.
  revert w; induction data as [|c data IH]; intro w; simpl.
  - unfold ret. now rewrite emits_nil.
  - unfold bind, putchar, emit. rewrite IH, emits_emits. reflexivity.
Qed.

Lemma skipn_block {A} (n pos : nat) (content : list A) :
  skipn (pos + length (firstn n (skipn pos content))) content
  = skipn n (skipn pos content).
Proof.
  rewrite skipn_skipn, length_firstn, length_skipn.
  destruct (le_lt_dec n (length content - pos)) as [Hle|Hlt].
  - f_equal. lia.
  - rewrite !skipn_all2; [reflexivity|lia|lia].
Qed.

Lemma read_chunks_loop_spec (path : string) (content : list byte)
    (buffer_size : Z) :
  (0 < buffer_size)%Z ->
  (Z.of_nat (length content) < 2 ^ 64)%Z ->
  forall (acks : list byte) (pos fuel : nat) (w : World) (rest : list byte)
         (e : FS_Error) (es : list DirEntry),
    files (storage w) path = Some content ->
    cli_rx w = acks ++ rest ->
    length acks = length (chunks (Z.to_nat buffer_size) (skipn pos content)) ->
    (length acks < fuel)%nat ->
    exists file',
      storage_cli_read_chunks_loop fuel
        {| f_open := Some path; f_pos := pos; f_error := e; f_entries := es |}
        buffer_size (Z.of_nat (length (skipn pos content))) w
      = Done file'
          (emits
             (transfer_events buffer_size acks
                (chunks (Z.to_nat buffer_size) (skipn pos content)))
             (set_cli_rx rest w))
      /\ f_open file' = Some path.
Proof.
  intros Hbs Hsize.
  assert (Hn : (0 < Z.to_nat buffer_size)%nat) by lia.
  induction acks as [|ack acks IH];
    intros pos fuel w rest e es Hfiles Hrx Hlen Hfuel;
    (destruct fuel as [|fuel]; [simpl in Hfuel; lia|]).
  - destruct (skipn pos content) as [|x data] eqn:Hrem;
      [|rewrite chunks_cons in Hlen by exact Hn; discriminate].
    exists {| f_open := Some path; f_pos := pos; f_error := e;
              f_entries := es |}.
    split; [|reflexivity].
    simpl. unfold ret. f_equal. destruct w; simpl in *. subst.
    unfold emits, set_cli_rx; simpl. now rewrite app_nil_r.
  - destruct (skipn pos content) as [|x data] eqn:Hrem; [discriminate|].
    rewrite chunks_cons in * by exact Hn.
    rewrite <- Hrem in *.
    cbn [storage_cli_read_chunks_loop].
    replace (0 <? Z.of_nat (length (skipn pos content)))%Z with true
      by (symmetry; apply Z.ltb_lt; rewrite Hrem; cbn [length]; lia).
    destruct w as [rx st rs hs os lg]. cbn [cli_rx storage] in *. subst rx.
    cbn [app]. run. rewrite Hfiles. run. rewrite for_each_putchar. run.
    set (block := firstn (Z.to_nat buffer_size) (skipn pos content)) in *.
    assert (Hsize' :
      uint64 (Z.of_nat (length (skipn pos content)) - Z.of_nat (length block))
      = Z.of_nat (length (skipn (pos + length block) content))).
    { subst block. rewrite skipn_block.
      rewrite length_skipn, length_firstn, !length_skipn.
      unfold uint64. rewrite Z.mod_small; lia. }
    rewrite Hsize'.
    match goal with
    | |- context [storage_cli_read_chunks_loop fuel ?f _ _ ?w2] =>
        destruct (IH (pos + length block)%nat fuel w2 rest FSE_OK []
                    Hfiles eq_refl) as [file' [Hrun Hopen]]
    end.
    { subst block. rewrite skipn_block. simpl in Hlen. lia. }
    { simpl in Hfuel. lia. }
    exists file'. split; [|exact Hopen].
    rewrite Hrun. subst block. rewrite skipn_block. run.
    unfold transfer_events, chunk_events. cbn [combine flat_map fst snd].
    same_world.
Qed.

Lemma put_out_app (a b : list Event) : put_out (a ++ b) = put_out a ++ put_out b.
Proof. unfold put_out. apply flat_map_app. Qed.

Lemma put_out_putchars (data : list byte) : put_out (map Putchar data) = data.
Proof.
  induction data as [|c data IH]; [reflexivity|].
  simpl. now rewrite IH.
Qed.

Lemma put_out_transfer (buffer_size : Z) (blocks : list (list byte)) :
  forall acks,
    length acks = length blocks ->
    put_out (transfer_events buffer_size acks blocks) = concat blocks.
Proof.
  induction blocks as [|block blocks IH]; intros [|ack acks] Hlen;
    try discriminate; [reflexivity|].
  unfold transfer_events. cbn [combine flat_map fst snd concat].
  rewrite put_out_app. unfold chunk_events. rewrite put_out_app.
  rewrite put_out_putchars. simpl put_out at 1. cbn [app].
  f_equal. apply IH. simpl in Hlen. lia.
Qed.

(** C2, amended.  Read in chunks: with a chunk size that scans and a file
    of length L that opens, the handler prints the size first; for a
    chunk size of zero it then prints only the closing line, whatever L
    is, and reads nothing from the console or the file; for a chunk size
    n > 0 it makes ceil(L/n) rounds, each taking one character from the
    console, reading the next block of at most n bytes and putting out
    the bytes read, so that the bytes put out are the file's L bytes in
    order. *)
Theorem read_chunks_transfer (path args : string) (n : Z) (w : World)
    (content acks rest : list byte) :
  sscanf_lu args = Some n ->
  fault (storage w) path = FSE_OK ->
  files (storage w) path = Some content ->
  (Z.of_nat (length content) < 2 ^ 64)%Z ->
  let buffer_size := uint32 n in
  let L := Z.of_nat (length content) in
  let blocks := chunks (Z.to_nat buffer_size) content in
  let header :=
    [ RecordOpen; FileAlloc;
      FileOpen path FSAM_READ FSOM_OPEN_EXISTING FSE_OK;
      FileSize L; Printf "Size: %llu\r\n" [ArgNum L] ] in
  let footer := [Printf "\r\n" []; FileClose true; FileFree; RecordClose] in
  (buffer_size = 0%Z ->
   storage_cli_read_chunks path args w = Done tt (emits (header ++ footer) w)
   /\ put_out (header ++ footer) = [])
  /\ ((0 < buffer_size)%Z ->
      cli_rx w = acks ++ rest ->
      length acks = length blocks ->
      storage_cli_read_chunks path args w
      = Done tt
          (emits (header ++ transfer_events buffer_size acks blocks ++ footer)
             (set_cli_rx rest w))
      /\ put_out (header ++ transfer_events buffer_size acks blocks ++ footer)
         = content
      /\ concat blocks = content
      /\ Z.of_nat (length blocks) = ((L + buffer_size - 1) / buffer_size)%Z).
Proof.
  intros Hscan Hfault Hfiles Hsize buffer_size L blocks header footer.
  assert (HL : uint64 L = L).
  { unfold uint64. apply Z.mod_small. subst L. lia. }
  split.
  - intro Hzero. split; [|reflexivity].
    unfold storage_cli_read_chunks. rewrite Hscan.
    destruct w as [rx st rs hs os lg]. cbn [storage] in *.
    run. rewrite Hfault, Hfiles. run. rewrite Hfiles. run.
    fold buffer_size.
    replace (buffer_size =? 0)%Z with true
      by (symmetry; apply Z.eqb_eq; exact Hzero).
    run. subst header footer. fold L. rewrite HL. same_world.
  - intros Hpos Hrx Hlen.
    assert (Hn : (0 < Z.to_nat buffer_size)%nat) by lia.
    repeat split.
    + unfold storage_cli_read_chunks. rewrite Hscan.
      destruct w as [rx st rs hs os lg]. cbn [storage cli_rx] in *.
      run. rewrite Hfault, Hfiles. run. rewrite Hfiles. run.
      fold buffer_size.
      replace (buffer_size =? 0)%Z with false
        by (symmetry; apply Z.eqb_neq; lia).
      run. fold L. rewrite HL.
      match goal with
      | |- context [storage_cli_read_chunks_loop ?f ?fl _ _ ?w1] =>
          destruct (@read_chunks_loop_spec path content buffer_size Hpos
                      Hsize acks 0%nat f w1 rest FSE_OK [] Hfiles Hrx)
            as [file' [Hrun Hopen]]
      end.
      { exact Hlen. }
      { subst rx. rewrite length_app. lia. }
      cbn [skipn] in Hrun. fold L in Hrun. rewrite Hrun.
      destruct file' as [[p|] pos e es]; [|discriminate]. run.
      subst header footer. fold blocks. same_world.
    + rewrite !put_out_app. rewrite put_out_transfer by exact Hlen.
      subst blocks. rewrite chunks_concat by exact Hn.
      simpl. apply app_nil_r.
    + subst blocks. now apply chunks_concat.
    + subst blocks L. rewrite chunks_length by exact Hn.
      rewrite Z2Nat.id by lia. reflexivity.
Qed.

(** ** Write until cancel *)

Lemma length_store {A} (x : A) (buffer : list A) :
  forall i, length (store i x buffer) = length buffer.
Proof.
  induction buffer as [|y buffer IH]; intros [|i]; simpl; auto.
Qed.

Lemma nth_store {A} (x d : A) (buffer : list A) :
  forall i, (i < length buffer)%nat -> nth i (store i x buffer) d = x.
Proof.
  induction buffer as [|y buffer IH]; intros [|i] Hi; simpl in *;
    try lia; auto. apply IH. lia.
Qed.

Lemma firstn_store {A} (x : A) (buffer : list A) :
  forall i,
    (i < length buffer)%nat ->
    firstn (S i) (store i x buffer) = firstn i buffer ++ [x].
Proof.
  induction buffer as [|y buffer IH]; intros [|i] Hi; simpl in *;
    try lia; auto. f_equal. apply IH. lia.
Qed.

Lemma uint32_mod_512 (z : Z) : (uint32 z mod 512 = z mod 512)%Z.
Proof.
  unfold uint32. apply Z.mod_mod_divide.
  exists (2 ^ 23)%Z. reflexivity.
Qed.

Lemma next_index (read_index : Z) :
  (uint32 (read_index + 1) mod 512
   = if read_index mod 512 =? 511 then 0 else read_index mod 512 + 1)%Z.
Proof.
  rewrite uint32_mod_512.
  pose proof (Z.mod_pos_bound read_index 512 ltac:(lia)) as Hb.
  destruct (read_index mod 512 =? 511)%Z eqn:E.
  - apply Z.eqb_eq in E.
    rewrite <- Zplus_mod_idemp_l, E. reflexivity.
  - apply Z.eqb_neq in E.
    rewrite <- Zplus_mod_idemp_l. apply Z.mod_small. lia.
Qed.

Lemma if_nested {A} (a b : bool) (x y : A) :
  a && b = false -> (if a then if b then x else y else y) = y.
Proof. now destruct a, b. Qed.

Lemma write_loop_step (path : string) (symbol : byte) (fuel : nat)
    (file : File) (buffer : list byte) (read_index : Z) (w : World)
    (rest content : list byte) :
  cli_rx w = symbol :: rest ->
  symbol <> CliSymbolAsciiETX \/ (read_index mod 512 = 0)%Z ->
  length buffer = 512%nat ->
  f_open file = Some path ->
  f_pos file = length content ->
  files (storage w) path = Some content ->
  (512 <= space (storage w))%nat ->
  exists file' w' content',
    storage_cli_write_loop (S fuel) file buffer read_index w
    = storage_cli_write_loop fuel file'
        (store (Z.to_nat (read_index mod 512)) symbol buffer)
        (uint32 (read_index + 1)) w'
    /\ cli_rx w' = rest
    /\ f_open file' = Some path
    /\ f_pos file' = length content'
    /\ files (storage w') path = Some content'
    /\ content'
         ++ firstn (Z.to_nat (uint32 (read_index + 1) mod 512))
              (store (Z.to_nat (read_index mod 512)) symbol buffer)
       = content ++ firstn (Z.to_nat (read_index mod 512)) buffer ++ [symbol]
    /\ (space (storage w') + length content'
        = space (storage w) + length content)%nat
    /\ records w' = records w /\ handles w' = handles w
    /\ opened w' = opened w.
Proof.
  intros Hrx Hsym Hbuf Hopen Hpos Hfiles Hroom.
  pose proof (Z.mod_pos_bound read_index 512 ltac:(lia)) as Hb.
  assert (Hi : (Z.to_nat (read_index mod 512) < 512)%nat) by lia.
  cbn [storage_cli_write_loop]. unfold bind at 1. unfold cli_getc.
  rewrite Hrx. cbv beta iota.
  rewrite if_nested.
  2:{ destruct Hsym as [Hne|Hz].
      - destruct (Byte.eqb symbol CliSymbolAsciiETX) eqn:E; [|reflexivity].
        apply Byte.byte_dec_bl in E. contradiction.
      - rewrite Hz. apply andb_false_r. }
  rewrite next_index.
  destruct w as [rx st rs hs os lg]. destruct file as [fo pos e es].
  cbn [cli_rx storage f_open f_pos] in *. subst rx fo pos.
  destruct (read_index mod 512 =? 511)%Z eqn:Hlast.
  - apply Z.eqb_eq in Hlast. rewrite Hlast in *.
    change (0 =? 0)%Z with true. cbv iota.
    set (buffer' := store (Z.to_nat 511) symbol buffer) in *.
    assert (Hfull : firstn (space st) (firstn (Z.to_nat 512) buffer')
                    = buffer').
    { rewrite (@firstn_all2 _ (Z.to_nat 512) buffer');
        [|subst buffer'; rewrite length_store; lia].
      apply firstn_all2. subst buffer'. rewrite length_store. lia. }
    run. rewrite Hfiles. run. rewrite !Hfull. rewrite !append_at_end.
    assert (Hlen : length buffer' = 512%nat)
      by (subst buffer'; now rewrite length_store).
    rewrite !Hlen. change (Z.of_nat 512 =? 512)%Z with true. run.
    eexists. eexists. exists (content ++ buffer').
    split; [reflexivity|]. cbn [cli_rx storage f_open f_pos].
    rewrite files_put_same, space_put.
    repeat split; try reflexivity.
    + now rewrite length_app, Hlen.
    + change (Z.to_nat 0) with 0%nat. cbn [firstn]. rewrite app_nil_r.
      f_equal. subst buffer'.
      rewrite <- (@firstn_all2 _ 512 (store (Z.to_nat 511) symbol buffer))
        at 1 by (rewrite length_store; lia).
      change 512%nat with (S (Z.to_nat 511)).
      apply firstn_store. lia.
    + rewrite length_app, Hlen. lia.
  - apply Z.eqb_neq in Hlast.
    replace (read_index mod 512 + 1 =? 0)%Z with false
      by (symmetry; apply Z.eqb_neq; lia).
    run.
    eexists. eexists. exists content.
    split; [reflexivity|]. cbn [cli_rx storage f_open f_pos].
    repeat split; try reflexivity; try assumption.
    f_equal.
    replace (Z.to_nat (read_index mod 512 + 1))
      with (S (Z.to_nat (read_index mod 512))) by lia.
    apply firstn_store. lia.
Qed.

Lemma length_pending (buffer : list byte) (read_index : Z) :
  length buffer = 512%nat ->
  length (firstn (Z.to_nat (read_index mod 512)) buffer)
  = Z.to_nat (read_index mod 512).
Proof.
  intro Hbuf. pose proof (Z.mod_pos_bound read_index 512 ltac:(lia)).
  rewrite length_firstn. lia.
Qed.

(** The loop takes symbols that do not cancel one after the other: what
    is in the file and what is pending in the buffer grows by them. *)
Lemma write_loop_symbols (path : string) :
  forall (symbols : list byte) (fuel : nat) (file : File)
         (buffer : list byte) (read_index : Z) (w : World)
         (rest content : list byte),
    cli_rx w = symbols ++ rest ->
    Forall (fun symbol => symbol <> CliSymbolAsciiETX) symbols ->
    length buffer = 512%nat ->
    f_open file = Some path ->
    f_pos file = length content ->
    files (storage w) path = Some content ->
    (Z.to_nat (read_index mod 512) + length symbols + 512
     <= space (storage w))%nat ->
    exists file' buffer' read_index' w' content',
      storage_cli_write_loop (length symbols + fuel) file buffer read_index w
      = storage_cli_write_loop fuel file' buffer' read_index' w'
      /\ (read_index' mod 512
          = (read_index + Z.of_nat (length symbols)) mod 512)%Z
      /\ cli_rx w' = rest
      /\ length buffer' = 512%nat
      /\ f_open file' = Some path
      /\ f_pos file' = length content'
      /\ files (storage w') path = Some content'
      /\ content' ++ firstn (Z.to_nat (read_index' mod 512)) buffer'
         = content ++ firstn (Z.to_nat (read_index mod 512)) buffer
           ++ symbols
      /\ (Z.to_nat (read_index' mod 512) + 512 <= space (storage w'))%nat
      /\ records w' = records w /\ handles w' = handles w
      /\ opened w' = opened w.
Proof.
  induction symbols as [|symbol symbols IH];
    intros fuel file buffer read_index w rest content Hrx Hsym Hbuf Hopen
      Hpos Hfiles Hroom.
  - exists file, buffer, read_index, w, content.
    cbn [length app Nat.add] in *. rewrite Z.add_0_r, app_nil_r.
    repeat split; try assumption; try reflexivity. lia.
  - inversion Hsym as [|? ? Hne Hsym']; subst.
    cbn [length app] in *.
    destruct (@write_loop_step path symbol (length symbols + fuel) file
                buffer read_index w (symbols ++ rest) content Hrx
                (or_introl Hne) Hbuf Hopen Hpos Hfiles ltac:(lia))
      as [file1 [w1 [content1 [Hstep [Hrx1 [Hopen1 [Hpos1 [Hfiles1
           [Hdata1 [Hspace1 [Hr1 [Hh1 Ho1]]]]]]]]]]]].
    pose proof (f_equal (@length byte) Hdata1) as Hlen1.
    rewrite !length_app, !length_pending in Hlen1
      by (rewrite ?length_store; exact Hbuf).
    cbn [length] in Hlen1.
    destruct (IH fuel file1
                (store (Z.to_nat (read_index mod 512)) symbol buffer)
                (uint32 (read_index + 1)) w1 rest content1 Hrx1 Hsym')
      as [file' [buffer' [read_index' [w' [content' [Hrun [Hidx [Hrx'
           [Hbuf' [Hopen' [Hpos' [Hfiles' [Hdata' [Hspace'
           [Hr' [Hh' Ho']]]]]]]]]]]]]]]]; try assumption.
    { now rewrite length_store. }
    { lia. }
    exists file', buffer', read_index', w', content'.
    split; [cbn [Nat.add]; rewrite Hstep; exact Hrun|].
    split.
    { rewrite Hidx. rewrite Nat2Z.inj_succ.
      rewrite Zplus_mod, uint32_mod_512, <- Zplus_mod.
      f_equal. lia. }
    repeat split; try assumption; try congruence.
    rewrite Hdata', app_assoc, Hdata1. now rewrite <- !app_assoc.
Qed.

(** The cancel symbol with bytes pending: they are flushed and the loop
    ends. *)
Lemma write_loop_cancel (path : string) (fuel : nat) (file : File)
    (buffer : list byte) (read_index : Z) (w : World)
    (rest content : list byte) :
  cli_rx w = CliSymbolAsciiETX :: rest ->
  (0 < read_index mod 512)%Z ->
  length buffer = 512%nat ->
  f_open file = Some path ->
  f_pos file = length content ->
  files (storage w) path = Some content ->
  (Z.to_nat (read_index mod 512) <= space (storage w))%nat ->
  exists file' w',
    storage_cli_write_loop (S fuel) file buffer read_index w = Done file' w'
    /\ cli_rx w' = rest
    /\ f_open file' = Some path
    /\ files (storage w') path
       = Some (content ++ firstn (Z.to_nat (read_index mod 512)) buffer)
    /\ log w'
       = log w
         ++ [ CliGetc CliSymbolAsciiETX;
              FileWrite (firstn (Z.to_nat (read_index mod 512)) buffer)
                (read_index mod 512) ]
    /\ records w' = records w /\ handles w' = handles w
    /\ opened w' = opened w.
Proof.
  intros Hrx Hpending Hbuf Hopen Hpos Hfiles Hroom.
  pose proof (Z.mod_pos_bound read_index 512 ltac:(lia)) as Hb.
  cbn [storage_cli_write_loop]. unfold bind at 1. unfold cli_getc.
  rewrite Hrx. cbv beta iota.
  change (Byte.eqb CliSymbolAsciiETX CliSymbolAsciiETX) with true.
  cbv iota.
  replace (0 <? read_index mod 512)%Z with true
    by (symmetry; now apply Z.ltb_lt).
  destruct w as [rx st rs hs os lg]. destruct file as [fo pos e es].
  cbn [cli_rx storage f_open f_pos log records handles opened] in *.
  subst rx fo pos.
  set (pending := firstn (Z.to_nat (read_index mod 512)) buffer) in *.
  assert (Hlen : length pending = Z.to_nat (read_index mod 512))
    by (subst pending; now apply length_pending).
  assert (Hfull : firstn (space st) pending = pending)
    by (apply firstn_all2; lia).
  run. rewrite Hfiles. run. fold pending. rewrite !Hfull.
  rewrite !append_at_end. rewrite !Hlen.
  rewrite Z2Nat.id by lia. rewrite Z.eqb_refl. run.
  eexists. eexists. split; [reflexivity|].
  cbn [cli_rx storage f_open log records handles opened].
  rewrite files_put_same.
  repeat split; try reflexivity. same_world.
Qed.

Lemma write_open_append (path : string) (w : World) :
  fault (storage w) path = FSE_OK ->
  let old := match files (storage w) path with Some c => c | None => [] end in
  exists s1,
    files s1 path = Some old /\ space s1 = space (storage w)
    /\ storage_file_open
         {| f_open := None; f_pos := 0; f_error := FSE_OK; f_entries := [] |}
         path FSAM_WRITE FSOM_OPEN_APPEND w
       = Done (true, {| f_open := Some path; f_pos := length old;
                        f_error := FSE_OK; f_entries := [] |})
           (emit (FileOpen path FSAM_WRITE FSOM_OPEN_APPEND FSE_OK)
              (set_opened (S (opened w)) (set_storage s1 w))).
Proof.
  intros Hfault old. unfold storage_file_open. rewrite Hfault.
  destruct w as [rx st rs hs os lg]. cbn [storage] in *.
  destruct (files st path) as [content|] eqn:Hfiles.
  - exists st. subst old. split; [exact Hfiles|split; reflexivity].
  - exists (put_file path [] (space st) st). subst old.
    split; [apply files_put_same|split; reflexivity].
Qed.

Lemma storage_cli_write_unfold (path : string) (w : World) :
  fault (storage w) path = FSE_OK ->
  let old := match files (storage w) path with Some c => c | None => [] end in
  exists s1,
    files s1 path = Some old /\ space s1 = space (storage w)
    /\ storage_cli_write path w
       = match write_session path old s1 w with
         | Done file w' =>
             (printf "\r\n" [] ;;
              closed <- storage_file_close file ;;
              storage_file_free (snd closed) ;;
              furi_record_close) w'
         | Blocked w' => Blocked w'
         | Rebooted w' => Rebooted w'
         | OutOfFuel w' => OutOfFuel w'
         end.
Proof.
  intros Hfault old.
  destruct w as [rx st rs hs os lg].
  cbn [cli_rx storage records handles opened] in *.
  unfold storage_cli_write.
  unfold bind at 1. unfold furi_record_open at 1.
  unfold bind at 1. unfold storage_file_alloc at 1.
  unfold bind at 1.
  match goal with
  | |- context [storage_file_open _ _ _ _ ?w0] =>
      destruct (@write_open_append path w0 Hfault) as [s1 [Hf1 [Hs1 Hopen]]]
  end.
  rewrite Hopen. clear Hopen. cbv beta iota.
  simpl in Hf1, Hs1. fold old in Hf1.
  exists s1. split; [exact Hf1|]. split; [exact Hs1|].
  unfold write_session. run. fold old.
  repeat rewrite <- app_assoc. cbn [app].
  match goal with
  | |- context [storage_cli_write_loop ?f ?fl ?b ?i ?w1] =>
      destruct (storage_cli_write_loop f fl b i w1) as [file' w'|w'|w'|w']
  end; try reflexivity.
  destruct w' as [rx' st' rs' hs' os' lg'].
  destruct file' as [[p|] pos e es]; reflexivity.
Qed.

(** Round trip away from a block boundary: k symbols, k not a multiple
    of 512, then the cancel symbol: the file grows by exactly these
    symbols, the handler returns and has released what it held.  (The
    volume has room for the symbols and one more block.) *)
Lemma write_round_trip (path : string) (w : World)
    (symbols rest : list byte) :
  fault (storage w) path = FSE_OK ->
  cli_rx w = symbols ++ CliSymbolAsciiETX :: rest ->
  Forall (fun symbol => symbol <> CliSymbolAsciiETX) symbols ->
  (Z.of_nat (length symbols) mod 512 <> 0)%Z ->
  (length symbols + 512 <= space (storage w))%nat ->
  let old := match files (storage w) path with Some c => c | None => [] end in
  exists w',
    storage_cli_write path w = Done tt w'
    /\ files (storage w') path = Some (old ++ symbols)
    /\ cli_rx w' = rest
    /\ records w' = records w /\ handles w' = handles w
    /\ opened w' = opened w.
Proof.
  intros Hfault Hrx Hsym Hk Hroom old.
  destruct (storage_cli_write_unfold path w Hfault) as [s1 [Hf1 [Hs1 Hrun]]].
  fold old in Hf1, Hrun. rewrite Hrun. clear Hrun.
  unfold write_session. rewrite Hrx.
  replace (S (length (symbols ++ CliSymbolAsciiETX :: rest)))
    with (length symbols + S (S (length rest)))%nat
    by (rewrite length_app; cbn [length]; lia).
  match goal with
  | |- context [storage_cli_write_loop _ ?f ?b 0%Z ?w1] =>
      destruct (@write_loop_symbols path symbols (S (S (length rest))) f b
                  0%Z w1 (CliSymbolAsciiETX :: rest) old Hrx Hsym
                  (repeat_length _ _) eq_refl eq_refl Hf1)
        as [file1 [buffer1 [index1 [w1' [content1 [Hrun [Hidx [Hrx1
             [Hbuf1 [Hopen1 [Hpos1 [Hfiles1 [Hdata1 [Hspace1
             [Hr1 [Hh1 Ho1]]]]]]]]]]]]]]]];
        [cbn [storage emits set_opened set_handles set_records set_storage];
         change (Z.to_nat (0 mod 512)) with 0%nat; lia|]
  end.
  rewrite Hrun. clear Hrun.
  change (Z.to_nat (0 mod 512)) with 0%nat in Hdata1.
  cbn [firstn app] in Hdata1. rewrite Z.add_0_l in Hidx.
  pose proof (Z.mod_pos_bound (Z.of_nat (length symbols)) 512 ltac:(lia))
    as Hbound.
  assert (Hpending : (0 < index1 mod 512)%Z) by (rewrite Hidx; lia).
  assert (Hroom1 : (Z.to_nat (index1 mod 512) <= space (storage w1'))%nat)
    by lia.
  destruct (@write_loop_cancel path (S (length rest)) file1 buffer1 index1
              w1' rest content1 Hrx1 Hpending Hbuf1 Hopen1 Hpos1 Hfiles1
              Hroom1)
    as [file2 [w2 [Hrun [Hrx2 [Hopen2 [Hfiles2 [Hlog2 [Hr2 [Hh2 Ho2]]]]]]]]].
  rewrite Hrun. clear Hrun.
  destruct w as [rx st rs hs os lg].
  destruct w1' as [rx1 st1 rs1 hs1 os1 lg1].
  destruct w2 as [rx2 st2 rs2 hs2 os2 lg2].
  destruct file2 as [fo2 pos2 e2 es2].
  cbn [cli_rx storage records handles opened f_open
       emits set_opened set_handles set_records set_storage] in *. subst.
  run. eexists. split; [reflexivity|].
  cbn [cli_rx storage records handles opened].
  rewrite Hfiles2, Hdata1. repeat split.
Qed.

(** C1 on a block boundary.  After k symbols, k a multiple of 512 (zero
    among them), the buffer holds no pending byte, and the cancel symbol
    does not end the session: it is stored in the buffer as data and the
    loop reads on.  With no further input the handler is still waiting,
    the file open; a second cancel symbol ends the session and leaves the
    first one in the file after the k symbols.  (The volume has room for
    the symbols and two more blocks.) *)
Theorem write_cancel_on_block_boundary (path : string) (w : World)
    (symbols more : list byte) :
  fault (storage w) path = FSE_OK ->
  cli_rx w = symbols ++ CliSymbolAsciiETX :: more ->
  Forall (fun symbol => symbol <> CliSymbolAsciiETX) symbols ->
  (Z.of_nat (length symbols) mod 512 = 0)%Z ->
  (length symbols + 1024 <= space (storage w))%nat ->
  let old := match files (storage w) path with Some c => c | None => [] end in
  (more = [] ->
   exists w',
     storage_cli_write path w = Blocked w'
     /\ files (storage w') path = Some (old ++ symbols)
     /\ cli_rx w' = []
     /\ records w' = S (records w) /\ handles w' = S (handles w)
     /\ opened w' = S (opened w))
  /\ (forall rest,
        more = CliSymbolAsciiETX :: rest ->
        exists w',
          storage_cli_write path w = Done tt w'
          /\ files (storage w') path
             = Some (old ++ symbols ++ [CliSymbolAsciiETX])
          /\ cli_rx w' = rest).
Proof.
  intros Hfault Hrx Hsym Hk Hroom old.
  destruct (storage_cli_write_unfold path w Hfault) as [s1 [Hf1 [Hs1 Hrun]]].
  fold old in Hf1, Hrun. rewrite Hrun. clear Hrun.
  unfold write_session. rewrite Hrx.
  replace (S (length (symbols ++ CliSymbolAsciiETX :: more)))
    with (length symbols + S (S (length more)))%nat
    by (rewrite length_app; cbn [length]; lia).
  match goal with
  | |- context [storage_cli_write_loop _ ?f ?b 0%Z ?w1] =>
      destruct (@write_loop_symbols path symbols (S (S (length more))) f b
                  0%Z w1 (CliSymbolAsciiETX :: more) old Hrx Hsym
                  (repeat_length _ _) eq_refl eq_refl Hf1)
        as [file1 [buffer1 [index1 [w1' [content1 [Hrun [Hidx [Hrx1
             [Hbuf1 [Hopen1 [Hpos1 [Hfiles1 [Hdata1 [Hspace1
             [Hr1 [Hh1 Ho1]]]]]]]]]]]]]]]];
        [cbn [storage emits set_opened set_handles set_records set_storage];
         change (Z.to_nat (0 mod 512)) with 0%nat; lia|]
  end.
  rewrite Hrun. clear Hrun.
  change (Z.to_nat (0 mod 512)) with 0%nat in Hdata1.
  cbn [firstn app] in Hdata1. rewrite Z.add_0_l in Hidx.
  rewrite Hk in Hidx. rewrite Hidx in Hdata1, Hspace1.
  change (Z.to_nat 0) with 0%nat in Hdata1, Hspace1.
  cbn [firstn] in Hdata1. rewrite app_nil_r in Hdata1. subst content1.
  destruct (@write_loop_step path CliSymbolAsciiETX (S (length more)) file1
              buffer1 index1 w1' more (old ++ symbols) Hrx1
              (or_intror Hidx) Hbuf1 Hopen1 Hpos1 Hfiles1 ltac:(lia))
    as [file2 [w2 [content2 [Hstep [Hrx2 [Hopen2 [Hpos2 [Hfiles2
         [Hdata2 [Hspace2 [Hr2 [Hh2 Ho2]]]]]]]]]]]].
  rewrite Hstep. clear Hstep.
  assert (Hidx2 : (uint32 (index1 + 1) mod 512 = 1)%Z).
  { rewrite next_index, Hidx. reflexivity. }
  assert (Hecho : firstn 1 (store 0 CliSymbolAsciiETX buffer1)
                  = [CliSymbolAsciiETX]).
  { rewrite firstn_store by lia. reflexivity. }
  rewrite Hidx, Hidx2 in Hdata2.
  change (Z.to_nat 0) with 0%nat in Hdata2.
  change (Z.to_nat 1) with 1%nat in Hdata2.
  rewrite Hecho in Hdata2. cbn [firstn app] in Hdata2.
  apply app_inj_tail in Hdata2. destruct Hdata2 as [Hcontent2 _].
  subst content2.
  split.
  - intros ->. cbn [length storage_cli_write_loop].
    unfold bind at 1. unfold cli_getc. rewrite Hrx2.
    exists w2. split; [reflexivity|].
    destruct w as [rx st rs hs os lg].
    destruct w1' as [rx1 st1 rs1 hs1 os1 lg1].
    cbn [cli_rx storage records handles opened
         emits set_opened set_handles set_records set_storage] in *.
    repeat split; congruence.
  - intros rest ->.
    destruct (@write_loop_cancel path (S (length rest)) file2
                (store (Z.to_nat (index1 mod 512)) CliSymbolAsciiETX buffer1)
                (uint32 (index1 + 1)) w2 rest (old ++ symbols) Hrx2
                ltac:(lia) ltac:(now rewrite length_store) Hopen2 Hpos2
                Hfiles2 ltac:(lia))
      as [file3 [w3 [Hrun [Hrx3 [Hopen3 [Hfiles3 [Hlog3 [Hr3 [Hh3 Ho3]]]]]]]]].
    cbn [length]. rewrite Hrun. clear Hrun.
    rewrite Hidx2 in Hfiles3. change (Z.to_nat 1) with 1%nat in Hfiles3.
    destruct w3 as [rx3 st3 rs3 hs3 os3 lg3].
    destruct file3 as [fo3 pos3 e3 es3].
    cbn [cli_rx storage f_open] in *. subst.
    run. eexists. split; [reflexivity|].
    cbn [cli_rx storage]. split; [|reflexivity].
    rewrite Hfiles3, Hidx. change (Z.to_nat 0) with 0%nat.
    rewrite Hecho. now rewrite <- app_assoc.
Qed.

(** ** The loops have fuel enough *)

Lemma for_each_emits {A} (f : A -> M unit) (ev : A -> Event) :
  (forall x w, f x w = Done tt (emits [ev x] w)) ->
  forall data w, for_each f data w = Done tt (emits (map ev data) w).
Proof.
  intros Hf data. induction data as [|x data IH]; intro w; simpl.
  - unfold ret. now rewrite emits_nil.
  - unfold bind. rewrite Hf, IH, emits_emits. reflexivity.
Qed.

Lemma list_loop_fueled (fuel : nat) :
  forall file read_done w,
    (length (f_entries file) < fuel)%nat ->
    fueled (storage_cli_list_loop fuel file read_done w).
Proof.
  induction fuel as [|fuel IH]; intros file read_done w Hfuel; [lia|].
  cbn [storage_cli_list_loop]. unfold bind at 1. unfold storage_dir_read.
  destruct (f_entries file) as [|entry rest] eqn:Hentries; [exact I|].
  cbv beta iota. unfold bind. rewrite print_entry_spec.
  apply IH. simpl in *. lia.
Qed.

Lemma read_loop_fueled (fuel : nat) :
  forall file w,
    (length (file_content file w) - f_pos file < fuel)%nat ->
    fueled (storage_cli_read_loop fuel file w).
Proof.
  induction fuel as [|fuel IH]; intros file w Hfuel; [lia|].
  cbn [storage_cli_read_loop]. unfold bind at 1. unfold storage_file_read.
  destruct file as [[path|] pos e es]; cbn [f_open f_pos] in *.
  - set (data := firstn (Z.to_nat 128)
                   (skipn pos (file_content
                                 {| f_open := Some path; f_pos := pos;
                                    f_error := e; f_entries := es |} w))).
    unfold bind.
    rewrite (for_each_emits (fun c => printf "%c" [ArgChar c])
               (fun c => Printf "%c" [ArgChar c]))
      by reflexivity.
    destruct (0 <? length data)%nat eqn:Hdata; [|exact I].
    apply Nat.ltb_lt in Hdata. apply IH.
    assert (Hle : (length data
                   <= length (file_content
                                {| f_open := Some path; f_pos := pos;
                                   f_error := e; f_entries := es |} w) - pos)%nat).
    { subst data. rewrite length_firstn, length_skipn. lia. }
    cbn [f_pos]. unfold file_content in *. cbn [f_open storage emits emit] in *.
    lia.
  - unfold bind. cbn [for_each]. unfold ret. cbn [length Nat.ltb Nat.leb].
    exact I.
Qed.

Lemma write_loop_fueled (fuel : nat) :
  forall file buffer read_index w,
    (length (cli_rx w) < fuel)%nat ->
    fueled (storage_cli_write_loop fuel file buffer read_index w).
Proof.
  induction fuel as [|fuel IH]; intros file buffer read_index w Hfuel; [lia|].
  cbn [storage_cli_write_loop]. unfold bind at 1. unfold cli_getc.
  destruct w as [rx st rs hs os lg]. cbn [cli_rx] in *.
  destruct rx as [|symbol rx]; [exact I|]. cbv beta iota.
  cbn [length] in Hfuel.
  assert (Hstore : forall w1,
            cli_rx w1 = rx ->
            fueled
              ((printf "%c"
                  [ArgChar
                     (nth (Z.to_nat (read_index mod 512))
                        (store (Z.to_nat (read_index mod 512)) symbol buffer)
                        x00)] ;;
                if (uint32 (read_index + 1) mod 512 =? 0)%Z then
                  ' (written_size, file0) <-
                    storage_file_write file
                      (firstn (Z.to_nat 512)
                         (store (Z.to_nat (read_index mod 512)) symbol
                            buffer)) ;;
                  if negb (written_size =? 512)%Z then
                    storage_cli_print_error (storage_file_get_error file0) ;;
                    ret file0
                  else
                    storage_cli_write_loop fuel file0
                      (store (Z.to_nat (read_index mod 512)) symbol buffer)
                      (uint32 (read_index + 1))
                else
                  storage_cli_write_loop fuel file
                    (store (Z.to_nat (read_index mod 512)) symbol buffer)
                    (uint32 (read_index + 1))) w1)).
  { intros w1 Hrx1. unfold bind at 1. unfold printf. cbv beta iota.
    destruct (uint32 (read_index + 1) mod 512 =? 0)%Z.
    - unfold bind at 1. unfold storage_file_write.
      destruct (f_open file); cbv beta iota zeta;
        match goal with
        | |- context [negb ?c] => destruct (negb c)
        end; try exact I;
        (apply IH; destruct w1; cbn in *; subst; lia).
    - apply IH. destruct w1; cbn in *; subst; lia. }
  destruct (Byte.eqb symbol CliSymbolAsciiETX);
    [|apply Hstore; reflexivity].
  destruct (0 <? read_index mod 512)%Z; [|apply Hstore; reflexivity].
  unfold bind at 1. unfold storage_file_write.
  destruct (f_open file); cbv beta iota zeta; unfold bind;
    match goal with
    | |- context [negb ?c] => destruct (negb c)
    end; exact I.
Qed.

Lemma read_chunks_loop_fueled (fuel : nat) :
  forall file buffer_size file_size w,
    (length (cli_rx w) < fuel)%nat ->
    fueled (storage_cli_read_chunks_loop fuel file buffer_size file_size w).
Proof.
  induction fuel as [|fuel IH];
    intros file buffer_size file_size w Hfuel; [lia|].
  cbn [storage_cli_read_chunks_loop].
  destruct (0 <? file_size)%Z; [|exact I].
  unfold bind at 1. unfold printf. cbv beta iota.
  unfold bind at 1. unfold cli_getc.
  destruct w as [rx st rs hs os lg]. cbn [cli_rx emit emits] in *.
  destruct rx as [|ack rx]; [exact I|]. cbv beta iota.
  cbn [length] in Hfuel.
  unfold bind at 1. unfold storage_file_read.
  destruct (f_open file); cbv beta iota zeta; unfold bind;
    rewrite for_each_putchar; apply IH; cbn; lia.
Qed.

(** ** No handler stops for want of fuel *)

Ltac loop_fueled lemma :=
  match goal with
  | |- context [storage_cli_read_loop ?f ?fl ?w1] =>
      pose proof (@lemma f fl w1) as Hloop;
      destruct (storage_cli_read_loop f fl w1) as [file' w'|w'|w'|w']
  | |- context [storage_cli_write_loop ?f ?fl ?b ?i ?w1] =>
      pose proof (@lemma f fl b i w1) as Hloop;
      destruct (storage_cli_write_loop f fl b i w1) as [file' w'|w'|w'|w']
  | |- context [storage_cli_read_chunks_loop ?f ?fl ?b ?i ?w1] =>
      pose proof (@lemma f fl b i w1) as Hloop;
      destruct (storage_cli_read_chunks_loop f fl b i w1)
        as [file' w'|w'|w'|w']
  | |- context [storage_cli_list_loop ?f ?fl ?b ?w1] =>
      pose proof (@lemma f fl b w1) as Hloop;
      destruct (storage_cli_list_loop f fl b w1) as [file' w'|w'|w'|w']
  end.

Lemma table_fueled (verb : string) (handler : string -> string -> M unit)
    (path args : string) (w : World) :
  In (verb, handler) command_table -> fueled (handler path args w).
Proof.
  unfold command_table. simpl. intro Hin.
  destruct w as [rx st rs hs os lg].
  repeat (destruct Hin as [Heq|Hin]; [injection Heq as <- <-|]);
    try contradiction.
  - (* info *)
    unfold storage_cli_info.
    destruct (String.eqb path STORAGE_INT_PATH_PREFIX);
      [run; destruct (svc_fs_info STORAGE_INT_PATH_PREFIX st) as [e [t f]];
       destruct e; exact I|].
    destruct (String.eqb path STORAGE_EXT_PATH_PREFIX);
      [run; destruct (svc_sd_info st) as [e sd]; destruct e; exact I|].
    usage. exact I.
  - (* format *)
    rewrite storage_cli_format_spec.
    destruct (String.eqb path STORAGE_INT_PATH_PREFIX); [exact I|].
    destruct (String.eqb path STORAGE_EXT_PATH_PREFIX); [|exact I].
    cbn [cli_rx]. destruct rx as [|answer rest]; [exact I|].
    destruct (is_yes answer); [|exact I].
    cbn [storage]. now destruct (svc_sd_format st).
  - (* list *)
    unfold storage_cli_list.
    destruct (String.eqb path "/"); [exact I|]. run.
    destruct (svc_dir path st) as [e|entries]; [destruct e; exact I|].
    run. loop_fueled list_loop_fueled;
      try (destruct w'; run; exact I).
    + destruct w'. destruct file' as [[|] [[p|] pos e es]]; run; exact I.
    + apply Hloop. cbn. lia.
  - (* tree *)
    unfold storage_cli_tree. simpl.
    destruct (String.eqb path "/").
    + unfold bind. rewrite storage_cli_tree_walk_spec. cbv beta iota.
      rewrite storage_cli_tree_walk_spec. exact I.
    + rewrite storage_cli_tree_walk_spec. exact I.
  - (* read *)
    unfold storage_cli_read. run.
    destruct (fault st path); try exact I.
    destruct (files st path) as [content|] eqn:Hfiles; [|exact I].
    run. loop_fueled read_loop_fueled;
      try (destruct w'; run; exact I).
    + destruct w'. destruct file' as [[p|] pos e es]; run; exact I.
    + apply Hloop. unfold file_content. cbn. rewrite Hfiles. lia.
  - (* read_chunks *)
    unfold storage_cli_read_chunks.
    destruct (sscanf_lu args) as [n|]; [|usage; exact I]. run.
    destruct (fault st path); try exact I.
    destruct (files st path) as [content|]; [|exact I].
    run. destruct (uint32 n =? 0)%Z; run; [exact I|].
    loop_fueled read_chunks_loop_fueled;
      try (destruct w'; run; exact I).
    + destruct w'. destruct file' as [[p|] pos e es]; run; exact I.
    + apply Hloop. cbn. lia.
  - (* write *)
    unfold storage_cli_write. run.
    destruct (fault st path); try exact I.
    destruct (files st path) as [content|]; run;
      (loop_fueled write_loop_fueled;
       try (destruct w'; run; exact I);
       [ destruct w'; destruct file' as [[p|] pos e es]; run; exact I
       | apply Hloop; cbn; lia ]).
  - (* write_chunk *)
    unfold storage_cli_write_chunk.
    destruct (sscanf_lu args) as [n|]; [|usage; exact I]. run.
    destruct (fault st path); try exact I.
    destruct (files st path) as [content|]; run;
      (destruct (uint32 n =? 0)%Z; run; [exact I|]);
      match goal with
      | |- context [(?a =? uint32 n)%Z] => destruct (a =? uint32 n)%Z
      end; exact I.
  - (* copy *)
    unfold storage_cli_copy.
    destruct (args_read_probably_quoted_string_and_trim args)
      as [[new_path rest]|]; [|usage; exact I].
    run. destruct (svc_copy path new_path st) as [e st']. now destruct e.
  - (* remove *)
    unfold storage_cli_remove. run.
    destruct (svc_remove path st) as [e st']. now destruct e.
  - (* rename *)
    unfold storage_cli_rename.
    destruct (args_read_probably_quoted_string_and_trim args)
      as [[new_path rest]|]; [|usage; exact I].
    run. destruct (svc_rename path new_path st) as [e st']. now destruct e.
  - (* migrate *)
    unfold storage_cli_migrate.
    destruct (args_read_probably_quoted_string_and_trim args)
      as [[new_path rest]|]; [|usage; exact I].
    run. destruct (svc_migrate path new_path st) as [e st']. now destruct e.
  - (* mkdir *)
    unfold storage_cli_mkdir. run.
    destruct (svc_mkdir path st) as [e st']. now destruct e.
  - (* md5 *)
    unfold storage_cli_md5. run.
    destruct (svc_md5 path st) as [e|md5]; [now destruct e|exact I].
  - (* stat *)
    unfold storage_cli_stat.
    destruct (String.eqb path "/"); [exact I|].
    destruct (String.eqb path STORAGE_EXT_PATH_PREFIX
              || String.eqb path STORAGE_INT_PATH_PREFIX
              || String.eqb path STORAGE_ANY_PATH_PREFIX); run.
    + destruct (svc_fs_info path st) as [e [t f]]. now destruct e.
    + destruct (svc_stat path st) as [e fileinfo].
      destruct e; run; now destruct (is_dir fileinfo).
  - (* timestamp *)
    rewrite storage_cli_timestamp_spec. cbn [storage].
    now destruct (svc_timestamp path st).
Qed.

Lemma storage_cli_fueled (line : string) (w : World) :
  fueled (storage_cli line w).
Proof.
  rewrite storage_cli_unfold.
  destruct (read_command line) as [[[cmd path] rest]|]; [|exact I].
  destruct (first_match cmd) as [[verb handler]|] eqn:Hm; [|exact I].
  apply first_match_in in Hm. destruct Hm as [Hin _].
  exact (table_fueled path rest w Hin).
Qed.

(** * More of the handlers

    ** Listing a directory *)

Lemma storage_cli_list_loop_spec (entries : list DirEntry) :
  forall (fuel : nat) (file : File) (read_done : bool) (w : World),
    f_entries file = entries ->
    (length entries < fuel)%nat ->
    exists file',
      storage_cli_list_loop fuel file read_done w
      = Done (match entries with [] => read_done | _ => true end, file')
          (emits
             (flat_map (fun entry => [DirRead true; entry_event entry])
                entries
              ++ [DirRead false]) w)
      /\ f_open file' = f_open file.
Proof.
  induction entries as [|entry entries IH];
    intros fuel file read_done w Hrest Hfuel;
    (destruct fuel as [|fuel]; [simpl in Hfuel; lia|]).
  - eexists. simpl. unfold bind, storage_dir_read. rewrite Hrest.
    split; reflexivity.
  - simpl in Hfuel.
    destruct (IH fuel
                {| f_open := f_open file; f_pos := f_pos file;
                   f_error := FSE_OK; f_entries := entries |}
                true (emits [DirRead true; entry_event entry] w)
                eq_refl ltac:(lia))
      as [file' [Hrun Hopen]].
    exists file'. split; [|exact Hopen].
    simpl storage_cli_list_loop. unfold bind at 1. unfold storage_dir_read.
    rewrite Hrest. unfold bind at 1. rewrite print_entry_spec.
    unfold emit. rewrite emits_emits. simpl app.
    rewrite Hrun. rewrite emits_emits. simpl.
    now destruct entries.
Qed.

(** What [storage_cli_list] does on a path other than "/". *)
Lemma storage_cli_list_run (path : string) (w : World) :
  String.eqb path "/" = false ->
  storage_cli_list path w
  = Done tt
      (emits
         ([RecordOpen; FileAlloc]
          ++ match svc_dir path (storage w) with
             | inr entries =>
                 DirOpen path FSE_OK :: list_events entries
                 ++ [DirClose true]
             | inl error =>
                 [DirOpen path error; error_event error; DirClose false]
             end
          ++ [FileFree; RecordClose]) w).
Proof.
  intro Hpath. unfold storage_cli_list. rewrite Hpath.
  destruct w as [rx st rs hs os lg]. run.
  destruct (svc_dir path st) as [error|entries].
  - run. same_world.
  - run.
    match goal with
    | |- context [storage_cli_list_loop ?f ?fl ?b ?w0] =>
        destruct (@storage_cli_list_loop_spec entries f fl b w0 eq_refl)
          as [file' [Hrun Hopen]]; [simpl; lia|rewrite Hrun]
    end.
    destruct file' as [fo pos e es].
    simpl in Hopen. subst fo. unfold list_events.
    destruct entries as [|entry entries]; run; same_world.
Qed.

(** ** Reading a file to the console *)

Lemma for_each_echo (data : list byte) (w : World) :
  for_each (fun c => printf "%c" [ArgChar c]) data w
  = Done tt (emits (map (fun c => Printf "%c" [ArgChar c]) data) w).
Proof.
  apply (for_each_emits (fun c => printf "%c" [ArgChar c])
           (fun c => Printf "%c" [ArgChar c])).
  reflexivity.
Qed.

Lemma read_events_nil : read_events [] = [FileRead 128 []].
Proof. reflexivity. Qed.

Lemma read_events_cons (x : byte) (data : list byte) :
  read_events (x :: data)
  = FileRead 128 (firstn 128 (x :: data))
    :: map (fun c => Printf "%c" [ArgChar c]) (firstn 128 (x :: data))
    ++ read_events (skipn 128 (x :: data)).
Proof.
  unfold read_events. rewrite chunks_cons by lia.
  cbn [flat_map]. now rewrite <- app_assoc.
Qed.

Lemma read_loop_spec (path : string) (content : list byte) :
  forall (fuel pos : nat) (w : World) (e : FS_Error) (es : list DirEntry),
    files (storage w) path = Some content ->
    (length (skipn pos content) < fuel)%nat ->
    exists file',
      storage_cli_read_loop fuel
        {| f_open := Some path; f_pos := pos; f_error := e; f_entries := es |}
        w
      = Done file' (emits (read_events (skipn pos content)) w)
      /\ f_open file' = Some path.
Proof.
  induction fuel as [|fuel IH]; intros pos w e es Hfiles Hfuel; [lia|].
  cbn [storage_cli_read_loop].
  destruct w as [rx st rs hs os lg]. cbn [storage] in Hfiles.
  run. rewrite Hfiles. change (Z.to_nat 128) with 128%nat.
  rewrite for_each_echo. run.
  destruct (skipn pos content) as [|x data] eqn:Hrem.
  - cbn [firstn length map Nat.ltb Nat.leb]. rewrite read_events_nil.
    eexists. split; [rewrite app_nil_r; reflexivity|reflexivity].
  - set (block := firstn 128 (x :: data)).
    assert (Hblock : (0 <? length block)%nat = true).
    { apply Nat.ltb_lt. subst block. cbn [firstn length]. lia. }
    rewrite Hblock.
    assert (Hnext : skipn (pos + length block) content
                    = skipn 128 (x :: data)).
    { subst block. rewrite <- Hrem. apply skipn_block. }
    match goal with
    | |- context [storage_cli_read_loop fuel ?f ?w2] =>
        destruct (IH (pos + length block)%nat w2 FSE_OK [] Hfiles)
          as [file' [Hrun Hopen]]
    end.
    { rewrite Hnext, length_skipn. cbn [length] in *. lia. }
    exists file'. split; [|exact Hopen].
    rewrite Hrun, Hnext, read_events_cons. fold block. run.
    f_equal. f_equal. same_world.
Qed.

(** What [storage_cli_read] does on a file that opens. *)
Lemma storage_cli_read_run (path : string) (w : World)
    (content : list byte) :
  fault (storage w) path = FSE_OK ->
  files (storage w) path = Some content ->
  storage_cli_read path w
  = Done tt
      (emits
         ([ RecordOpen; FileAlloc;
            FileOpen path FSAM_READ FSOM_OPEN_EXISTING FSE_OK;
            FileSize (uint64 (Z.of_nat (length content)));
            Printf "Size: %lu\r\n"
              [ArgNum (uint32 (uint64 (Z.of_nat (length content))))] ]
          ++ read_events content
          ++ [Printf "\r\n" []; FileClose true; FileFree; RecordClose]) w).
Proof.
  intros Hfault Hfiles. unfold storage_cli_read.
  destruct w as [rx st rs hs os lg]. cbn [storage] in *.
  run. rewrite Hfault, Hfiles. run. rewrite Hfiles. run.
  match goal with
  | |- context [storage_cli_read_loop ?f ?fl ?w1] =>
      destruct (@read_loop_spec path content f 0%nat w1 FSE_OK [] Hfiles)
        as [file' [Hrun Hopen]]; [cbn [skipn]; lia|]
  end.
  cbn [skipn] in Hrun. rewrite Hrun.
  destruct file' as [[p|] pos e es]; [|discriminate]. run. same_world.
Qed.

Lemma echoed_app (a b : list Event) : echoed (a ++ b) = echoed a ++ echoed b.
Proof. unfold echoed. apply flat_map_app. Qed.

Lemma echoed_chars (data : list byte) :
  echoed (map (fun c => Printf "%c" [ArgChar c]) data) = data.
Proof.
  induction data as [|c data IH]; [reflexivity|].
  simpl. now rewrite IH.
Qed.

Lemma echoed_read_events (content : list byte) :
  echoed (read_events content) = content.
Proof.
  assert (H : forall len data, length data = len ->
                               echoed (read_events data) = data).
  { induction len as [len IH] using lt_wf_ind. intros data Hlen.
    destruct data as [|x data]; [reflexivity|].
    rewrite read_events_cons.
    change (echoed (?e :: ?l)) with (echoed [e] ++ echoed l).
    rewrite echoed_app, echoed_chars.
    rewrite (IH (length (skipn 128 (x :: data))));
      [apply firstn_skipn| |reflexivity].
    rewrite length_skipn. cbn [length] in *. lia. }
  now apply (H (length content)).
Qed.

(** X1.  list: on the root marker the handler prints the three volume
    names and makes no storage call at all, not even taking the storage
    record; on any other path it opens a directory cursor and, when that
    fails, reports the handle's error without a single read; when it
    opens, it prints each entry the cursor yields, a directory by its
    name, a file by its name and its size modulo 2^32, and the empty line
    if there was none; the cursor is closed, also after a failed open. *)
Theorem storage_cli_list_spec (path : string) (w : World) :
  path <> "/" ->
  storage_cli_list "/" w
  = Done tt
      (emits
         [ Printf "\t[D] int\r\n" []; Printf "\t[D] ext\r\n" [];
           Printf "\t[D] any\r\n" [] ] w)
  /\ storage_cli_list path w
     = Done tt
         (emits
            ([RecordOpen; FileAlloc]
             ++ match svc_dir path (storage w) with
                | inr entries =>
                    DirOpen path FSE_OK
                    :: flat_map
                         (fun entry => [DirRead true; entry_event entry])
                         entries
                    ++ [DirRead false]
                    ++ match entries with
                       | [] => [Printf "\tEmpty\r\n" []]
                       | _ => []
                       end
                    ++ [DirClose true]
                | inl error =>
                    [DirOpen path error; error_event error; DirClose false]
                end
             ++ [FileFree; RecordClose]) w).
Proof.
  intro Hpath. split.
  - unfold storage_cli_list. cbn [String.eqb Ascii.eqb Bool.eqb].
    destruct w. run. same_world.
  - rewrite storage_cli_list_run by (now apply String.eqb_neq).
    unfold list_events.
    destruct (svc_dir path (storage w)) as [error|entries]; [reflexivity|].
    now rewrite <- !app_assoc.
Qed.

Lemma uint32_uint64 (z : Z) : uint32 (uint64 z) = (z mod 2 ^ 32)%Z.
Proof.
  unfold uint32, uint64. apply Z.mod_mod_divide.
  exists (2 ^ 32)%Z. reflexivity.
Qed.

Lemma file_reads_app (a b : list Event) :
  file_reads (a ++ b) = file_reads a ++ file_reads b.
Proof. unfold file_reads. apply filter_app. Qed.

Lemma file_reads_chars (data : list byte) :
  file_reads (map (fun c => Printf "%c" [ArgChar c]) data) = [].
Proof. induction data as [|c data IH]; [reflexivity|exact IH]. Qed.

Lemma file_reads_read_events (content : list byte) :
  length (file_reads (read_events content))
  = S (length (chunks 128 content)).
Proof.
  unfold read_events. rewrite file_reads_app, length_app.
  cbn [file_reads filter length]. rewrite Nat.add_1_r. f_equal.
  induction (chunks 128 content) as [|block blocks IH]; [reflexivity|].
  cbn [flat_map]. rewrite file_reads_app.
  change (file_reads (FileRead 128 block :: ?l))
    with (FileRead 128 block :: file_reads l).
  rewrite file_reads_chars. cbn [app length]. f_equal. exact IH.
Qed.

(** X2.  read: for a file that opens the handler prints the file's
    length modulo 2^32 as the size, then reads blocks of 128 bytes until
    a read gives nothing, printing each byte read as one character, and
    ends the line; so the characters printed between the two lines are
    the file's bytes in order, the reads are one more than the blocks
    (ceil(L/128) + 1, one read even for an empty file), and neither the
    console input nor the storage has changed. *)
Theorem read_prints_content (path : string) (w : World)
    (content : list byte) :
  fault (storage w) path = FSE_OK ->
  files (storage w) path = Some content ->
  let L := Z.of_nat (length content) in
  let header :=
    [ RecordOpen; FileAlloc;
      FileOpen path FSAM_READ FSOM_OPEN_EXISTING FSE_OK;
      FileSize (uint64 L); Printf "Size: %lu\r\n" [ArgNum (L mod 2 ^ 32)] ] in
  let footer := [Printf "\r\n" []; FileClose true; FileFree; RecordClose] in
  storage_cli_read path w
  = Done tt (emits (header ++ read_events content ++ footer) w)
  /\ echoed (header ++ read_events content ++ footer) = content
  /\ Z.of_nat (length (file_reads (read_events content)))
     = ((L + 127) / 128 + 1)%Z
  /\ cli_rx (emits (header ++ read_events content ++ footer) w) = cli_rx w
  /\ storage (emits (header ++ read_events content ++ footer) w) = storage w.
Proof.
  intros Hfault Hfiles L header footer.
  split; [|split; [|split; [|split; reflexivity]]].
  - rewrite (storage_cli_read_run path w Hfault Hfiles).
    subst header L. now rewrite uint32_uint64.
  - rewrite !echoed_app, echoed_read_events.
    subst header footer. cbn. apply app_nil_r.
  - rewrite file_reads_read_events, Nat2Z.inj_succ.
    rewrite (@chunks_length 128 ltac:(lia) content).
    subst L. change (Z.of_nat 128) with 128%Z.
    replace (Z.of_nat (length content) + 128 - 1)%Z
      with (Z.of_nat (length content) + 127)%Z by lia.
    lia.
Qed.

(** X3.  A file that cannot be opened: read, read_chunks, write and
    write_chunk print the line that describes the error of the handle,
    call close on the handle that is not open, free it and return; they
    take nothing from the console and leave the storage as it was.
    Opening fails with the fault of the path; with no fault, read and
    read_chunks fail on a path that has no file. *)
Theorem open_failure_is_reported (path args : string) (n : Z) (w : World) :
  sscanf_lu args = Some n ->
  let failed am om error :=
    Done tt
      (emits
         [ RecordOpen; FileAlloc; FileOpen path am om error;
           error_event error; FileClose false; FileFree; RecordClose ] w) in
  (fault (storage w) path <> FSE_OK ->
   let error := fault (storage w) path in
   storage_cli_read path w = failed FSAM_READ FSOM_OPEN_EXISTING error
   /\ storage_cli_read_chunks path args w
      = failed FSAM_READ FSOM_OPEN_EXISTING error
   /\ storage_cli_write path w = failed FSAM_WRITE FSOM_OPEN_APPEND error
   /\ storage_cli_write_chunk path args w
      = failed FSAM_WRITE FSOM_OPEN_APPEND error)
  /\ (fault (storage w) path = FSE_OK ->
      files (storage w) path = None ->
      storage_cli_read path w
      = failed FSAM_READ FSOM_OPEN_EXISTING FSE_NOT_EXIST
      /\ storage_cli_read_chunks path args w
         = failed FSAM_READ FSOM_OPEN_EXISTING FSE_NOT_EXIST).
Proof.
  intros Hscan failed. subst failed. cbv beta.
  unfold storage_cli_read, storage_cli_read_chunks, storage_cli_write,
    storage_cli_write_chunk.
  rewrite Hscan. destruct w as [rx st rs hs os lg]. cbn [storage].
  split.
  - intros Hfault. cbv zeta.
    destruct (fault st path) eqn:E; [now elim Hfault|..];
      (repeat split; run; rewrite E; run; same_world).
  - intros Hfault Hfiles.
    split; run; rewrite Hfault, Hfiles; run; same_world.
Qed.

(** ** Write until cancel: what is echoed *)

Lemma echoes_nothing {A} (w : World) (r : Result A) :
  world_of r = w -> echoes w r.
Proof.
  intros <-. exists []. rewrite app_nil_r. cbn. auto.
Qed.

(** One symbol taken and echoed, then events that neither take nor echo,
    then a call that echoes what it takes. *)
Lemma echoes_more {A} (w w2 : World) (r : Result A) (symbol : byte)
    (mid : list Event) :
  echoes w2 r ->
  cli_rx w = symbol :: cli_rx w2 ->
  log w2 = log w ++ CliGetc symbol :: Printf "%c" [ArgChar symbol] :: mid ->
  taken mid = [] -> echoed mid = [] ->
  echoes w r.
Proof.
  intros [evs [Hlog [Hecho Hrx]]] Hrx2 Hlog2 Htaken Hechoed.
  exists (CliGetc symbol :: Printf "%c" [ArgChar symbol] :: mid ++ evs).
  split; [rewrite Hlog, Hlog2, <- app_assoc; reflexivity|].
  assert (Ht : taken (CliGetc symbol :: Printf "%c" [ArgChar symbol]
                        :: mid ++ evs) = symbol :: taken evs).
  { change (taken (?a :: ?b :: ?l)) with (taken [a; b] ++ taken l).
    unfold taken at 2. rewrite flat_map_app. fold (taken mid) (taken evs).
    rewrite Htaken. reflexivity. }
  assert (He : echoed (CliGetc symbol :: Printf "%c" [ArgChar symbol]
                         :: mid ++ evs) = symbol :: echoed evs).
  { change (echoed (?a :: ?b :: ?l)) with (echoed [a; b] ++ echoed l).
    rewrite echoed_app, Hechoed. reflexivity. }
  rewrite Ht, He. split.
  - destruct Hecho as [->| ->]; [now left|now right].
  - rewrite Hrx2, Hrx. reflexivity.
Qed.

Lemma write_loop_echoes (fuel : nat) :
  forall (file : File) (buffer : list byte) (read_index : Z) (w : World),
    length buffer = 512%nat ->
    echoes w (storage_cli_write_loop fuel file buffer read_index w).
Proof.
  induction fuel as [|fuel IH]; intros file buffer read_index w Hbuf.
  { now apply echoes_nothing. }
  cbn [storage_cli_write_loop]. unfold bind at 1. unfold cli_getc.
  destruct w as [rx st rs hs os lg]. cbn [cli_rx].
  destruct rx as [|symbol rx]; [now apply echoes_nothing|].
  cbv beta iota.
  pose proof (Z.mod_pos_bound read_index 512 ltac:(lia)) as Hb.
  rewrite nth_store by lia.
  assert (Hbuf' : length (store (Z.to_nat (read_index mod 512)) symbol buffer)
                  = 512%nat) by (now rewrite length_store).
  set (buffer' := store (Z.to_nat (read_index mod 512)) symbol buffer) in *.
  assert (Hstore :
    echoes
      {| cli_rx := symbol :: rx; storage := st; records := rs;
         handles := hs; opened := os; log := lg |}
      ((printf "%c" [ArgChar symbol] ;;
        if (uint32 (read_index + 1) mod 512 =? 0)%Z then
          ' (written_size, file0) <-
            storage_file_write file (firstn (Z.to_nat 512) buffer') ;;
          if negb (written_size =? 512)%Z then
            storage_cli_print_error (storage_file_get_error file0) ;;
            ret file0
          else
            storage_cli_write_loop fuel file0 buffer'
              (uint32 (read_index + 1))
        else
          storage_cli_write_loop fuel file buffer' (uint32 (read_index + 1)))
         (emit (CliGetc symbol)
            (set_cli_rx rx
               {| cli_rx := symbol :: rx; storage := st; records := rs;
                  handles := hs; opened := os; log := lg |})))).
  { unfold bind at 1. unfold printf. cbv beta iota.
    destruct (uint32 (read_index + 1) mod 512 =? 0)%Z.
    - unfold bind at 1. unfold storage_file_write.
      destruct (f_open file) as [p|]; cbv beta iota zeta;
        match goal with
        | |- context [negb ?c] => destruct (negb c)
        end.
      + run. eexists. split; [rewrite <- !app_assoc; reflexivity|].
        cbn. auto.
      + eapply echoes_more with (mid := [_]);
          [apply IH; exact Hbuf'|reflexivity
          |run; rewrite <- !app_assoc; reflexivity
          |reflexivity|reflexivity].
      + run. eexists. split; [rewrite <- !app_assoc; reflexivity|].
        cbn. auto.
      + eapply echoes_more with (mid := [_]);
          [apply IH; exact Hbuf'|reflexivity
          |run; rewrite <- !app_assoc; reflexivity
          |reflexivity|reflexivity].
    - eapply echoes_more with (mid := []);
        [apply IH; exact Hbuf'|reflexivity
        |run; rewrite <- !app_assoc; reflexivity
        |reflexivity|reflexivity]. }
  destruct (Byte.eqb symbol CliSymbolAsciiETX) eqn:Hsym; [|exact Hstore].
  destruct (0 <? read_index mod 512)%Z; [|exact Hstore].
  apply Byte.byte_dec_bl in Hsym. subst symbol. clear Hstore.
  unfold bind at 1. unfold storage_file_write.
  destruct (f_open file) as [p|]; cbv beta iota zeta;
    match goal with
    | |- context [negb ?c] => destruct (negb c)
    end;
    (run; eexists; split; [rewrite <- !app_assoc; reflexivity|];
     cbn; auto).
Qed.

Lemma taken_app (a b : list Event) : taken (a ++ b) = taken a ++ taken b.
Proof. unfold taken. apply flat_map_app. Qed.

(** Events before and after that neither take nor echo. *)
Lemma echoes_frame {A B} (w w1 : World) (r1 : Result A) (r : Result B)
    (pre post : list Event) :
  echoes w1 r1 ->
  log w1 = log w ++ pre -> cli_rx w1 = cli_rx w ->
  log (world_of r) = log (world_of r1) ++ post ->
  cli_rx (world_of r) = cli_rx (world_of r1) ->
  taken pre = [] -> echoed pre = [] -> taken post = [] -> echoed post = [] ->
  echoes w r.
Proof.
  intros [evs [Hlog [Hecho Hrx]]] Hpre Hrx1 Hpost Hrx2 Ht1 He1 Ht2 He2.
  exists (pre ++ evs ++ post).
  rewrite !taken_app, !echoed_app, Ht1, He1, Ht2, He2, !app_nil_r.
  cbn [app]. split; [|split; [exact Hecho|]].
  - rewrite Hpost, Hlog, Hpre. now rewrite <- !app_assoc.
  - rewrite Hrx2, <- Hrx1. exact Hrx.
Qed.

(** X4.  write: whatever the console gives and the storage does, the
    characters the handler echoes are the characters it has taken from
    the console, in the same order, except that a cancel symbol taken
    last is not echoed; and what it has taken is the front of the console
    input, the rest is left for the next reader. *)
Theorem write_echoes_input (path : string) (w : World) :
  echoes w (storage_cli_write path w).
Proof.
  unfold storage_cli_write. destruct w as [rx st rs hs os lg]. run.
  assert (Hfail : forall e : FS_Error,
            echoes
              {| cli_rx := rx; storage := st; records := rs; handles := hs;
                 opened := os; log := lg |}
              (Done tt
                 {| cli_rx := rx; storage := st; records := rs;
                    handles := Nat.pred (S hs); opened := os;
                    log := ((((((lg ++ [RecordOpen]) ++ [FileAlloc])
                               ++ [FileOpen path FSAM_WRITE FSOM_OPEN_APPEND e])
                              ++ [error_event e]) ++ [FileClose false])
                            ++ [FileFree]) ++ [RecordClose] |})).
  { intro e. eexists. split; [cbn [world_of log]; rewrite <- !app_assoc;
                               reflexivity|].
    cbn. auto. }
  destruct (fault st path) eqn:Hfault; try (run; apply Hfail).
  clear Hfail.
  destruct (files st path) as [content|] eqn:Hfile; run;
    match goal with
    | |- context [storage_cli_write_loop ?f ?fl ?b ?i ?w1] =>
        pose proof (@write_loop_echoes f fl b i w1 (repeat_length _ _)) as H;
        destruct (storage_cli_write_loop f fl b i w1)
          as [file' w'|w'|w'|w'] eqn:Hloop
    end;
    try (eapply echoes_frame with (post := []);
         [exact H|cbn [log]; rewrite <- !app_assoc; reflexivity|reflexivity
         |cbn [world_of]; now rewrite app_nil_r|reflexivity
         |reflexivity|reflexivity|reflexivity|reflexivity]);
    (destruct w' as [rx' st' rs' hs' os' lg'];
     destruct file' as [[p|] pos e es]; run;
     (eapply echoes_frame with (post := [_; _; _; _]);
      [exact H|cbn [log]; rewrite <- !app_assoc; reflexivity|reflexivity
      |cbn [world_of log]; rewrite <- !app_assoc; reflexivity|reflexivity
      |reflexivity|reflexivity|reflexivity|reflexivity])).
Qed.

(** ** Write until cancel: a volume that is full *)

(** A symbol that does not cancel and does not fill the block: it is
    stored and echoed, nothing is written. *)
Lemma write_loop_step_pending (symbol : byte) (fuel : nat) (file : File)
    (buffer : list byte) (read_index : Z) (w : World) (rest : list byte) :
  cli_rx w = symbol :: rest ->
  symbol <> CliSymbolAsciiETX ->
  length buffer = 512%nat ->
  (read_index mod 512 < 511)%Z ->
  storage_cli_write_loop (S fuel) file buffer read_index w
  = storage_cli_write_loop fuel file
      (store (Z.to_nat (read_index mod 512)) symbol buffer)
      (uint32 (read_index + 1))
      (emits (typed_events [symbol]) (set_cli_rx rest w)).
Proof.
  intros Hrx Hsym Hbuf Hidx.
  pose proof (Z.mod_pos_bound read_index 512 ltac:(lia)) as Hb.
  cbn [storage_cli_write_loop]. unfold bind at 1. unfold cli_getc.
  rewrite Hrx. cbv beta iota.
  replace (Byte.eqb symbol CliSymbolAsciiETX) with false.
  2:{ destruct (Byte.eqb symbol CliSymbolAsciiETX) eqn:E; [|reflexivity].
      apply Byte.byte_dec_bl in E. contradiction. }
  rewrite nth_store by lia. rewrite next_index.
  replace (read_index mod 512 =? 511)%Z with false
    by (symmetry; apply Z.eqb_neq; lia).
  replace (read_index mod 512 + 1 =? 0)%Z with false
    by (symmetry; apply Z.eqb_neq; lia).
  unfold bind, printf, emit. rewrite emits_emits. reflexivity.
Qed.

Lemma typed_events_app (a b : list byte) :
  typed_events (a ++ b) = typed_events a ++ typed_events b.
Proof. unfold typed_events. apply flat_map_app. Qed.

Lemma set_cli_rx_emits (rx : list byte) (evs : list Event) (w : World) :
  set_cli_rx rx (emits evs w) = emits evs (set_cli_rx rx w).
Proof. reflexivity. Qed.

Lemma set_cli_rx_twice (rx rx' : list byte) (w : World) :
  set_cli_rx rx (set_cli_rx rx' w) = set_cli_rx rx w.
Proof. reflexivity. Qed.

(** Symbols that stay within the block: they are stored and echoed one
    after the other, and the file is not touched. *)
Lemma write_loop_pending :
  forall (symbols : list byte) (fuel : nat) (file : File)
         (buffer : list byte) (read_index : Z) (w : World)
         (rest : list byte),
    cli_rx w = symbols ++ rest ->
    Forall (fun symbol => symbol <> CliSymbolAsciiETX) symbols ->
    length buffer = 512%nat ->
    (read_index mod 512 + Z.of_nat (length symbols) < 512)%Z ->
    exists buffer' read_index',
      storage_cli_write_loop (length symbols + fuel) file buffer read_index w
      = storage_cli_write_loop fuel file buffer' read_index'
          (emits (typed_events symbols) (set_cli_rx rest w))
      /\ length buffer' = 512%nat
      /\ (read_index' mod 512
          = read_index mod 512 + Z.of_nat (length symbols))%Z
      /\ firstn (Z.to_nat (read_index' mod 512)) buffer'
         = firstn (Z.to_nat (read_index mod 512)) buffer ++ symbols.
Proof.
  induction symbols as [|symbol symbols IH];
    intros fuel file buffer read_index w rest Hrx Hsym Hbuf Hidx.
  - exists buffer, read_index. cbn [length app Nat.add typed_events flat_map].
    rewrite emits_nil, Z.add_0_r, app_nil_r.
    repeat split; try assumption.
    f_equal. destruct w; cbn in *. now subst.
  - inversion Hsym as [|? ? Hne Hsym']; subst.
    pose proof (Z.mod_pos_bound read_index 512 ltac:(lia)) as Hb.
    cbn [length app] in *. rewrite Nat2Z.inj_succ in Hidx.
    assert (Hnext : (uint32 (read_index + 1) mod 512
                     = read_index mod 512 + 1)%Z).
    { rewrite next_index.
      replace (read_index mod 512 =? 511)%Z with false
        by (symmetry; apply Z.eqb_neq; lia).
      reflexivity. }
    destruct (IH fuel file
                (store (Z.to_nat (read_index mod 512)) symbol buffer)
                (uint32 (read_index + 1))
                (emits (typed_events [symbol])
                   (set_cli_rx (symbols ++ rest) w)) rest)
      as [buffer' [read_index' [Hrun [Hbuf' [Hidx' Hdata]]]]];
      [reflexivity|exact Hsym'|now rewrite length_store|lia|].
    exists buffer', read_index'.
    split.
    { cbn [Nat.add].
      rewrite (@write_loop_step_pending symbol (length symbols + fuel) file
                 buffer read_index w (symbols ++ rest) Hrx Hne Hbuf
                 ltac:(lia)).
      rewrite Hrun. f_equal.
      rewrite set_cli_rx_emits, set_cli_rx_twice, emits_emits.
      reflexivity. }
    split; [exact Hbuf'|]. split; [lia|].
    rewrite Hdata, Hnext.
    replace (Z.to_nat (read_index mod 512 + 1))
      with (S (Z.to_nat (read_index mod 512))) by lia.
    rewrite firstn_store by lia. now rewrite <- app_assoc.
Qed.

(** The symbol that fills the block, on a volume that does not take the
    whole block: what fits is written, the error of the handle is printed
    and the loop ends. *)
Lemma write_loop_block_short (path : string) (symbol : byte) (fuel : nat)
    (file : File) (buffer : list byte) (read_index : Z) (w : World)
    (rest content : list byte) :
  cli_rx w = symbol :: rest ->
  symbol <> CliSymbolAsciiETX ->
  length buffer = 512%nat ->
  (read_index mod 512 = 511)%Z ->
  f_open file = Some path ->
  f_pos file = length content ->
  files (storage w) path = Some content ->
  (space (storage w) < 512)%nat ->
  let block := firstn 511 buffer ++ [symbol] in
  exists file' w' error,
    storage_cli_write_loop (S fuel) file buffer read_index w = Done file' w'
    /\ cli_rx w' = rest
    /\ f_open file' = Some path
    /\ files (storage w') path
       = Some (content ++ firstn (space (storage w)) block)
    /\ log w'
       = log w
         ++ typed_events [symbol]
         ++ [ FileWrite block (Z.of_nat (space (storage w)));
              error_event error ]
    /\ records w' = records w /\ handles w' = handles w
    /\ opened w' = opened w.
Proof.
  intros Hrx Hsym Hbuf Hidx Hopen Hpos Hfiles Hroom block.
  cbn [storage_cli_write_loop]. unfold bind at 1. unfold cli_getc.
  rewrite Hrx. cbv beta iota.
  replace (Byte.eqb symbol CliSymbolAsciiETX) with false.
  2:{ destruct (Byte.eqb symbol CliSymbolAsciiETX) eqn:E; [|reflexivity].
      apply Byte.byte_dec_bl in E. contradiction. }
  rewrite Hidx. rewrite nth_store by (rewrite Hbuf; lia).
  rewrite next_index, Hidx. change (511 =? 511)%Z with true. cbv iota.
  change (0 =? 0)%Z with true. cbv iota.
  assert (Hblock : firstn (Z.to_nat 512) (store (Z.to_nat 511) symbol buffer)
                   = block).
  { rewrite firstn_all2 by (rewrite length_store; lia).
    rewrite <- (@firstn_all2 _ 512 (store (Z.to_nat 511) symbol buffer))
      by (rewrite length_store; lia).
    change 512%nat with (S (Z.to_nat 511)) at 1.
    rewrite firstn_store by lia. reflexivity. }
  rewrite Hblock.
  assert (Hlen : length block = 512%nat).
  { subst block. rewrite length_app, length_firstn. cbn [length]. lia. }
  destruct w as [rx st rs hs os lg]. destruct file as [fo pos e es].
  cbn [cli_rx storage f_open f_pos log records handles opened] in *.
  subst rx fo pos.
  assert (Hput : length (firstn (space st) block) = space st)
    by (rewrite length_firstn; lia).
  run. rewrite Hfiles. run. rewrite !append_at_end, !Hput.
  replace (Z.of_nat (space st) =? 512)%Z with false
    by (symmetry; apply Z.eqb_neq; lia).
  run. eexists. eexists. eexists. split; [reflexivity|].
  cbn [cli_rx storage f_open log records handles opened].
  rewrite files_put_same.
  repeat split; try reflexivity. same_world.
Qed.

(** X5.  write on a volume that is full: when the volume does not take
    the whole of the first block of 512 symbols, the handler has echoed
    the 512 symbols, writes what fits, prints an error line and ends the
    session without waiting for the cancel symbol: it returns, the
    console input after the block is left unread, and the file has grown
    by the part of the block that fitted. *)
Theorem write_stops_when_volume_full (path : string) (w : World)
    (symbols rest : list byte) :
  fault (storage w) path = FSE_OK ->
  cli_rx w = symbols ++ rest ->
  length symbols = 512%nat ->
  Forall (fun symbol => symbol <> CliSymbolAsciiETX) symbols ->
  (space (storage w) < 512)%nat ->
  let old := match files (storage w) path with Some c => c | None => [] end in
  let room := space (storage w) in
  exists w' error,
    storage_cli_write path w = Done tt w'
    /\ files (storage w') path = Some (old ++ firstn room symbols)
    /\ cli_rx w' = rest
    /\ log w'
       = log w
         ++ [ RecordOpen; FileAlloc;
              FileOpen path FSAM_WRITE FSOM_OPEN_APPEND FSE_OK;
              Printf
                "Just write your text data. New line by Ctrl+Enter, exit by Ctrl+C.\r\n"
                [] ]
         ++ typed_events symbols
         ++ [ FileWrite symbols (Z.of_nat room); error_event error;
              Printf "\r\n" []; FileClose true; FileFree; RecordClose ]
    /\ records w' = records w /\ handles w' = handles w
    /\ opened w' = opened w.
Proof.
  intros Hfault Hrx Hlen Hsym Hroom old room.
  destruct (storage_cli_write_unfold path w Hfault) as [s1 [Hf1 [Hs1 Hrun]]].
  fold old in Hf1, Hrun. rewrite Hrun. clear Hrun.
  assert (Hne : symbols <> []) by (intros ->; discriminate).
  destruct (exists_last Hne) as [front [final Hsplit]]. subst symbols.
  rewrite length_app in Hlen. cbn [length] in Hlen.
  apply Forall_app in Hsym. destruct Hsym as [Hfront Hfinal].
  inversion Hfinal as [|? ? Hcancel _]; subst. clear Hfinal.
  rewrite <- app_assoc in Hrx. cbn [app] in Hrx.
  unfold write_session. rewrite Hrx.
  replace (S (length (front ++ final :: rest)))
    with (length front + S (S (length rest)))%nat
    by (rewrite length_app; cbn [length]; lia).
  match goal with
  | |- context [storage_cli_write_loop _ ?f ?b 0%Z ?w1] =>
      destruct (@write_loop_pending front (S (S (length rest))) f b 0%Z w1
                  (final :: rest) Hrx Hfront (repeat_length _ _))
        as [buffer1 [index1 [Hrun [Hbuf1 [Hidx1 Hdata1]]]]];
        [change (0 mod 512)%Z with 0%Z; lia|]
  end.
  rewrite Hrun. clear Hrun.
  change (0 mod 512)%Z with 0%Z in Hidx1, Hdata1.
  change (Z.to_nat 0) with 0%nat in Hdata1. cbn [firstn app] in Hdata1.
  assert (Hidx : (index1 mod 512 = 511)%Z) by lia.
  rewrite Hidx in Hdata1. change (Z.to_nat 511) with 511%nat in Hdata1.
  match goal with
  | |- context [storage_cli_write_loop _ ?f buffer1 index1 ?w2] =>
      destruct (@write_loop_block_short path final (S (length rest)) f
                  buffer1 index1 w2 rest old eq_refl Hcancel Hbuf1 Hidx
                  eq_refl eq_refl Hf1)
        as [file2 [w2' [error [Hrun [Hrx2 [Hopen2 [Hfiles2 [Hlog2
             [Hr2 [Hh2 Ho2]]]]]]]]]];
        [cbn [storage emits set_cli_rx set_opened set_handles set_records
              set_storage]; lia|]
  end.
  rewrite Hrun. clear Hrun. rewrite Hdata1 in Hfiles2, Hlog2.
  destruct w as [rx st rs hs os lg].
  destruct w2' as [rx2 st2 rs2 hs2 os2 lg2].
  destruct file2 as [fo2 pos2 e2 es2].
  cbn [cli_rx storage records handles opened log f_open
       emits set_cli_rx set_opened set_handles set_records set_storage]
    in *.
  subst. run. eexists. exists error. split; [reflexivity|].
  cbn [cli_rx storage records handles opened log].
  rewrite Hfiles2, Hs1. subst room.
  repeat split. rewrite typed_events_app. same_world.
Qed.

(** ** Write: the files it leaves alone *)

Lemma only_file_refl (path : string) (s : Storage) : only_file path s s.
Proof. split; [reflexivity|intros; reflexivity]. Qed.

Lemma only_file_trans (path : string) (s1 s2 s3 : Storage) :
  only_file path s1 s2 -> only_file path s2 s3 -> only_file path s1 s3.
Proof.
  intros [Hf12 Hq12] [Hf23 Hq23]. split; [congruence|].
  intros q Hq. rewrite Hq23, Hq12; auto.
Qed.

Lemma only_file_put (path : string) (content : list byte) (room : nat)
    (s : Storage) :
  only_file path s (put_file path content room s).
Proof.
  split; [reflexivity|]. intros q Hq. cbn [files put_file].
  apply String.eqb_neq in Hq. now rewrite Hq.
Qed.

Lemma write_loop_only_file (path : string) (fuel : nat) :
  forall (file : File) (buffer : list byte) (read_index : Z) (w : World),
    f_open file = Some path \/ f_open file = None ->
    only_file path (storage w)
      (storage
         (world_of (storage_cli_write_loop fuel file buffer read_index w))).
Proof.
  induction fuel as [|fuel IH]; intros file buffer read_index w Hopen.
  { apply only_file_refl. }
  cbn [storage_cli_write_loop]. unfold bind at 1. unfold cli_getc.
  destruct w as [rx st rs hs os lg]. cbn [cli_rx storage].
  destruct rx as [|symbol rx]; [apply only_file_refl|].
  cbv beta iota.
  set (buffer' := store (Z.to_nat (read_index mod 512)) symbol buffer).
  set (echo := nth (Z.to_nat (read_index mod 512)) buffer' x00).
  assert (Hwrite : forall (data : list byte) (w1 : World) (k : Z * File -> M File),
            storage w1 = st ->
            (forall r w2,
               f_open (snd r) = Some path \/ f_open (snd r) = None ->
               only_file path (storage w2) (storage (world_of (k r w2)))) ->
            only_file path st
              (storage (world_of ((r <- storage_file_write file data ;; k r) w1)))).
  { intros data w1 k Hst Hk. unfold bind, storage_file_write.
    destruct w1 as [rx1 st1 rs1 hs1 os1 lg1]. cbn [storage] in Hst. subst st1.
    destruct Hopen as [Hopen|Hopen]; rewrite Hopen; cbv beta iota zeta.
    - eapply only_file_trans; [|apply Hk; left; reflexivity].
      apply only_file_put.
    - apply Hk. right. reflexivity. }
  assert (Hstore :
    only_file path st
      (storage
         (world_of
            ((printf "%c" [ArgChar echo] ;;
              if (uint32 (read_index + 1) mod 512 =? 0)%Z then
                ' (written_size, file0) <-
                  storage_file_write file (firstn (Z.to_nat 512) buffer') ;;
                if negb (written_size =? 512)%Z then
                  storage_cli_print_error (storage_file_get_error file0) ;;
                  ret file0
                else
                  storage_cli_write_loop fuel file0 buffer'
                    (uint32 (read_index + 1))
              else
                storage_cli_write_loop fuel file buffer'
                  (uint32 (read_index + 1)))
               (emit (CliGetc symbol)
                  (set_cli_rx rx
                     {| cli_rx := symbol :: rx; storage := st; records := rs;
                        handles := hs; opened := os; log := lg |})))))).
  { unfold bind at 1. unfold printf. cbv beta iota.
    destruct (uint32 (read_index + 1) mod 512 =? 0)%Z.
    - apply Hwrite; [reflexivity|].
      intros [written_size file0] w2 Hopen0. cbn [snd] in Hopen0.
      destruct (negb (written_size =? 512)%Z);
        [destruct w2; apply only_file_refl|now apply IH].
    - exact (IH file buffer' (uint32 (read_index + 1)) _ Hopen). }
  destruct (Byte.eqb symbol CliSymbolAsciiETX); [|exact Hstore].
  destruct (0 <? read_index mod 512)%Z; [|exact Hstore].
  apply Hwrite; [reflexivity|].
  intros [written_size file0] w2 Hopen0.
  destruct (negb (written_size =? read_index mod 512)%Z);
    destruct w2; apply only_file_refl.
Qed.

Lemma storage_cli_write_only_file (path : string) (w : World) :
  only_file path (storage w) (storage (world_of (storage_cli_write path w))).
Proof.
  unfold storage_cli_write. destruct w as [rx st rs hs os lg]. run.
  destruct (fault st path) eqn:Hfault; try (run; apply only_file_refl).
  destruct (files st path) as [content|] eqn:Hfile; run;
    match goal with
    | |- context [storage_cli_write_loop ?f ?fl ?b ?i ?w1] =>
        pose proof (@write_loop_only_file path f fl b i w1
                      (or_introl eq_refl)) as H;
        destruct (storage_cli_write_loop f fl b i w1)
          as [file' w'|w'|w'|w']
    end;
    cbn [world_of storage] in H;
    try (destruct w' as [rx' st' rs' hs' os' lg'];
         try (destruct file' as [[p|] pos e es]); run;
         cbn [storage] in H;
         first [exact H
               |eapply only_file_trans; [apply only_file_put|exact H]]).
Qed.

Lemma storage_cli_write_chunk_only_file (path args : string) (w : World) :
  only_file path (storage w)
    (storage (world_of (storage_cli_write_chunk path args w))).
Proof.
  unfold storage_cli_write_chunk. destruct w as [rx st rs hs os lg].
  destruct (sscanf_lu args) as [n|]; [|usage; apply only_file_refl].
  run.
  destruct (fault st path) eqn:Hfault; try (run; apply only_file_refl).
  destruct (files st path) as [content|] eqn:Hfile; run;
    (destruct (uint32 n =? 0)%Z; run;
     [first [apply only_file_refl|apply only_file_put]|]);
    match goal with
    | |- context [(?a =? uint32 n)%Z] => destruct (a =? uint32 n)%Z
    end; run;
    first [apply only_file_put
          |eapply only_file_trans; apply only_file_put].
Qed.

(** X6.  write and write_chunk change no file but the one at the path:
    whatever the console gives, whatever the chunk size and however the
    call ends, every other file of the storage is as it was, and so are
    the faults of all paths. *)
Theorem write_touches_one_file (path args : string) (w : World) :
  only_file path (storage w) (storage (world_of (storage_cli_write path w)))
  /\ only_file path (storage w)
       (storage (world_of (storage_cli_write_chunk path args w))).
Proof.
  split; [apply storage_cli_write_only_file
         |apply storage_cli_write_chunk_only_file].
Qed.

(** ** Round trips *)

Lemma new_events_emits {A} (a : A) (evs : list Event) (w : World) :
  new_events w (Done a (emits evs w)) = evs.
Proof.
  unfold new_events. cbn [world_of log emits].
  now rewrite skipn_app, skipn_all, Nat.sub_diag.
Qed.

(** X7.  write, away from a block boundary: k symbols, k not a multiple
    of 512, none of them the cancel symbol, then the cancel symbol: the
    handler returns, the file has grown by exactly these symbols (a
    missing file is created), the cancel symbol is consumed and what
    follows it on the console is left unread, and every resource taken
    is given back.  (The volume has room for the symbols and one more
    block.) *)
Theorem write_appends_typed_symbols (path : string) (w : World)
    (symbols rest : list byte) :
  fault (storage w) path = FSE_OK ->
  cli_rx w = symbols ++ CliSymbolAsciiETX :: rest ->
  Forall (fun symbol => symbol <> CliSymbolAsciiETX) symbols ->
  (Z.of_nat (length symbols) mod 512 <> 0)%Z ->
  (length symbols + 512 <= space (storage w))%nat ->
  let old := match files (storage w) path with Some c => c | None => [] end in
  exists w',
    storage_cli_write path w = Done tt w'
    /\ files (storage w') path = Some (old ++ symbols)
    /\ cli_rx w' = rest
    /\ records w' = records w /\ handles w' = handles w
    /\ opened w' = opened w.
Proof.
  intros Hfault Hrx Hsym Hk Hroom.
  exact (@write_round_trip path w symbols rest Hfault Hrx Hsym Hk Hroom).
Qed.

(** X8.  write, then read: after a write session that ends away from a
    block boundary, read on the same path prints as the size the length
    of the old content and the typed symbols together (modulo 2^32), and
    the characters it prints are the old content followed by the typed
    symbols: what was typed comes back as it was typed. *)
Theorem write_then_read (path : string) (w : World)
    (symbols rest : list byte) :
  fault (storage w) path = FSE_OK ->
  cli_rx w = symbols ++ CliSymbolAsciiETX :: rest ->
  Forall (fun symbol => symbol <> CliSymbolAsciiETX) symbols ->
  (Z.of_nat (length symbols) mod 512 <> 0)%Z ->
  (length symbols + 512 <= space (storage w))%nat ->
  let old := match files (storage w) path with Some c => c | None => [] end in
  exists w' w'',
    storage_cli_write path w = Done tt w'
    /\ storage_cli_read path w' = Done tt w''
    /\ In (Printf "Size: %lu\r\n"
             [ArgNum (Z.of_nat (length (old ++ symbols)) mod 2 ^ 32)])
          (new_events w' (storage_cli_read path w'))
    /\ echoed (new_events w' (storage_cli_read path w')) = old ++ symbols
    /\ cli_rx w'' = rest.
Proof.
  intros Hfault Hrx Hsym Hk Hroom old.
  destruct (@write_round_trip path w symbols rest Hfault Hrx Hsym Hk Hroom)
    as [w' [Hrun [Hfiles [Hrx' _]]]].
  fold old in Hfiles.
  assert (Hfault' : fault (storage w') path = FSE_OK).
  { pose proof (storage_cli_write_only_file path w) as [Hf _].
    rewrite Hrun in Hf. cbn [world_of] in Hf. now rewrite Hf. }
  pose proof (storage_cli_read_run path w' Hfault' Hfiles) as Hread.
  exists w'. eexists. split; [exact Hrun|]. split; [exact Hread|].
  rewrite Hread, new_events_emits. split; [|split].
  - rewrite uint32_uint64. cbn [app In]. tauto.
  - rewrite !echoed_app, echoed_read_events. cbn. apply app_nil_r.
  - exact Hrx'.
Qed.

(** What [storage_cli_write_chunk] does with a chunk size that scans and
    is not zero, on a file that opens. *)
Lemma storage_cli_write_chunk_run (path args : string) (n : Z) (w : World) :
  sscanf_lu args = Some n ->
  uint32 n <> 0%Z ->
  fault (storage w) path = FSE_OK ->
  let requested := uint32 n in
  let old := match files (storage w) path with Some c => c | None => [] end in
  let read_bytes := firstn (Z.to_nat requested) (cli_rx w) in
  let written := firstn (space (storage w)) read_bytes in
  let written_size := Z.of_nat (length written) in
  let error_line :=
    error_event
      (if (length written <? length read_bytes)%nat then FSE_INTERNAL
       else FSE_OK) in
  let flag := if (written_size =? requested)%Z then [] else [error_line] in
  exists w',
    storage_cli_write_chunk path args w = Done tt w'
    /\ log w'
       = log w
         ++ [ RecordOpen; FileAlloc;
              FileOpen path FSAM_WRITE FSOM_OPEN_APPEND FSE_OK;
              Printf "Ready\r\n" [];
              CliRead requested read_bytes;
              FileWrite read_bytes written_size ]
         ++ flag ++ [FileClose true; FileFree; RecordClose]
    /\ files (storage w') path = Some (old ++ written)
    /\ cli_rx w' = skipn (Z.to_nat requested) (cli_rx w).
Proof.
  intros Hscan Hn Hfault requested old read_bytes written written_size
    error_line flag.
  unfold storage_cli_write_chunk. rewrite Hscan.
  destruct w as [rx st rs hs os lg].
  cbn [cli_rx storage log] in *. run. rewrite Hfault.
  pose proof Hn as Hn'. apply Z.eqb_neq in Hn'. fold requested in Hn'.
  destruct (files st path) as [content|] eqn:Hold;
    repeat (progress (run; rewrite ?files_put_same, ?space_put, ?Hold));
    fold requested; rewrite Hn';
    repeat (progress (run; rewrite ?files_put_same, ?space_put, ?Hold));
    fold read_bytes; cbn [length] in *;
    fold written; fold written_size;
    subst flag; destruct (written_size =? requested)%Z; run;
    (eexists; split; [reflexivity|]; cbn [log storage cli_rx];
     split; [same_world|];
     split; [rewrite files_put_same; f_equal; subst old;
             first [apply append_at_end|exact (append_at_end [] written)]|];
     reflexivity).
Qed.

(** What [storage_cli_read_chunks] does with a chunk size that scans and
    is not zero, on a file that opens, when the console has a character
    for every block. *)
Lemma storage_cli_read_chunks_run (path args : string) (n : Z) (w : World)
    (content acks rest : list byte) :
  sscanf_lu args = Some n ->
  fault (storage w) path = FSE_OK ->
  files (storage w) path = Some content ->
  (Z.of_nat (length content) < 2 ^ 64)%Z ->
  (0 < uint32 n)%Z ->
  cli_rx w = acks ++ rest ->
  length acks = length (chunks (Z.to_nat (uint32 n)) content) ->
  storage_cli_read_chunks path args w
  = Done tt
      (emits
         ([ RecordOpen; FileAlloc;
            FileOpen path FSAM_READ FSOM_OPEN_EXISTING FSE_OK;
            FileSize (Z.of_nat (length content));
            Printf "Size: %llu\r\n" [ArgNum (Z.of_nat (length content))] ]
          ++ transfer_events (uint32 n) acks
               (chunks (Z.to_nat (uint32 n)) content)
          ++ [Printf "\r\n" []; FileClose true; FileFree; RecordClose])
         (set_cli_rx rest w)).
Proof.
  intros Hscan Hfault Hfiles Hsize Hpos Hrx Hlen.
  assert (HL : uint64 (Z.of_nat (length content))
               = Z.of_nat (length content)).
  { unfold uint64. apply Z.mod_small. lia. }
  unfold storage_cli_read_chunks. rewrite Hscan.
  destruct w as [rx st rs hs os lg]. cbn [storage cli_rx] in *.
  run. rewrite Hfault, Hfiles. run. rewrite Hfiles. run.
  replace (uint32 n =? 0)%Z with false
    by (symmetry; apply Z.eqb_neq; lia).
  run. rewrite HL.
  match goal with
  | |- context [storage_cli_read_chunks_loop ?f ?fl _ _ ?w1] =>
      destruct (@read_chunks_loop_spec path content (uint32 n) Hpos
                  Hsize acks 0%nat f w1 rest FSE_OK [] Hfiles Hrx)
        as [file' [Hrun Hopen]]
  end.
  { exact Hlen. }
  { subst rx. rewrite length_app. lia. }
  cbn [skipn] in Hrun. rewrite Hrun.
  destruct file' as [[p|] pos e es]; [|discriminate]. run. same_world.
Qed.

(** X9.  write_chunk, then read_chunks: a chunk of the announced size
    that the volume has room for is appended without an error line, and
    read_chunks on the same path, with any block size n > 0 and one
    console character for each of its ceil(L/n) rounds, puts out the old
    content followed by the bytes of the chunk: what was sent comes back
    byte for byte. *)
Theorem write_chunk_then_read_chunks (path size_args block_args : string)
    (n m : Z) (w : World) (data acks rest : list byte) :
  sscanf_lu size_args = Some n ->
  sscanf_lu block_args = Some m ->
  fault (storage w) path = FSE_OK ->
  cli_rx w = data ++ acks ++ rest ->
  Z.of_nat (length data) = uint32 n ->
  data <> [] ->
  (length data <= space (storage w))%nat ->
  (0 < uint32 m)%Z ->
  let old := match files (storage w) path with Some c => c | None => [] end in
  (Z.of_nat (length (old ++ data)) < 2 ^ 64)%Z ->
  length acks = length (chunks (Z.to_nat (uint32 m)) (old ++ data)) ->
  exists w1 w2,
    storage_cli_write_chunk path size_args w = Done tt w1
    /\ new_events w (storage_cli_write_chunk path size_args w)
       = [ RecordOpen; FileAlloc;
           FileOpen path FSAM_WRITE FSOM_OPEN_APPEND FSE_OK;
           Printf "Ready\r\n" [];
           CliRead (uint32 n) data;
           FileWrite data (uint32 n);
           FileClose true; FileFree; RecordClose ]
    /\ storage_cli_read_chunks path block_args w1 = Done tt w2
    /\ put_out (new_events w1 (storage_cli_read_chunks path block_args w1))
       = old ++ data
    /\ cli_rx w2 = rest.
Proof.
  intros Hn Hm Hfault Hrx Hlen Hdata Hroom Hpos old Hsize Hacks.
  assert (Hrequested : uint32 n <> 0%Z).
  { rewrite <- Hlen. destruct data; [now elim Hdata|]. cbn [length]. lia. }
  destruct (@storage_cli_write_chunk_run path size_args n w Hn Hrequested
              Hfault)
    as [w1 [Hrun [Hlog [Hfiles Hrx1]]]].
  fold old in Hfiles.
  assert (Hread : firstn (Z.to_nat (uint32 n)) (cli_rx w) = data).
  { rewrite Hrx, <- Hlen, Nat2Z.id. rewrite firstn_app, Nat.sub_diag.
    rewrite firstn_all. cbn [firstn]. apply app_nil_r. }
  assert (Hwritten : firstn (space (storage w)) data = data)
    by (now apply firstn_all2).
  rewrite Hread, Hwritten in *. rewrite Hlen, Z.eqb_refl in Hlog.
  cbn [app] in Hlog.
  assert (Hrx1' : cli_rx w1 = acks ++ rest).
  { rewrite Hrx1, Hrx, <- Hlen, Nat2Z.id.
    rewrite skipn_app, Nat.sub_diag, skipn_all. reflexivity. }
  assert (Hfault1 : fault (storage w1) path = FSE_OK).
  { pose proof (storage_cli_write_chunk_only_file path size_args w)
      as [Hf _].
    rewrite Hrun in Hf. cbn [world_of] in Hf. now rewrite Hf. }
  pose proof (@storage_cli_read_chunks_run path block_args m w1
                (old ++ data) acks rest Hm Hfault1 Hfiles Hsize Hpos Hrx1'
                Hacks) as Hrun2.
  exists w1. eexists. split; [exact Hrun|].
  split.
  { unfold new_events. rewrite Hrun. cbn [world_of]. rewrite Hlog.
    now rewrite skipn_app, skipn_all, Nat.sub_diag. }
  split; [exact Hrun2|].
  split; [|reflexivity].
  rewrite Hrun2.
  unfold new_events. cbn [world_of log emits set_cli_rx].
  rewrite skipn_app, skipn_all, Nat.sub_diag. cbn [skipn].
  rewrite app_nil_l, !put_out_app, put_out_transfer by exact Hacks.
  rewrite chunks_concat by lia. cbn. apply app_nil_r.
Qed.

(** ** Read in chunks: the console paces the transfer *)

Lemma firstn_plus {A} (a b : nat) :
  forall l : list A, firstn (a + b) l = firstn a l ++ firstn b (skipn a l).
Proof.
  induction a as [|a IH]; intros [|x l]; cbn [Nat.add firstn skipn app];
    try reflexivity.
  - now rewrite firstn_nil.
  - now rewrite IH.
Qed.

(** The first [k] blocks are the first [k * n] bytes. *)
Lemma concat_firstn_chunks (n : nat) :
  (0 < n)%nat ->
  forall (k : nat) (data : list byte),
    concat (firstn k (chunks n data)) = firstn (k * n) data.
Proof.
  intros Hn k. induction k as [|k IH]; intro data; [reflexivity|].
  destruct data as [|x data]; [rewrite !firstn_nil; reflexivity|].
  rewrite chunks_cons by exact Hn. cbn [firstn concat Nat.mul].
  rewrite IH. symmetry. apply firstn_plus.
Qed.

Lemma put_out_transfer_short (buffer_size : Z) (blocks : list (list byte)) :
  forall acks,
    (length acks <= length blocks)%nat ->
    put_out (transfer_events buffer_size acks blocks)
    = concat (firstn (length acks) blocks).
Proof.
  induction blocks as [|block blocks IH]; intros [|ack acks] Hlen;
    try reflexivity.
  unfold transfer_events. cbn [combine flat_map fst snd concat length firstn].
  rewrite put_out_app. unfold chunk_events. rewrite put_out_app.
  rewrite put_out_putchars. simpl put_out at 1. cbn [app].
  f_equal. apply IH. cbn [length] in Hlen. lia.
Qed.

(** The loop with fewer characters on the console than there are blocks
    to read: a block for each character, then the prompt, and the loop
    waits. *)
Lemma read_chunks_loop_blocked (path : string) (content : list byte)
    (buffer_size : Z) :
  (0 < buffer_size)%Z ->
  (Z.of_nat (length content) < 2 ^ 64)%Z ->
  forall (acks : list byte) (pos fuel : nat) (w : World)
         (e : FS_Error) (es : list DirEntry),
    files (storage w) path = Some content ->
    cli_rx w = acks ->
    (length acks
     < length (chunks (Z.to_nat buffer_size) (skipn pos content)))%nat ->
    (length acks < fuel)%nat ->
    storage_cli_read_chunks_loop fuel
      {| f_open := Some path; f_pos := pos; f_error := e; f_entries := es |}
      buffer_size (Z.of_nat (length (skipn pos content))) w
    = Blocked
        (emits
           (transfer_events buffer_size acks
              (chunks (Z.to_nat buffer_size) (skipn pos content))
            ++ [Printf "\r\nReady?\r\n" []])
           (set_cli_rx [] w)).
Proof.
  intros Hbs Hsize.
  assert (Hn : (0 < Z.to_nat buffer_size)%nat) by lia.
  induction acks as [|ack acks IH];
    intros pos fuel w e es Hfiles Hrx Hlen Hfuel;
    (destruct fuel as [|fuel]; [simpl in Hfuel; lia|]);
    (destruct (skipn pos content) as [|x data] eqn:Hrem;
     [cbn in Hlen; lia|]);
    cbn [storage_cli_read_chunks_loop];
    replace (0 <? Z.of_nat (length (x :: data)))%Z with true
      by (symmetry; apply Z.ltb_lt; cbn [length]; lia);
    destruct w as [rx st rs hs os lg]; cbn [cli_rx storage] in *; subst rx.
  - run. reflexivity.
  - rewrite chunks_cons in * by exact Hn.
    run. rewrite Hfiles. run. rewrite for_each_putchar. run.
    rewrite Hrem.
    set (block := firstn (Z.to_nat buffer_size) (x :: data)) in *.
    assert (Hnext : skipn (pos + length block) content
                    = skipn (Z.to_nat buffer_size) (x :: data)).
    { subst block. rewrite <- Hrem. apply skipn_block. }
    assert (Hsize' :
      uint64 (Z.of_nat (length (x :: data)) - Z.of_nat (length block))
      = Z.of_nat (length (skipn (pos + length block) content))).
    { rewrite Hnext. subst block.
      rewrite length_skipn, length_firstn.
      assert (length (x :: data) <= length content)%nat
        by (rewrite <- Hrem, length_skipn; lia).
      unfold uint64. rewrite Z.mod_small; lia. }
    rewrite Hsize'.
    match goal with
    | |- context [storage_cli_read_chunks_loop fuel ?f _ _ ?w2] =>
        rewrite (IH (pos + length block)%nat fuel w2 FSE_OK [] Hfiles
                   eq_refl)
    end.
    + rewrite Hnext. run.
      unfold transfer_events, chunk_events. cbn [combine flat_map fst snd].
      f_equal. f_equal. same_world.
    + rewrite Hnext. cbn [length] in Hlen. lia.
    + cbn [length] in Hfuel. lia.
Qed.

(** X10.  read_chunks is paced by the console: with a block size n > 0
    and fewer characters on the console than the ceil(L/n) blocks of the
    file, the handler serves one block for each character it gets, prints
    the prompt for the next block and waits, the file still open; the
    bytes put out so far are the first k blocks, that is the first k * n
    bytes of the file, k the number of characters the console gave. *)
Theorem read_chunks_waits_for_ack (path args : string) (n : Z) (w : World)
    (content : list byte) :
  sscanf_lu args = Some n ->
  fault (storage w) path = FSE_OK ->
  files (storage w) path = Some content ->
  (Z.of_nat (length content) < 2 ^ 64)%Z ->
  (0 < uint32 n)%Z ->
  let buffer_size := uint32 n in
  let L := Z.of_nat (length content) in
  let blocks := chunks (Z.to_nat buffer_size) content in
  let acks := cli_rx w in
  (length acks < length blocks)%nat ->
  exists w',
    storage_cli_read_chunks path args w = Blocked w'
    /\ log w'
       = log w
         ++ [ RecordOpen; FileAlloc;
              FileOpen path FSAM_READ FSOM_OPEN_EXISTING FSE_OK;
              FileSize L; Printf "Size: %llu\r\n" [ArgNum L] ]
         ++ transfer_events buffer_size acks blocks
         ++ [Printf "\r\nReady?\r\n" []]
    /\ put_out (new_events w (storage_cli_read_chunks path args w))
       = firstn (length acks * Z.to_nat buffer_size) content
    /\ cli_rx w' = []
    /\ storage w' = storage w
    /\ records w' = S (records w) /\ handles w' = S (handles w)
    /\ opened w' = S (opened w).
Proof.
  intros Hscan Hfault Hfiles Hsize Hpos buffer_size L blocks acks Hshort.
  assert (HL : uint64 L = L).
  { unfold uint64. apply Z.mod_small. subst L. lia. }
  assert (Hn : (0 < Z.to_nat buffer_size)%nat) by (subst buffer_size; lia).
  assert (Hrun : storage_cli_read_chunks path args w
                 = Blocked
                     (emits
                        ([ RecordOpen; FileAlloc;
                           FileOpen path FSAM_READ FSOM_OPEN_EXISTING FSE_OK;
                           FileSize L; Printf "Size: %llu\r\n" [ArgNum L] ]
                         ++ transfer_events buffer_size acks blocks
                         ++ [Printf "\r\nReady?\r\n" []])
                        (set_opened (S (opened w))
                           (set_handles (S (handles w))
                              (set_records (S (records w))
                                 (set_cli_rx [] w)))))).
  { unfold storage_cli_read_chunks. rewrite Hscan.
    subst acks. destruct w as [rx st rs hs os lg]. cbn [storage cli_rx] in *.
    run. rewrite Hfault, Hfiles. run. rewrite Hfiles. run.
    fold buffer_size.
    replace (buffer_size =? 0)%Z with false
      by (symmetry; apply Z.eqb_neq; subst buffer_size; lia).
    run. fold L. rewrite HL.
    match goal with
    | |- context [storage_cli_read_chunks_loop ?f ?fl _ _ ?w1] =>
        pose proof (@read_chunks_loop_blocked path content buffer_size Hpos
                      Hsize rx 0%nat f w1 FSE_OK [] Hfiles eq_refl Hshort
                      ltac:(lia)) as Hloop
    end.
    cbn [skipn] in Hloop. fold L blocks in Hloop. rewrite Hloop.
    run. f_equal. same_world. }
  eexists. split; [exact Hrun|].
  rewrite Hrun. split; [reflexivity|]. split; [|repeat split].
  unfold new_events. cbn [world_of log emits set_opened set_handles
                            set_records set_cli_rx].
  rewrite skipn_app, skipn_all, Nat.sub_diag. cbn [skipn].
  rewrite app_nil_l, !put_out_app, put_out_transfer_short by lia.
  subst blocks. rewrite concat_firstn_chunks by exact Hn.
  cbn. apply app_nil_r.
Qed.

(** ** The usage text and the table *)

Lemma usage_verbs_value :
  usage_verbs
  = [ "info"; "format"; "list"; "tree"; "remove"; "read"; "read_chunks";
      "write"; "write_chunk"; "copy"; "rename"; "migrate"; "mkdir"; "md5";
      "stat"; "timestamp" ].
Proof. reflexivity. Qed.

Lemma table_verbs_value :
  map fst command_table
  = [ "info"; "format"; "list"; "tree"; "read"; "read_chunks"; "write";
      "write_chunk"; "copy"; "remove"; "rename"; "migrate"; "mkdir"; "md5";
      "stat"; "timestamp" ].
Proof. reflexivity. Qed.

Lemma table_verbs_nodup : NoDup (map fst command_table).
Proof.
  rewrite table_verbs_value.
  repeat (constructor;
          [cbn [In]; intro H;
           repeat (destruct H as [H|H]; [discriminate H|]); exact H|]).
  constructor.
Qed.

(** A verb of the table is served by its own entry. *)
Lemma table_entry_found (verb : string)
    (handler : string -> string -> M unit) :
  In (verb, handler) command_table ->
  first_match verb = Some (verb, handler).
Proof.
  unfold command_table. cbn [In]. intro Hin.
  repeat (destruct Hin as [Heq|Hin]; [injection Heq as <- <-; reflexivity|]).
  contradiction.
Qed.

(** X11.  The usage text and the dispatcher agree: the verbs the usage
    text documents are exactly the sixteen verbs the dispatcher compares,
    each of them once, so no entry of the table is shadowed by an earlier
    one; a line with a documented verb runs the handler of this verb, and
    every other verb gets the usage text. *)
Theorem usage_documents_the_table (args cmd path rest : string) (w : World) :
  read_command args = Some (cmd, path, rest) ->
  (forall verb, In verb usage_verbs <-> In verb (map fst command_table))
  /\ NoDup usage_verbs
  /\ NoDup (map fst command_table)
  /\ (forall verb handler,
        In (verb, handler) command_table ->
        first_match verb = Some (verb, handler))
  /\ (In cmd usage_verbs ->
      exists handler,
        In (cmd, handler) command_table
        /\ storage_cli args w = handler path rest w)
  /\ (~ In cmd usage_verbs ->
      storage_cli args w = Done tt (emits usage_events w)).
Proof.
  intro Hread.
  assert (Hsame : forall verb,
            In verb usage_verbs <-> In verb (map fst command_table)).
  { intro verb. rewrite usage_verbs_value, table_verbs_value.
    cbn [In]. tauto. }
  split; [exact Hsame|].
  split.
  { rewrite usage_verbs_value.
    repeat (constructor;
            [cbn [In]; intro H;
             repeat (destruct H as [H|H]; [discriminate H|]); exact H|]).
    constructor. }
  split; [exact table_verbs_nodup|].
  split; [intros verb handler; apply table_entry_found|].
  rewrite storage_cli_unfold, Hread.
  split.
  - intro Hin. apply Hsame in Hin. apply in_map_iff in Hin.
    destruct Hin as [[verb handler] [Hverb Hin]]. cbn [fst] in Hverb.
    subst verb. exists handler. split; [exact Hin|].
    now rewrite (table_entry_found Hin).
  - intro Hout.
    destruct (first_match cmd) as [[verb handler]|] eqn:Hm; [|reflexivity].
    apply first_match_in in Hm. destruct Hm as [Hin Hverb].
    cbn [fst] in Hverb. subst verb. elim Hout. apply Hsame.
    apply in_map_iff. exists (cmd, handler). split; [reflexivity|exact Hin].
Qed.

(** ** Handlers that only ask *)

Lemma read_chunks_loop_storage (fuel : nat) :
  forall (file : File) (buffer_size file_size : Z) (w : World),
    storage
      (world_of
         (storage_cli_read_chunks_loop fuel file buffer_size file_size w))
    = storage w.
Proof.
  induction fuel as [|fuel IH]; intros file buffer_size file_size w;
    [reflexivity|].
  cbn [storage_cli_read_chunks_loop].
  destruct (0 <? file_size)%Z; [|reflexivity].
  unfold bind at 1. unfold printf. cbv beta iota.
  unfold bind at 1. unfold cli_getc.
  destruct w as [rx st rs hs os lg]. cbn [cli_rx emit emits].
  destruct rx as [|ack rx]; [reflexivity|]. cbv beta iota.
  unfold bind at 1. unfold storage_file_read.
  destruct (f_open file); cbv beta iota zeta; unfold bind;
    rewrite for_each_putchar; rewrite IH; reflexivity.
Qed.

Lemma storage_cli_read_chunks_storage (path args : string) (w : World) :
  storage (world_of (storage_cli_read_chunks path args w)) = storage w.
Proof.
  unfold storage_cli_read_chunks. destruct w as [rx st rs hs os lg].
  destruct (sscanf_lu args) as [n|]; [|usage; reflexivity]. run.
  destruct (fault st path); try reflexivity.
  destruct (files st path) as [content|]; [|reflexivity].
  run. destruct (uint32 n =? 0)%Z; run; [reflexivity|].
  match goal with
  | |- context [storage_cli_read_chunks_loop ?f ?fl ?b ?i ?w1] =>
      pose proof (@read_chunks_loop_storage f fl b i w1) as H;
      destruct (storage_cli_read_chunks_loop f fl b i w1)
        as [file' w'|w'|w'|w']
  end;
    destruct w' as [rx' st' rs' hs' os' lg']; cbn [world_of storage] in H;
    try exact H.
  destruct file' as [[p|] pos e es]; run; exact H.
Qed.

(** The handlers of [query_verbs] return and add to the log; they change
    nothing else. *)
Ltac logged := run; repeat rewrite <- app_assoc; eexists; reflexivity.

Lemma table_queries (verb : string) (handler : string -> string -> M unit)
    (path args : string) (w : World) :
  In (verb, handler) command_table ->
  In verb query_verbs ->
  exists evs, handler path args w = Done tt (emits evs w).
Proof.
  unfold command_table, query_verbs. cbn [In]. intros Hin Hquery.
  repeat (destruct Hin as [Heq|Hin]; [injection Heq as <- <-|]);
    try contradiction;
    try (exfalso;
         repeat (destruct Hquery as [Hquery|Hquery]; [discriminate Hquery|]);
         exact Hquery);
    clear Hquery.
  - (* info *)
    unfold storage_cli_info. destruct w as [rx st rs hs os lg].
    destruct (String.eqb path STORAGE_INT_PATH_PREFIX).
    { run. destruct (svc_fs_info STORAGE_INT_PATH_PREFIX st) as [e [t f]].
      destruct e; run; logged. }
    destruct (String.eqb path STORAGE_EXT_PATH_PREFIX).
    { run. destruct (svc_sd_info st) as [e sd].
      destruct e; run; logged. }
    usage. logged.
  - (* list *)
    destruct (String.eqb path "/") eqn:Hroot.
    + unfold storage_cli_list. rewrite Hroot.
      destruct w. run. logged.
    + rewrite (storage_cli_list_run path w Hroot). eexists. reflexivity.
  - (* tree *)
    unfold storage_cli_tree. simpl.
    destruct (String.eqb path "/").
    + unfold bind. rewrite storage_cli_tree_walk_spec. cbv beta iota.
      rewrite storage_cli_tree_walk_spec, emits_emits.
      eexists. reflexivity.
    + rewrite storage_cli_tree_walk_spec. eexists. reflexivity.
  - (* read *)
    destruct (fault (storage w) path) eqn:Hfault;
      try (unfold storage_cli_read; destruct w as [rx st rs hs os lg];
           cbn [storage] in Hfault; run; rewrite Hfault; run;
           logged).
    destruct (files (storage w) path) as [content|] eqn:Hfiles.
    + rewrite (storage_cli_read_run path w Hfault Hfiles).
      eexists. reflexivity.
    + unfold storage_cli_read. destruct w as [rx st rs hs os lg].
      cbn [storage] in Hfault, Hfiles. run. rewrite Hfault, Hfiles. run.
      logged.
  - (* md5 *)
    unfold storage_cli_md5. destruct w as [rx st rs hs os lg]. run.
    destruct (svc_md5 path st) as [e|md5]; run; logged.
  - (* stat *)
    unfold storage_cli_stat. destruct w as [rx st rs hs os lg].
    destruct (String.eqb path "/"); [run; logged|].
    destruct (String.eqb path STORAGE_EXT_PATH_PREFIX
              || String.eqb path STORAGE_INT_PATH_PREFIX
              || String.eqb path STORAGE_ANY_PATH_PREFIX); run.
    + destruct (svc_fs_info path st) as [e [t f]].
      destruct e; run; logged.
    + destruct (svc_stat path st) as [e fileinfo].
      destruct e; run; destruct (is_dir fileinfo); logged.
  - (* timestamp *)
    rewrite storage_cli_timestamp_spec.
    destruct (svc_timestamp path (storage w)). eexists. reflexivity.
Qed.

(** X12.  The handlers that only ask: info, list, tree, read, md5, stat
    and timestamp always return, and all they change is the log: they
    take nothing from the console, leave the storage as it was and hold
    afterwards what was held before.  read_chunks, which may wait for the
    console, leaves the storage as it was however it ends. *)
Theorem queries_change_nothing (verb : string)
    (handler : string -> string -> M unit) (path args : string) (w : World) :
  In (verb, handler) command_table ->
  (In verb query_verbs ->
   exists w',
     handler path args w = Done tt w'
     /\ cli_rx w' = cli_rx w /\ storage w' = storage w
     /\ records w' = records w /\ handles w' = handles w
     /\ opened w' = opened w
     /\ exists evs, log w' = log w ++ evs)
  /\ (verb = "read_chunks" ->
      storage (world_of (handler path args w)) = storage w).
Proof.
  intro Hin. split.
  - intro Hquery.
    destruct (table_queries path args w Hin Hquery) as [evs Hrun].
    exists (emits evs w). split; [exact Hrun|].
    repeat split. exists evs. reflexivity.
  - intros ->.
    assert (Hentry : first_match "read_chunks"
                     = Some ("read_chunks", storage_cli_read_chunks))
      by reflexivity.
    rewrite (table_entry_found Hin) in Hentry. injection Hentry as ->.
    apply storage_cli_read_chunks_storage.
Qed.

(** ** Handlers that make one storage call by path *)

(** X13.  remove and mkdir: each makes exactly one storage call on the
    path, between taking and releasing the storage record; when the call
    succeeds nothing at all is printed, when it fails the one line that
    describes its error code; the storage is left as the call left it
    and the console input is not touched. *)
Theorem one_path_calls_are_silent (path : string) (w : World) :
  let outcome (call : Storage -> FS_Error * Storage)
              (ev : FS_Error -> Event) :=
    let '(error, after) := call (storage w) in
    Done tt
      (emits
         ([RecordOpen; ev error]
          ++ (if FS_Error_eqb error FSE_OK then [] else [error_event error])
          ++ [RecordClose])
         (set_storage after w)) in
  storage_cli_remove path w
  = outcome (svc_remove path) (CommonRemove path)
  /\ storage_cli_mkdir path w = outcome (svc_mkdir path) (CommonMkdir path).
Proof.
  cbv zeta. unfold storage_cli_remove, storage_cli_mkdir.
  destruct w as [rx st rs hs os lg]. cbn [storage].
  split.
  - run. destruct (svc_remove path st) as [e st'].
    destruct e; run; same_world.
  - run. destruct (svc_mkdir path st) as [e st'].
    destruct e; run; same_world.
Qed.

(** X14.  copy, rename and migrate: the new path is what the reader of
    quoted strings gets from the rest of the line, and whatever follows
    it is ignored; each makes exactly one storage call on the two paths,
    prints nothing at all when the call succeeds and the one line that
    describes its error code when it fails, leaves the storage as the
    call left it and the console input alone.  When the new path cannot
    be read they print the usage text and make no storage call. *)
Theorem two_path_calls_are_silent (path args : string) (w : World) :
  let outcome (call : Storage -> FS_Error * Storage)
              (ev : FS_Error -> Event) :=
    let '(error, after) := call (storage w) in
    Done tt
      (emits
         ([RecordOpen; ev error]
          ++ (if FS_Error_eqb error FSE_OK then [] else [error_event error])
          ++ [RecordClose])
         (set_storage after w)) in
  let usage :=
    Done tt (emits ([RecordOpen] ++ usage_events ++ [RecordClose]) w) in
  match args_read_probably_quoted_string_and_trim args with
  | Some (new_path, _) =>
      storage_cli_copy path args w
      = outcome (svc_copy path new_path) (CommonCopy path new_path)
      /\ storage_cli_rename path args w
         = outcome (svc_rename path new_path) (CommonRename path new_path)
      /\ storage_cli_migrate path args w
         = outcome (svc_migrate path new_path) (CommonMigrate path new_path)
  | None =>
      storage_cli_copy path args w = usage
      /\ storage_cli_rename path args w = usage
      /\ storage_cli_migrate path args w = usage
  end.
Proof.
  cbv zeta.
  unfold storage_cli_copy, storage_cli_rename, storage_cli_migrate.
  destruct w as [rx st rs hs os lg]. cbn [storage].
  destruct (args_read_probably_quoted_string_and_trim args)
    as [[new_path rest]|].
  - repeat split; run.
    + destruct (svc_copy path new_path st) as [e st'].
      destruct e; run; same_world.
    + destruct (svc_rename path new_path st) as [e st'].
      destruct e; run; same_world.
    + destruct (svc_migrate path new_path st) as [e st'].
      destruct e; run; same_world.
  - repeat split; usage; same_world.
Qed.

(** ** Destruction once confirmed *)

(** X15.  format and factory reset after a yes: with y or Y as the next
    console character, format on the external prefix takes this one
    character, takes the storage record, announces the formatting, calls
    the SD format once, prints the success line or the line that
    describes the error code and releases the record, and the storage is
    what the format call left; the factory reset takes the character,
    announces the wipe, sets the reset flag and then reboots, so it does
    not return.  Even with the yes waiting on the console, format on the
    internal prefix prints the line for "not implemented", and on any
    path that is neither prefix the usage text, without asking and
    without a storage call. *)
Theorem confirmed_destruction (args : string) (w : World) (c : byte)
    (rest : list byte) :
  cli_rx w = c :: rest ->
  c = "y"%byte \/ c = "Y"%byte ->
  storage_cli_format STORAGE_EXT_PATH_PREFIX w
  = (let '(error, formatted) := svc_sd_format (storage w) in
     Done tt
       (emits
          [ Printf
              "Formatting SD card, All data will be lost! Are you sure (y/n)?\r\n"
              [];
            CliGetc c; RecordOpen;
            Printf "Formatting, please wait...\r\n" [];
            SdFormat error;
            if FS_Error_eqb error FSE_OK then
              Printf "SD card was successfully formatted.\r\n" []
            else error_event error;
            RecordClose ]
          (set_storage formatted (set_cli_rx rest w))))
  /\ storage_cli_factory_reset args w
     = Rebooted
         (emits
            [ Printf "All data will be lost! Are you sure (y/n)?\r\n" [];
              CliGetc c;
              Printf "Data will be wiped after reboot.\r\n" [];
              RtcSetFlagFactoryReset; PowerReboot ]
            (set_cli_rx rest w))
  /\ storage_cli_format STORAGE_INT_PATH_PREFIX w
     = Done tt (emits [error_event FSE_NOT_IMPLEMENTED] w)
  /\ (forall path,
        path <> STORAGE_INT_PATH_PREFIX ->
        path <> STORAGE_EXT_PATH_PREFIX ->
        storage_cli_format path w = Done tt (emits usage_events w)).
Proof.
  intros Hrx Hyes. apply is_yes_spec in Hyes.
  rewrite !storage_cli_format_spec, storage_cli_factory_reset_spec.
  rewrite Hrx, Hyes. cbv zeta.
  split; [|split; [|split]]; try reflexivity.
  intros path Hint Hext. apply String.eqb_neq in Hint, Hext.
  now rewrite storage_cli_format_spec, Hint, Hext.
Qed.

(** ** write_chunk with nothing to write *)

(** X16.  write_chunk with the chunk size zero: the file is opened for
    appending, which creates it when it is missing, the ready line is
    printed and the file is closed again; nothing is read from the
    console, nothing is written and no error line is printed. *)
Theorem write_chunk_zero_size (path args : string) (n : Z) (w : World) :
  sscanf_lu args = Some n ->
  uint32 n = 0%Z ->
  fault (storage w) path = FSE_OK ->
  let old := match files (storage w) path with Some c => c | None => [] end in
  exists w',
    storage_cli_write_chunk path args w = Done tt w'
    /\ log w'
       = log w
         ++ [ RecordOpen; FileAlloc;
              FileOpen path FSAM_WRITE FSOM_OPEN_APPEND FSE_OK;
              Printf "Ready\r\n" []; FileClose true; FileFree; RecordClose ]
    /\ cli_rx w' = cli_rx w
    /\ files (storage w') path = Some old
    /\ space (storage w') = space (storage w)
    /\ only_file path (storage w) (storage w').
Proof.
  intros Hscan Hzero Hfault old.
  unfold storage_cli_write_chunk. rewrite Hscan, Hzero.
  destruct w as [rx st rs hs os lg]. cbn [storage cli_rx log] in *.
  run. rewrite Hfault.
  destruct (files st path) as [content|] eqn:Hold; run;
    (eexists; split; [reflexivity|]; cbn [log storage cli_rx];
     split; [same_world|]; split; [reflexivity|]).
  - split; [exact Hold|]. split; [reflexivity|apply only_file_refl].
  - split; [apply files_put_same|].
    split; [reflexivity|apply only_file_put].
Qed.

(** ** stat on an ordinary path *)

(** X17.  stat on a path that is neither the root marker nor one of the
    three prefixes: the handler makes one stat call and no call for the
    space of a volume, and prints the line for a directory, or the line
    for a file with its size modulo 2^32, or the line that describes the
    error code of the call. *)
Theorem stat_of_a_path (path : string) (w : World) :
  path <> "/" ->
  path <> STORAGE_EXT_PATH_PREFIX ->
  path <> STORAGE_INT_PATH_PREFIX ->
  path <> STORAGE_ANY_PATH_PREFIX ->
  storage_cli_stat path w
  = (let '(error, fileinfo) := svc_stat path (storage w) in
     Done tt
       (emits
          [ RecordOpen; CommonStat path error;
            if FS_Error_eqb error FSE_OK then
              if is_dir fileinfo then Printf "Directory\r\n" []
              else
                Printf "File, size: %lub\r\n"
                  [ArgNum (size fileinfo mod 2 ^ 32)]
            else error_event error;
            RecordClose ] w)).
Proof.
  intros Hroot Hext Hint Hany.
  apply String.eqb_neq in Hroot, Hext, Hint, Hany.
  unfold storage_cli_stat. rewrite Hroot, Hext, Hint, Hany.
  destruct w as [rx st rs hs os lg]. run.
  destruct (svc_stat path st) as [e fileinfo].
  destruct e; run; destruct (is_dir fileinfo); same_world.
Qed.

(** ** Write until cancel: what is in the file while the session is open *)


(** ** tree: a walk that ends in an error *)

Lemma printed_app (a b : list Event) :
  printed (a ++ b) = printed a ++ printed b.
Proof. unfold printed. apply filter_app. Qed.

Lemma printed_entries (entries : list DirEntry) :
  printed
    (flat_map (fun entry => [DirWalkRead DirWalkOK; entry_event entry])
       entries)
  = map entry_event entries.
Proof.
  induction entries as [|entry entries IH]; [reflexivity|].
  cbn [flat_map map]. rewrite printed_app, IH. f_equal.
  unfold entry_event. now destruct (is_dir (info entry)).
Qed.

(** X19.  tree does not tell a walk that failed from a walk that ended:
    the loop stops at the first read that is not DirWalkOK, whatever it
    is, so on a walker that opens the lines printed are one line for
    each entry read before, or the empty line when there was none, and
    nothing about the result of the last read, also when this read came
    back with DirWalkError. *)
Theorem tree_hides_walk_errors (path : string) (w : World)
    (entries : list DirEntry) (last : DirWalkResult) :
  path <> "/" ->
  svc_walk path (storage w) = inr (entries, last) ->
  storage_cli_tree path w
  = Done tt
      (emits
         ([RecordOpen; DirWalkAlloc; DirWalkOpen path FSE_OK]
          ++ walk_events entries last ++ [DirWalkFree; RecordClose]) w)
  /\ printed (new_events w (storage_cli_tree path w))
     = match entries with
       | [] => [Printf "\tEmpty\r\n" []]
       | _ => map entry_event entries
       end
  /\ (last = DirWalkError ->
      In (DirWalkRead DirWalkError)
         (new_events w (storage_cli_tree path w))).
Proof.
  intros Hpath Hwalk.
  assert (Hrun : storage_cli_tree path w
                 = Done tt
                     (emits
                        ([RecordOpen; DirWalkAlloc; DirWalkOpen path FSE_OK]
                         ++ walk_events entries last
                         ++ [DirWalkFree; RecordClose]) w)).
  { unfold storage_cli_tree. cbn [storage_cli_tree_rec].
    apply String.eqb_neq in Hpath. rewrite Hpath.
    rewrite storage_cli_tree_walk_spec, Hwalk. reflexivity. }
  split; [exact Hrun|].
  rewrite Hrun, new_events_emits. split.
  - unfold walk_events. rewrite !printed_app, printed_entries.
    destruct entries; cbn [printed filter app map]; rewrite ?app_nil_r;
      reflexivity.
  - intros ->.
    unfold walk_events. apply in_or_app. right.
    apply in_or_app. left. apply in_or_app. right.
    apply in_or_app. left. now left.
Qed.

(** ** read and read_chunks on the same file *)

(** X20.  read and read_chunks deliver the same bytes: on a file that
    opens, the characters read prints and the bytes read_chunks puts
    out, with any block size n > 0 and a console character for each
    round, are the content of the file; the size lines differ, read
    prints the length modulo 2^32 and read_chunks the whole length. *)
Theorem read_and_read_chunks_agree (path args : string) (n : Z) (w : World)
    (content acks rest : list byte) :
  sscanf_lu args = Some n ->
  fault (storage w) path = FSE_OK ->
  files (storage w) path = Some content ->
  (Z.of_nat (length content) < 2 ^ 64)%Z ->
  (0 < uint32 n)%Z ->
  cli_rx w = acks ++ rest ->
  length acks = length (chunks (Z.to_nat (uint32 n)) content) ->
  let L := Z.of_nat (length content) in
  let by_read := new_events w (storage_cli_read path w) in
  let by_chunks := new_events w (storage_cli_read_chunks path args w) in
  echoed by_read = content
  /\ put_out by_chunks = content
  /\ put_out by_read = [] /\ echoed by_chunks = []
  /\ In (Printf "Size: %lu\r\n" [ArgNum (L mod 2 ^ 32)]) by_read
  /\ In (Printf "Size: %llu\r\n" [ArgNum L]) by_chunks.
Proof.
  intros Hscan Hfault Hfiles Hsize Hpos Hrx Hacks L by_read by_chunks.
  subst by_read by_chunks.
  rewrite (storage_cli_read_run path w Hfault Hfiles).
  rewrite (@storage_cli_read_chunks_run path args n w content acks rest
             Hscan Hfault Hfiles Hsize Hpos Hrx Hacks).
  rewrite new_events_emits.
  assert (Hnew : forall evs,
            new_events w (Done tt (emits evs (set_cli_rx rest w))) = evs).
  { intro evs. unfold new_events. cbn [world_of log emits set_cli_rx].
    now rewrite skipn_app, skipn_all, Nat.sub_diag. }
  rewrite Hnew. clear Hnew.
  assert (Hput_read : forall data : list byte,
            put_out (read_events data) = []).
  { intro data. unfold read_events. rewrite put_out_app.
    cbn [put_out flat_map app]. rewrite app_nil_r.
    induction (chunks 128 data) as [|block blocks IH]; [reflexivity|].
    cbn [flat_map]. rewrite put_out_app, IH, app_nil_r.
    change (put_out (FileRead 128 block :: ?l)) with (put_out l).
    induction block as [|c block IHb]; [reflexivity|exact IHb]. }
  assert (Hecho_chunks : forall (bs : list (list byte)) (ks : list byte),
            echoed (transfer_events (uint32 n) ks bs) = []).
  { induction bs as [|block bs IH]; intros [|k ks]; try reflexivity.
    unfold transfer_events. cbn [combine flat_map fst snd].
    rewrite echoed_app. fold (transfer_events (uint32 n) ks bs).
    rewrite IH, app_nil_r. unfold chunk_events. rewrite echoed_app.
    cbn [echoed flat_map app].
    induction block as [|c block IHb]; [reflexivity|exact IHb]. }
  repeat split.
  - rewrite !echoed_app, echoed_read_events. cbn. apply app_nil_r.
  - rewrite !put_out_app, put_out_transfer by exact Hacks.
    rewrite chunks_concat by lia. cbn. apply app_nil_r.
  - rewrite !put_out_app, Hput_read. reflexivity.
  - rewrite !echoed_app, Hecho_chunks. reflexivity.
  - rewrite uint32_uint64. cbn [app In]. tauto.
  - cbn [app In]. tauto.
Qed.

(** ** Write until cancel: the cancel symbol on a full volume *)

(** The cancel symbol with bytes pending that the volume does not take
    in full: what fits is written, the error of the handle is printed and
    the loop ends. *)
Lemma write_loop_cancel_short (path : string) (fuel : nat) (file : File)
    (buffer : list byte) (read_index : Z) (w : World)
    (rest content : list byte) :
  cli_rx w = CliSymbolAsciiETX :: rest ->
  (0 < read_index mod 512)%Z ->
  length buffer = 512%nat ->
  f_open file = Some path ->
  f_pos file = length content ->
  files (storage w) path = Some content ->
  (space (storage w) < Z.to_nat (read_index mod 512))%nat ->
  let pending := firstn (Z.to_nat (read_index mod 512)) buffer in
  exists file' w' error,
    storage_cli_write_loop (S fuel) file buffer read_index w = Done file' w'
    /\ cli_rx w' = rest
    /\ f_open file' = Some path
    /\ files (storage w') path
       = Some (content ++ firstn (space (storage w)) pending)
    /\ log w'
       = log w
         ++ [ CliGetc CliSymbolAsciiETX;
              FileWrite pending (Z.of_nat (space (storage w)));
              error_event error ]
    /\ records w' = records w /\ handles w' = handles w
    /\ opened w' = opened w.
Proof.
  intros Hrx Hpending Hbuf Hopen Hpos Hfiles Hroom pending.
  pose proof (Z.mod_pos_bound read_index 512 ltac:(lia)) as Hb.
  cbn [storage_cli_write_loop]. unfold bind at 1. unfold cli_getc.
  rewrite Hrx. cbv beta iota.
  change (Byte.eqb CliSymbolAsciiETX CliSymbolAsciiETX) with true.
  cbv iota.
  replace (0 <? read_index mod 512)%Z with true
    by (symmetry; now apply Z.ltb_lt).
  destruct w as [rx st rs hs os lg]. destruct file as [fo pos e es].
  cbn [cli_rx storage f_open f_pos log records handles opened] in *.
  subst rx fo pos. fold pending.
  assert (Hlen : length pending = Z.to_nat (read_index mod 512))
    by (subst pending; now apply length_pending).
  assert (Hput : length (firstn (space st) pending) = space st)
    by (rewrite length_firstn; lia).
  run. rewrite Hfiles. run. fold pending.
  rewrite !append_at_end, !Hput.
  replace (Z.of_nat (space st) =? read_index mod 512)%Z with false
    by (symmetry; apply Z.eqb_neq; lia).
  run. eexists. eexists. eexists. split; [reflexivity|].
  cbn [cli_rx storage f_open log records handles opened].
  rewrite files_put_same.
  repeat split; try reflexivity. same_world.
Qed.

(** X21.  write, the cancel symbol on a full volume: with k symbols
    pending, 0 < k < 512, and a volume that has room for fewer than k
    bytes, the cancel symbol makes the handler write what fits, print an
    error line and end the session all the same: it returns, and the file
    has grown by the first bytes of what was typed, as many as the
    volume had room for. *)
Theorem write_cancel_on_full_volume (path : string) (w : World)
    (symbols rest : list byte) :
  fault (storage w) path = FSE_OK ->
  cli_rx w = symbols ++ CliSymbolAsciiETX :: rest ->
  Forall (fun symbol => symbol <> CliSymbolAsciiETX) symbols ->
  (length symbols < 512)%nat ->
  (space (storage w) < length symbols)%nat ->
  let old := match files (storage w) path with Some c => c | None => [] end in
  let room := space (storage w) in
  exists w' error,
    storage_cli_write path w = Done tt w'
    /\ files (storage w') path = Some (old ++ firstn room symbols)
    /\ cli_rx w' = rest
    /\ log w'
       = log w
         ++ [ RecordOpen; FileAlloc;
              FileOpen path FSAM_WRITE FSOM_OPEN_APPEND FSE_OK;
              Printf
                "Just write your text data. New line by Ctrl+Enter, exit by Ctrl+C.\r\n"
                [] ]
         ++ typed_events symbols
         ++ [ CliGetc CliSymbolAsciiETX;
              FileWrite symbols (Z.of_nat room); error_event error;
              Printf "\r\n" []; FileClose true; FileFree; RecordClose ]
    /\ records w' = records w /\ handles w' = handles w
    /\ opened w' = opened w.
Proof.
  intros Hfault Hrx Hsym Hlen Hroom old room.
  destruct (storage_cli_write_unfold path w Hfault) as [s1 [Hf1 [Hs1 Hrun]]].
  fold old in Hf1, Hrun. rewrite Hrun. clear Hrun.
  unfold write_session. rewrite Hrx.
  replace (S (length (symbols ++ CliSymbolAsciiETX :: rest)))
    with (length symbols + S (S (length rest)))%nat
    by (rewrite length_app; cbn [length]; lia).
  match goal with
  | |- context [storage_cli_write_loop _ ?f ?b 0%Z ?w1] =>
      destruct (@write_loop_pending symbols (S (S (length rest))) f b 0%Z w1
                  (CliSymbolAsciiETX :: rest) Hrx Hsym (repeat_length _ _))
        as [buffer1 [index1 [Hrun [Hbuf1 [Hidx1 Hdata1]]]]];
        [change (0 mod 512)%Z with 0%Z; lia|]
  end.
  rewrite Hrun. clear Hrun.
  change (0 mod 512)%Z with 0%Z in Hidx1, Hdata1.
  change (Z.to_nat 0) with 0%nat in Hdata1. cbn [firstn app] in Hdata1.
  rewrite Z.add_0_l in Hidx1.
  match goal with
  | |- context [storage_cli_write_loop _ ?f buffer1 index1 ?w2] =>
      destruct (@write_loop_cancel_short path (S (length rest)) f buffer1
                  index1 w2 rest old eq_refl ltac:(lia) Hbuf1 eq_refl
                  eq_refl Hf1)
        as [file2 [w2' [error [Hrun [Hrx2 [Hopen2 [Hfiles2 [Hlog2
             [Hr2 [Hh2 Ho2]]]]]]]]]];
        [cbn [storage emits set_cli_rx set_opened set_handles set_records
              set_storage]; lia|]
  end.
  rewrite Hrun. clear Hrun. rewrite Hdata1 in Hfiles2, Hlog2.
  destruct w as [rx st rs hs os lg].
  destruct w2' as [rx2 st2 rs2 hs2 os2 lg2].
  destruct file2 as [fo2 pos2 e2 es2].
  cbn [cli_rx storage records handles opened log f_open
       emits set_cli_rx set_opened set_handles set_records set_storage]
    in *.
  subst. run. eexists. exists error. split; [reflexivity|].
  cbn [cli_rx storage records handles opened log].
  rewrite Hfiles2, Hs1. subst room.
  repeat split. same_world.
Qed.

(** ** Write: the content that was there *)

(** A write at the end of the file [old ++ extra] leaves a file that
    starts with [old], and the pointer at its end. *)
Lemma write_at_end_appends (path : string) (old extra data : list byte)
    (file : File) (w : World) :
  f_open file = Some path ->
  files (storage w) path = Some (old ++ extra) ->
  f_pos file = length (old ++ extra) ->
  exists written file' w' extra',
    storage_file_write file data w = Done (written, file') w'
    /\ f_open file' = Some path
    /\ files (storage w') path = Some (old ++ extra')
    /\ f_pos file' = length (old ++ extra').
Proof.
  intros Hopen Hfiles Hpos.
  destruct w as [rx st rs hs os lg]. destruct file as [fo pos e es].
  cbn [storage f_open f_pos] in *. subst fo pos.
  run. rewrite Hfiles. run. rewrite !append_at_end.
  eexists. eexists. eexists. exists (extra ++ firstn (space st) data).
  split; [reflexivity|]. cbn [f_open f_pos storage].
  rewrite files_put_same, <- app_assoc.
  split; [reflexivity|]. split; [reflexivity|].
  now rewrite !length_app, Nat.add_assoc.
Qed.

Lemma write_loop_appends (path : string) (old : list byte) (fuel : nat) :
  forall (file : File) (buffer : list byte) (read_index : Z) (w : World)
         (extra : list byte),
    f_open file = Some path ->
    files (storage w) path = Some (old ++ extra) ->
    f_pos file = length (old ++ extra) ->
    exists extra',
      files
        (storage
           (world_of (storage_cli_write_loop fuel file buffer read_index w)))
        path
      = Some (old ++ extra').
Proof.
  induction fuel as [|fuel IH];
    intros file buffer read_index w extra Hopen Hfiles Hpos.
  { exists extra. exact Hfiles. }
  cbn [storage_cli_write_loop]. unfold bind at 1. unfold cli_getc.
  destruct w as [rx st rs hs os lg]. cbn [cli_rx storage] in *.
  destruct rx as [|symbol rx]; [exists extra; exact Hfiles|].
  cbv beta iota.
  set (buffer' := store (Z.to_nat (read_index mod 512)) symbol buffer).
  set (echo := nth (Z.to_nat (read_index mod 512)) buffer' x00).
  assert (Hwrite :
    forall (data : list byte) (w1 : World) (k : Z * File -> M File),
      storage w1 = st ->
      (forall r w2 extra2,
         f_open (snd r) = Some path ->
         files (storage w2) path = Some (old ++ extra2) ->
         f_pos (snd r) = length (old ++ extra2) ->
         exists extra',
           files (storage (world_of (k r w2))) path = Some (old ++ extra')) ->
      exists extra',
        files
          (storage (world_of ((r <- storage_file_write file data ;; k r) w1)))
          path
        = Some (old ++ extra')).
  { intros data w1 k Hst Hk. unfold bind.
    destruct (@write_at_end_appends path old extra data file w1 Hopen)
      as [written [file' [w' [extra' [Hrun [Hopen' [Hfiles' Hpos']]]]]]];
      [now rewrite Hst|exact Hpos|].
    rewrite Hrun. exact (Hk (written, file') w' extra' Hopen' Hfiles' Hpos'). }
  assert (Hstore :
    exists extra',
      files
        (storage
           (world_of
              ((printf "%c" [ArgChar echo] ;;
                if (uint32 (read_index + 1) mod 512 =? 0)%Z then
                  ' (written_size, file0) <-
                    storage_file_write file (firstn (Z.to_nat 512) buffer') ;;
                  if negb (written_size =? 512)%Z then
                    storage_cli_print_error (storage_file_get_error file0) ;;
                    ret file0
                  else
                    storage_cli_write_loop fuel file0 buffer'
                      (uint32 (read_index + 1))
                else
                  storage_cli_write_loop fuel file buffer'
                    (uint32 (read_index + 1)))
                 (emit (CliGetc symbol)
                    (set_cli_rx rx
                       {| cli_rx := symbol :: rx; storage := st;
                          records := rs; handles := hs; opened := os;
                          log := lg |})))))
        path
      = Some (old ++ extra')).
  { unfold bind at 1. unfold printf. cbv beta iota.
    destruct (uint32 (read_index + 1) mod 512 =? 0)%Z.
    - apply Hwrite; [reflexivity|].
      intros [written_size file0] w2 extra2 Hopen2 Hfiles2 Hpos2.
      cbn [snd] in *.
      destruct (negb (written_size =? 512)%Z);
        [destruct w2; exists extra2; exact Hfiles2
        |now apply (IH file0 buffer' _ w2 extra2)].
    - now apply (IH file buffer' _ _ extra). }
  destruct (Byte.eqb symbol CliSymbolAsciiETX); [|exact Hstore].
  destruct (0 <? read_index mod 512)%Z; [|exact Hstore].
  apply Hwrite; [reflexivity|].
  intros [written_size file0] w2 extra2 Hopen2 Hfiles2 Hpos2.
  destruct (negb (written_size =? read_index mod 512)%Z);
    destruct w2; exists extra2; exact Hfiles2.
Qed.

(** X22.  write and write_chunk only append: whatever the console gives,
    however much room the volume has and however the call ends, a file
    that was at the path still starts with the content it had; nothing
    of it is overwritten or cut off. *)
Theorem write_is_append_only (path args : string) (w : World)
    (old : list byte) :
  files (storage w) path = Some old ->
  (exists extra,
     files (storage (world_of (storage_cli_write path w))) path
     = Some (old ++ extra))
  /\ (exists extra,
        files (storage (world_of (storage_cli_write_chunk path args w))) path
        = Some (old ++ extra)).
Proof.
  intro Hold.
  assert (Hsame : files (storage w) path = Some (old ++ []))
    by (now rewrite app_nil_r).
  split.
  - unfold storage_cli_write. destruct w as [rx st rs hs os lg].
    cbn [storage] in *. run.
    destruct (fault st path) eqn:Hfault;
      try (run; exists []; exact Hsame).
    rewrite Hold. run.
    match goal with
    | |- context [storage_cli_write_loop ?f ?fl ?b ?i ?w1] =>
        destruct (@write_loop_appends path old f fl b i w1 [] eq_refl Hsame)
          as [extra H];
          [cbn [f_pos]; now rewrite app_nil_r|];
        destruct (storage_cli_write_loop f fl b i w1)
          as [file' w'|w'|w'|w']
    end;
      cbn [world_of] in H; exists extra;
      destruct w' as [rx' st' rs' hs' os' lg']; cbn [storage] in H;
      try exact H.
    destruct file' as [[p|] pos e es]; run; exact H.
  - unfold storage_cli_write_chunk. destruct w as [rx st rs hs os lg].
    cbn [storage] in *.
    destruct (sscanf_lu args) as [n|]; [|usage; exists []; exact Hsame].
    run.
    destruct (fault st path) eqn:Hfault;
      try (run; exists []; exact Hsame).
    rewrite Hold. run.
    destruct (uint32 n =? 0)%Z; run; [exists []; exact Hsame|].
    rewrite Hold.
    match goal with
    | |- context [(?a =? uint32 n)%Z] => destruct (a =? uint32 n)%Z
    end; run; rewrite files_put_same, append_at_end;
      eexists; reflexivity.
Qed.

(** ** Write until cancel: the file and the echo *)

(** A symbol that is stored and does not fill the block.  The cancel
    symbol is stored like any other when no byte is pending. *)
Lemma write_loop_step_stored (symbol : byte) (fuel : nat) (file : File)
    (buffer : list byte) (read_index : Z) (w : World) (rest : list byte) :
  cli_rx w = symbol :: rest ->
  symbol <> CliSymbolAsciiETX \/ (read_index mod 512 = 0)%Z ->
  length buffer = 512%nat ->
  (read_index mod 512 < 511)%Z ->
  storage_cli_write_loop (S fuel) file buffer read_index w
  = storage_cli_write_loop fuel file
      (store (Z.to_nat (read_index mod 512)) symbol buffer)
      (uint32 (read_index + 1))
      (emits (typed_events [symbol]) (set_cli_rx rest w)).
Proof.
  intros Hrx Hsym Hbuf Hidx.
  pose proof (Z.mod_pos_bound read_index 512 ltac:(lia)) as Hb.
  cbn [storage_cli_write_loop]. unfold bind at 1. unfold cli_getc.
  rewrite Hrx. cbv beta iota.
  rewrite if_nested.
  2:{ destruct Hsym as [Hne|Hz].
      - destruct (Byte.eqb symbol CliSymbolAsciiETX) eqn:E; [|reflexivity].
        apply Byte.byte_dec_bl in E. contradiction.
      - rewrite Hz. apply andb_false_r. }
  rewrite nth_store by lia. rewrite next_index.
  replace (read_index mod 512 =? 511)%Z with false
    by (symmetry; apply Z.eqb_neq; lia).
  replace (read_index mod 512 + 1 =? 0)%Z with false
    by (symmetry; apply Z.eqb_neq; lia).
  unfold bind, printf, emit. rewrite emits_emits. reflexivity.
Qed.

(** The symbol that fills the block, on a volume that takes the block:
    the block is written and the loop goes on. *)
Lemma write_loop_step_flush (path : string) (symbol : byte) (fuel : nat)
    (file : File) (buffer : list byte) (read_index : Z) (w : World)
    (rest content : list byte) :
  cli_rx w = symbol :: rest ->
  symbol <> CliSymbolAsciiETX ->
  length buffer = 512%nat ->
  (read_index mod 512 = 511)%Z ->
  f_open file = Some path ->
  f_pos file = length content ->
  files (storage w) path = Some content ->
  (512 <= space (storage w))%nat ->
  let block := firstn 511 buffer ++ [symbol] in
  exists file' w',
    storage_cli_write_loop (S fuel) file buffer read_index w
    = storage_cli_write_loop fuel file' (store 511 symbol buffer)
        (uint32 (read_index + 1)) w'
    /\ cli_rx w' = rest
    /\ f_open file' = Some path
    /\ f_pos file' = length (content ++ block)
    /\ files (storage w') path = Some (content ++ block)
    /\ space (storage w') = (space (storage w) - 512)%nat
    /\ log w' = log w ++ typed_events [symbol] ++ [FileWrite block 512].
Proof.
  intros Hrx Hsym Hbuf Hidx Hopen Hpos Hfiles Hroom block.
  cbn [storage_cli_write_loop]. unfold bind at 1. unfold cli_getc.
  rewrite Hrx. cbv beta iota.
  replace (Byte.eqb symbol CliSymbolAsciiETX) with false.
  2:{ destruct (Byte.eqb symbol CliSymbolAsciiETX) eqn:E; [|reflexivity].
      apply Byte.byte_dec_bl in E. contradiction. }
  rewrite Hidx. rewrite nth_store by (rewrite Hbuf; lia).
  rewrite next_index, Hidx. change (511 =? 511)%Z with true. cbv iota.
  change (0 =? 0)%Z with true. cbv iota.
  change (Z.to_nat 511) with 511%nat.
  assert (Hblock : firstn (Z.to_nat 512) (store 511 symbol buffer) = block).
  { rewrite firstn_all2 by (rewrite length_store; lia).
    rewrite <- (@firstn_all2 _ 512 (store 511 symbol buffer))
      by (rewrite length_store; lia).
    change 512%nat with (S 511) at 1.
    rewrite firstn_store by lia. reflexivity. }
  rewrite Hblock.
  assert (Hlen : length block = 512%nat).
  { subst block. rewrite length_app, length_firstn. cbn [length]. lia. }
  destruct w as [rx st rs hs os lg]. destruct file as [fo pos e es].
  cbn [cli_rx storage f_open f_pos log] in *. subst rx fo pos.
  assert (Hfull : firstn (space st) block = block)
    by (apply firstn_all2; lia).
  run. rewrite Hfiles. run. rewrite !Hfull, !append_at_end, !Hlen.
  change (Z.of_nat 512 =? 512)%Z with true. run.
  eexists. eexists. split; [reflexivity|].
  cbn [cli_rx storage f_open f_pos log].
  rewrite files_put_same, space_put.
  repeat split; try reflexivity.
  - now rewrite !length_app, Hlen.
  - same_world.
Qed.

Lemma echoed_typed (symbols : list byte) :
  echoed (typed_events symbols) = symbols.
Proof.
  induction symbols as [|symbol symbols IH]; [reflexivity|].
  cbn [typed_events flat_map app]. fold (typed_events symbols).
  change (echoed (?a :: ?b :: ?l)) with (echoed [a; b] ++ echoed l).
  rewrite IH. reflexivity.
Qed.

(** The file and the bytes pending in the buffer are, together, the old
    content and what has been echoed; the invariant of the loop on a
    volume with room for what the console has. *)
Lemma write_loop_stores (path : string) (old : list byte) (fuel : nat) :
  forall (file : File) (buffer : list byte) (read_index : Z) (w : World)
         (evs0 : list Event) (content : list byte),
    (length (cli_rx w) < fuel)%nat ->
    length buffer = 512%nat ->
    f_open file = Some path ->
    f_pos file = length content ->
    files (storage w) path = Some content ->
    (Z.to_nat (read_index mod 512) + length (cli_rx w)
     <= space (storage w))%nat ->
    content ++ firstn (Z.to_nat (read_index mod 512)) buffer
    = old ++ echoed evs0 ->
    match storage_cli_write_loop fuel file buffer read_index w with
    | Done file' w' =>
        f_open file' = Some path
        /\ exists evs,
             log w' = log w ++ evs
             /\ files (storage w') path = Some (old ++ echoed (evs0 ++ evs))
    | Blocked w' =>
        exists evs content' pending,
          log w' = log w ++ evs
          /\ files (storage w') path = Some content'
          /\ content' ++ pending = old ++ echoed (evs0 ++ evs)
          /\ (length pending < 512)%nat
    | _ => False
    end.
Proof.
  induction fuel as [|fuel IH];
    intros file buffer read_index w evs0 content Hfuel Hbuf Hopen Hpos
      Hfiles Hroom Hinv; [lia|].
  pose proof (Z.mod_pos_bound read_index 512 ltac:(lia)) as Hb.
  destruct (cli_rx w) as [|symbol rest] eqn:Hrx.
  { (* the console has nothing more *)
    cbn [storage_cli_write_loop]. unfold bind at 1. unfold cli_getc.
    rewrite Hrx.
    exists [], content, (firstn (Z.to_nat (read_index mod 512)) buffer).
    rewrite !app_nil_r. repeat split; try assumption.
    rewrite length_pending by exact Hbuf. lia. }
  cbn [length] in Hfuel, Hroom.
  destruct (Byte.eqb symbol CliSymbolAsciiETX) eqn:Hsym.
  - apply Byte.byte_dec_bl in Hsym. subst symbol.
    destruct (Z.eq_dec (read_index mod 512) 0) as [Hzero|Hpending].
    + (* the cancel symbol with nothing pending: stored *)
      rewrite (@write_loop_step_stored CliSymbolAsciiETX fuel file buffer
                 read_index w rest Hrx (or_intror Hzero) Hbuf ltac:(lia)).
      match goal with
      | |- context [storage_cli_write_loop fuel file ?b ?i ?w2] =>
          pose proof (IH file b i w2
                        (evs0 ++ typed_events [CliSymbolAsciiETX]) content)
            as H
      end.
      rewrite next_index in H.
      replace (read_index mod 512 =? 511)%Z with false in H
        by (symmetry; apply Z.eqb_neq; lia).
      replace (Z.to_nat (read_index mod 512 + 1))
        with (S (Z.to_nat (read_index mod 512))) in H by lia.
      rewrite firstn_store in H by lia.
      specialize (H ltac:(cbn; lia) ltac:(now rewrite length_store) Hopen
                    Hpos Hfiles ltac:(cbn; lia)).
      rewrite echoed_app, echoed_typed, !app_assoc, Hinv in H.
      specialize (H eq_refl).
      revert H.
      match goal with
      | |- context [storage_cli_write_loop fuel file ?b ?i ?w2] =>
          destruct (storage_cli_write_loop fuel file b i w2)
            as [file' w'|w'|w'|w']
      end; try tauto.
      * intros [Hopen' [evs [Hlog Hfiles']]].
        split; [exact Hopen'|].
        exists (typed_events [CliSymbolAsciiETX] ++ evs).
        split; [rewrite Hlog; cbn [log emits set_cli_rx];
                now rewrite <- app_assoc|].
        now rewrite app_assoc.
      * intros [evs [content' [pending [Hlog [Hfiles' [Hdata Hlen]]]]]].
        exists (typed_events [CliSymbolAsciiETX] ++ evs), content', pending.
        split; [rewrite Hlog; cbn [log emits set_cli_rx];
                now rewrite <- app_assoc|].
        split; [exact Hfiles'|]. split; [|exact Hlen].
        now rewrite app_assoc.
    + (* the cancel symbol with bytes pending: the end *)
      destruct (@write_loop_cancel path fuel file buffer read_index w rest
                  content Hrx ltac:(lia) Hbuf Hopen Hpos Hfiles ltac:(lia))
        as [file' [w' [Hrun [_ [Hopen' [Hfiles' [Hlog _]]]]]]].
      rewrite Hrun. split; [exact Hopen'|].
      eexists. split; [exact Hlog|].
      rewrite Hfiles', Hinv, echoed_app. cbn [echoed flat_map app].
      now rewrite !app_nil_r.
  - assert (Hne : symbol <> CliSymbolAsciiETX).
    { intros ->. discriminate Hsym. }
    destruct (Z.eq_dec (read_index mod 512) 511) as [Hlast|Hmid].
    + (* the symbol that fills the block *)
      destruct (@write_loop_step_flush path symbol fuel file buffer
                  read_index w rest content Hrx Hne Hbuf Hlast Hopen Hpos
                  Hfiles ltac:(lia))
        as [file2 [w2 [Hstep [Hrx2 [Hopen2 [Hpos2 [Hfiles2 [Hspace2
             Hlog2]]]]]]]].
      rewrite Hstep.
      pose proof (IH file2 (store 511 symbol buffer)
                    (uint32 (read_index + 1)) w2
                    (evs0 ++ typed_events [symbol]
                     ++ [FileWrite (firstn 511 buffer ++ [symbol]) 512])
                    (content ++ firstn 511 buffer ++ [symbol])) as H.
      rewrite next_index, Hlast in H.
      change (511 =? 511)%Z with true in H. cbv iota in H.
      change (Z.to_nat (0 mod 512)) with 0%nat in H.
      change (0 mod 512)%Z with 0%Z in H.
      change (Z.to_nat 0) with 0%nat in H.
      rewrite firstn_O in H. cbn [Nat.add] in H.
      rewrite Hrx2, Hspace2 in H.
      specialize (H ltac:(lia) ltac:(now rewrite length_store) Hopen2
                    Hpos2 Hfiles2 ltac:(lia)).
      rewrite !echoed_app, echoed_typed in H.
      cbn [echoed flat_map] in H.
      rewrite Hlast in Hinv. change (Z.to_nat 511) with 511%nat in Hinv.
      rewrite !app_nil_r in H.
      rewrite (app_assoc content), Hinv, <- app_assoc in H.
      specialize (H eq_refl).
      revert H.
      destruct (storage_cli_write_loop fuel file2 (store 511 symbol buffer)
                  (uint32 (read_index + 1)) w2) as [file' w'|w'|w'|w'];
        try tauto.
      * intros [Hopen' [evs [Hlog Hfiles']]].
        split; [exact Hopen'|].
        exists ((typed_events [symbol]
                 ++ [FileWrite (firstn 511 buffer ++ [symbol]) 512]) ++ evs).
        split; [rewrite Hlog, Hlog2; now rewrite <- !app_assoc|].
        rewrite Hfiles'. now rewrite <- !app_assoc.
      * intros [evs [content' [pending [Hlog [Hfiles' [Hdata Hlen]]]]]].
        exists ((typed_events [symbol]
                 ++ [FileWrite (firstn 511 buffer ++ [symbol]) 512]) ++ evs),
          content', pending.
        split; [rewrite Hlog, Hlog2; now rewrite <- !app_assoc|].
        split; [exact Hfiles'|]. split; [|exact Hlen].
        rewrite Hdata. now rewrite <- !app_assoc.
    + (* a symbol that stays pending *)
      rewrite (@write_loop_step_stored symbol fuel file buffer read_index w
                 rest Hrx (or_introl Hne) Hbuf ltac:(lia)).
      match goal with
      | |- context [storage_cli_write_loop fuel file ?b ?i ?w2] =>
          pose proof (IH file b i w2 (evs0 ++ typed_events [symbol]) content)
            as H
      end.
      rewrite next_index in H.
      replace (read_index mod 512 =? 511)%Z with false in H
        by (symmetry; apply Z.eqb_neq; lia).
      replace (Z.to_nat (read_index mod 512 + 1))
        with (S (Z.to_nat (read_index mod 512))) in H by lia.
      rewrite firstn_store in H by lia.
      specialize (H ltac:(cbn; lia) ltac:(now rewrite length_store) Hopen
                    Hpos Hfiles ltac:(cbn; lia)).
      rewrite echoed_app, echoed_typed, !app_assoc, Hinv in H.
      specialize (H eq_refl).
      revert H.
      match goal with
      | |- context [storage_cli_write_loop fuel file ?b ?i ?w2] =>
          destruct (storage_cli_write_loop fuel file b i w2)
            as [file' w'|w'|w'|w']
      end; try tauto.
      * intros [Hopen' [evs [Hlog Hfiles']]].
        split; [exact Hopen'|].
        exists (typed_events [symbol] ++ evs).
        split; [rewrite Hlog; cbn [log emits set_cli_rx];
                now rewrite <- app_assoc|].
        now rewrite app_assoc.
      * intros [evs [content' [pending [Hlog [Hfiles' [Hdata Hlen]]]]]].
        exists (typed_events [symbol] ++ evs), content', pending.
        split; [rewrite Hlog; cbn [log emits set_cli_rx];
                now rewrite <- app_assoc|].
        split; [exact Hfiles'|]. split; [|exact Hlen].
        now rewrite app_assoc.
Qed.

Lemma new_events_log {A} (w : World) (r : Result A) (evs : list Event) :
  log (world_of r) = log w ++ evs -> new_events w r = evs.
Proof.
  intro Hlog. unfold new_events. rewrite Hlog.
  now rewrite skipn_app, skipn_all, Nat.sub_diag.
Qed.

(** X23.  write stores what it echoes: on a volume with room for all the
    console has to give, and for every console input, the file together
    with the bytes pending in the buffer is the old content followed by
    the characters echoed so far, in order; fewer than 512 bytes are
    pending, and none when the handler has returned, so that the file is
    then the old content followed by exactly what was echoed (a cancel
    symbol that was echoed is in the file too).  The handler returns or
    waits for the console. *)
Theorem write_stores_what_it_echoes (path : string) (w : World) :
  fault (storage w) path = FSE_OK ->
  (length (cli_rx w) <= space (storage w))%nat ->
  let old := match files (storage w) path with Some c => c | None => [] end in
  let r := storage_cli_write path w in
  exists content pending,
    files (storage (world_of r)) path = Some content
    /\ content ++ pending = old ++ echoed (new_events w r)
    /\ (length pending < 512)%nat
    /\ (returned r = true -> pending = [])
    /\ (returned r = false -> r = Blocked (world_of r)).
Proof.
  intros Hfault Hroom old r. subst r.
  destruct (storage_cli_write_unfold path w Hfault) as [s1 [Hf1 [Hs1 Hrun]]].
  fold old in Hf1, Hrun. rewrite Hrun. clear Hrun.
  unfold write_session.
  set (header :=
         [ RecordOpen; FileAlloc;
           FileOpen path FSAM_WRITE FSOM_OPEN_APPEND FSE_OK;
           Printf
             "Just write your text data. New line by Ctrl+Enter, exit by Ctrl+C.\r\n"
             [] ]).
  match goal with
  | |- context [storage_cli_write_loop ?f ?fl ?b 0%Z ?w1] =>
      pose proof (@write_loop_stores path old f fl b 0%Z w1 header old
                    ltac:(cbn; lia) (repeat_length _ _) eq_refl eq_refl Hf1)
        as H;
      set (w1' := w1) in *
  end.
  assert (Hlog1 : log w1' = log w ++ header) by reflexivity.
  specialize (H ltac:(cbn; rewrite Hs1; lia) eq_refl).
  revert H.
  destruct (storage_cli_write_loop (S (length (cli_rx w)))
              {| f_open := Some path; f_pos := length old;
                 f_error := FSE_OK; f_entries := [] |}
              (repeat x00 512) 0 w1') as [file' w'|w'|w'|w'];
    try tauto.
  - intros [Hopen' [evs [Hlog Hfiles]]].
    destruct file' as [fo pos e es]. cbn [f_open] in Hopen'. subst fo.
    destruct w' as [rx' st' rs' hs' os' lg'].
    cbn [log storage] in Hlog, Hfiles.
    exists (old ++ echoed (header ++ evs)), [].
    assert (Hnew : new_events w
                     ((printf "\r\n" [];;
                       closed <- storage_file_close
                                   {| f_open := Some path; f_pos := pos;
                                      f_error := e; f_entries := es |};;
                       storage_file_free (snd closed);; furi_record_close)
                        {| cli_rx := rx'; storage := st'; records := rs';
                           handles := hs'; opened := os'; log := lg' |})
                   = header ++ evs
                     ++ [Printf "\r\n" []; FileClose true; FileFree;
                         RecordClose]).
    { apply new_events_log. run. rewrite Hlog, Hlog1.
      now rewrite <- !app_assoc. }
    assert (Hecho : echoed
                      (header ++ evs
                       ++ [Printf "\r\n" []; FileClose true; FileFree;
                           RecordClose])
                    = echoed (header ++ evs)).
    { rewrite (app_assoc header), echoed_app. apply app_nil_r. }
    rewrite Hnew, Hecho, app_nil_r.
    run. split; [exact Hfiles|]. split; [reflexivity|].
    split; [cbn [length]; lia|].
    split; [reflexivity|intro Hno; discriminate Hno].
  - intros [evs [content' [pending [Hlog [Hfiles [Hdata Hlen]]]]]].
    exists content', pending. cbn [world_of].
    rewrite (@new_events_log _ w (Blocked w') (header ++ evs))
      by (cbn [world_of]; rewrite Hlog, Hlog1; now rewrite <- app_assoc).
    split; [exact Hfiles|]. split; [exact Hdata|]. split; [exact Hlen|].
    split; [intro Hyes; discriminate Hyes|reflexivity].
Qed.

(** * Failures and their report

    ** Short writes *)















Lemma ltb_of_nat (a b : nat) :
  (Z.of_nat a <? Z.of_nat b)%Z = (a <? b)%nat.
Proof.
  destruct (a <? b)%nat eqn:E.
  - apply Nat.ltb_lt in E. apply Z.ltb_lt. lia.
  - apply Nat.ltb_ge in E. apply Z.ltb_ge. lia.
Qed.



(** ** The handlers that write to no file *)


















(** ** The handlers that write *)







(** ** Every handler of the table *)





(** A call that reports its failures reports its error codes. *)
Lemma error_is_failure (ev : Event) (e : FS_Error) :
  error_of ev = Some e -> failure_of ev = Some e.
Proof. destruct ev; cbn [failure_of error_of]; auto; discriminate. Qed.

Lemma failures_errors (evs : list Event) :
  failures_reported evs -> errors_reported evs.
Proof.
  induction evs as [|ev evs IH]; [exact (fun _ => I)|].
  cbn [errors_reported failures_reported].
  intros [Hev Hevs]. split; [|now apply IH].
  destruct (error_of ev) as [e|] eqn:He; [|exact I].
  now rewrite (error_is_failure ev He) in Hev.
Qed.

Lemma reports_failures_reports (A : Type) (w : World) (r : Result A) :
  reports_failures w r -> reports w r.
Proof.
  intros [evs [Hlog [Hrep Hret]]]. exists evs.
  split; [exact Hlog|]. split; [now apply failures_errors|].
  intros [ev [e [Hin He]]]. apply Hret. exists ev, e.
  split; [exact Hin|now apply error_is_failure].
Qed.

(** The error a write leaves in the handle is FSE_INTERNAL exactly when
    the write came back short. *)
Lemma short_write_error (file : File) (data : list byte) (w : World) :
  is_open file ->
  exists written file' w',
    storage_file_write file data w = Done (written, file') w'
    /\ log w' = log w ++ [FileWrite data written]
    /\ storage_file_get_error file'
       = if short_write (FileWrite data written) then FSE_INTERNAL
         else FSE_OK.
Proof.
  intro Hopen. destruct file as [[p|] pos e es]; [|now elim Hopen].
  destruct w as [rx st rs hs os lg]. unfold storage_file_write.
  cbv beta iota zeta delta [f_open].
  eexists. eexists. eexists. split; [reflexivity|].
  split; [reflexivity|].
  cbn [storage_file_get_error f_error short_write].
  now rewrite ltb_of_nat.
Qed.

(** ** A walk that fails *)




End Properties.

(** * Concrete runs

    The theorems at concrete worlds, with the sample collaborators. *)

Module Runs.

Import Sample.

Lemma write_cancel_on_block_boundary_witness :
  fault (storage cancel_first) ext_a = FSE_OK
  /\ cli_rx cancel_first = [] ++ CliSymbolAsciiETX :: []
  /\ Forall (fun symbol => symbol <> CliSymbolAsciiETX) []
  /\ (Z.of_nat (@length byte []) mod 512 = 0)%Z
  /\ (@length byte [] + 1024 <= space (storage cancel_first))%nat
  /\ exists w',
       @storage_cli_write collaborators ext_a cancel_first = Blocked w'
       /\ opened w' = 1%nat.
Proof.
  assert (Hroom : (@length byte [] + 1024 <= space (storage cancel_first))%nat)
    by (apply Nat.leb_le; vm_compute; reflexivity).
  do 5 (split; [first [reflexivity|exact Hroom|apply Forall_nil]|]).
  destruct (@write_cancel_on_block_boundary collaborators ext_a cancel_first
              [] [] eq_refl eq_refl (Forall_nil _) eq_refl Hroom)
    as [Hblocked _].
  destruct (Hblocked eq_refl) as [w' [Hrun [_ [_ [_ [_ Hopened]]]]]].
  exists w'. split; [exact Hrun|exact Hopened].
Defined.

Lemma read_chunks_transfer_witness :
  @sscanf_lu collaborators "2" = Some 2%Z
  /\ fault (storage three_bytes) ext_a = FSE_OK
  /\ files (storage three_bytes) ext_a = Some ["1"; "2"; "3"]%byte
  /\ (Z.of_nat 3 < 2 ^ 64)%Z
  /\ put_out
       (new_events three_bytes
          (@storage_cli_read_chunks collaborators ext_a "2" three_bytes))
     = ["1"; "2"; "3"]%byte
  /\ cli_rx
       (world_of
          (@storage_cli_read_chunks collaborators ext_a "2" three_bytes))
     = ["c"%byte].
Proof.
  do 4 (split; [reflexivity|]).
  destruct (@read_chunks_transfer collaborators ext_a "2" 2%Z three_bytes
              ["1"; "2"; "3"]%byte ["a"; "b"]%byte ["c"%byte]
              eq_refl eq_refl eq_refl eq_refl)
    as [_ Hpositive].
  destruct (Hpositive eq_refl eq_refl eq_refl) as [Hrun [Hout _]].
  rewrite Hrun. split; [|reflexivity].
  unfold new_events. cbn [world_of log emits].
  rewrite skipn_app, skipn_all, Nat.sub_diag. exact Hout.
Defined.

(** The claim of C2 at chunk size zero: a file of one byte, and not one
    byte is put out. *)
Lemma read_chunks_zero_puts_nothing :
  let w := world [] ext_a ["1"%byte] 1000 in
  let r := @storage_cli_read_chunks collaborators ext_a "0" w in
  @sscanf_lu collaborators "0" = Some 0%Z
  /\ files (storage w) ext_a = Some ["1"%byte]
  /\ returned r = true
  /\ put_out (new_events w r) = []
  /\ put_out (new_events w r) <> ["1"%byte].
Proof.
  vm_compute. repeat split; discriminate.
Qed.

Lemma destruction_needs_yes_witness :
  let w := world ["n"%byte] ext_a [] 1000 in
  cli_rx w = "n"%byte :: []
  /\ "n"%byte <> "y"%byte
  /\ "n"%byte <> "Y"%byte
  /\ log (world_of (@storage_cli_format collaborators STORAGE_EXT_PATH_PREFIX w))
     = [ Printf
           "Formatting SD card, All data will be lost! Are you sure (y/n)?\r\n"
           [];
         CliGetc "n"; Printf "Cancelled.\r\n" [] ]
  /\ exists c rest,
       cli_rx (world ["y"%byte] ext_a [] 1000) = c :: rest
       /\ (c = "y"%byte \/ c = "Y"%byte).
Proof.
  intro w.
  assert (Hy : "n"%byte <> "y"%byte) by discriminate.
  assert (HY : "n"%byte <> "Y"%byte) by discriminate.
  do 3 (split; [first [reflexivity|assumption]|]).
  split.
  - destruct (@destruction_needs_yes collaborators STORAGE_EXT_PATH_PREFIX ""
                w) as [_ Hcancel].
    destruct (Hcancel "n"%byte [] eq_refl Hy HY) as [Hrun _].
    rewrite Hrun. reflexivity.
  - destruct (@destruction_needs_yes collaborators STORAGE_EXT_PATH_PREFIX ""
                (world ["y"%byte] ext_a [] 1000)) as [Hyes _].
    apply Hyes. left. exists FSE_OK. vm_compute. tauto.
Defined.

Lemma write_chunk_error_flag_witness :
  @sscanf_lu collaborators "5" = Some 5%Z
  /\ uint32 5 <> 0%Z
  /\ fault (storage three_bytes) ext_a = FSE_OK
  /\ exists w',
       @storage_cli_write_chunk collaborators ext_a "5" three_bytes
       = Done tt w'
       /\ files (storage w') ext_a
          = Some ["1"; "2"; "3"; "a"; "b"; "c"]%byte
       /\ In (@error_event collaborators FSE_OK) (log w').
Proof.
  assert (Hn : uint32 5 <> 0%Z) by (vm_compute; discriminate).
  do 3 (split; [first [reflexivity|assumption]|]).
  destruct (@write_chunk_error_flag collaborators ext_a "5" 5%Z three_bytes
              eq_refl Hn eq_refl)
    as [w' [Hrun [Hlog [Hfiles _]]]].
  exists w'. split; [exact Hrun|]. split; [exact Hfiles|].
  rewrite Hlog. vm_compute. tauto.
Defined.

Lemma chunk_size_checked_before_open_witness :
  @sscanf_lu collaborators "many" = None
  /\ new_events three_bytes
       (@storage_cli_write_chunk collaborators ext_a "many" three_bytes)
     = [RecordOpen; FileAlloc] ++ usage_events ++ [FileFree; RecordClose].
Proof.
  split; [reflexivity|].
  destruct (@chunk_size_checked_before_open collaborators ext_a "many"
              three_bytes eq_refl) as [_ [Hrun _]].
  rewrite Hrun. reflexivity.
Defined.

Lemma storage_cli_tree_spec_witness :
  STORAGE_EXT_PATH_PREFIX <> "/"
  /\ new_events three_bytes
       (@storage_cli_tree collaborators STORAGE_EXT_PATH_PREFIX three_bytes)
     = [ RecordOpen; DirWalkAlloc;
         DirWalkOpen STORAGE_EXT_PATH_PREFIX FSE_OK;
         DirWalkRead DirWalkLast; Printf "\tEmpty\r\n" [];
         DirWalkFree; RecordClose ].
Proof.
  assert (Hpath : STORAGE_EXT_PATH_PREFIX <> "/") by discriminate.
  split; [exact Hpath|].
  destruct (@storage_cli_tree_spec collaborators STORAGE_EXT_PATH_PREFIX
              three_bytes Hpath) as [_ Hrun].
  rewrite Hrun. reflexivity.
Defined.



(** write_chunk on a volume with room for one byte of the three: the
    write comes back short, the line for the error of the handle follows
    it, and the handler returns. *)
Example write_chunk_short_write_run :
  @storage_cli_write_chunk collaborators ext_a "3" full_volume
  = Done tt
      (emits
         [ RecordOpen; FileAlloc;
           FileOpen ext_a FSAM_WRITE FSOM_OPEN_APPEND FSE_OK;
           Printf "Ready\r\n" [];
           CliRead 3 ["a"; "b"; "c"]%byte;
           FileWrite ["a"; "b"; "c"]%byte 1;
           @error_event collaborators FSE_INTERNAL;
           FileClose true; FileFree; RecordClose ]
         (set_storage
            (put_file ext_a ["a"]%byte 0 (storage full_volume))
            (set_cli_rx [] full_volume)))
  /\ failure_of (FileWrite ["a"; "b"; "c"]%byte 1) = Some FSE_INTERNAL.
Proof. split; reflexivity. Qed.

(** tree on a walker that fails after two entries: the two lines, and
    nothing about the failure. *)
Example tree_on_broken_walk_run :
  new_events three_bytes (@storage_cli_tree broken_walk ext_a three_bytes)
  = [ RecordOpen; DirWalkAlloc; DirWalkOpen ext_a FSE_OK;
      DirWalkRead DirWalkOK; Printf "\t[D] %s\r\n" [ArgStr "docs"];
      DirWalkRead DirWalkOK;
      Printf "\t[F] %s %lub\r\n" [ArgStr "a"; ArgNum 3];
      DirWalkRead DirWalkError; DirWalkFree; RecordClose ].
Proof. reflexivity. Qed.


(** Three exits of a handler: success, a chunk size that does not scan,
    and a file that is not there. *)
Lemma handles_released_witness :
  let held (w : World) := (records w, handles w, opened w) in
  let success := @storage_cli collaborators "read /ext/a" three_bytes in
  let bad_size :=
    @storage_cli collaborators "read_chunks /ext/a many" three_bytes in
  let no_file := @storage_cli collaborators "read /ext/none" three_bytes in
  (success = Done tt (world_of success)
   /\ bad_size = Done tt (world_of bad_size)
   /\ no_file = Done tt (world_of no_file))
  /\ held (world_of success) = held three_bytes
  /\ held (world_of bad_size) = held three_bytes
  /\ held (world_of no_file) = held three_bytes.
Proof.
  intros held success bad_size no_file.
  assert (H1 : success = Done tt (world_of success))
    by (vm_compute; reflexivity).
  assert (H2 : bad_size = Done tt (world_of bad_size))
    by (vm_compute; reflexivity).
  assert (H3 : no_file = Done tt (world_of no_file))
    by (vm_compute; reflexivity).
  assert (Hheld : forall line w',
            @storage_cli collaborators line three_bytes = Done tt w' ->
            held w' = held three_bytes).
  { intros line w' Hrun.
    destruct (@handles_released collaborators "" (fun _ _ => ret tt) "" ""
                line three_bytes w' (or_intror Hrun)) as [Hr [Hh Ho]].
    unfold held. now rewrite Hr, Hh, Ho. }
  split; [split; [exact H1|split; [exact H2|exact H3]]|].
  split; [exact (Hheld _ _ H1)|].
  split; [exact (Hheld _ _ H2)|exact (Hheld _ _ H3)].
Defined.

Lemma info_stat_aggregate_paths_witness :
  ext_a <> STORAGE_INT_PATH_PREFIX
  /\ ext_a <> STORAGE_EXT_PATH_PREFIX
  /\ @storage_cli_info collaborators ext_a three_bytes
     = Done tt (emits ([RecordOpen] ++ usage_events ++ [RecordClose]) three_bytes)
  /\ @storage_cli_info collaborators STORAGE_ANY_PATH_PREFIX three_bytes
     = Done tt (emits ([RecordOpen] ++ usage_events ++ [RecordClose]) three_bytes).
Proof.
  assert (H1 : ext_a <> STORAGE_INT_PATH_PREFIX) by discriminate.
  assert (H2 : ext_a <> STORAGE_EXT_PATH_PREFIX) by discriminate.
  split; [exact H1|]. split; [exact H2|].
  destruct (@info_stat_aggregate_paths collaborators ext_a three_bytes H1 H2)
    as [Hinfo [Hany _]].
  split; [exact Hinfo|exact Hany].
Defined.

(** Two symbols and the cancel symbol: the file grows by the two. *)
Example write_round_trip_run :
  exists w',
    @storage_cli_write collaborators ext_a
      (world ["x"; "y"; "003"; "z"]%byte ext_a ["1"%byte] 1000)
    = Done tt w'
    /\ files (storage w') ext_a = Some ["1"; "x"; "y"]%byte
    /\ cli_rx w' = ["z"%byte].
Proof.
  destruct (@write_round_trip collaborators ext_a
              (world ["x"; "y"; "003"; "z"]%byte ext_a ["1"%byte] 1000)
              ["x"; "y"]%byte ["z"%byte] eq_refl eq_refl)
    as [w' [Hrun [Hfiles [Hrx _]]]].
  - repeat constructor; discriminate.
  - vm_compute. discriminate.
  - apply Nat.leb_le. vm_compute. reflexivity.
  - exists w'. repeat split; assumption.
Qed.

(** The spec's example: an unknown verb prints the usage text and calls
    nothing else. *)
Example unknown_verb_prints_usage :
  @storage_cli collaborators "foobar /ext" three_bytes
  = Done tt (emits usage_events three_bytes).
Proof. vm_compute. reflexivity. Qed.

Lemma storage_cli_list_spec_witness :
  ext_a <> "/"
  /\ new_events three_bytes (@storage_cli_list shelf ext_a three_bytes)
     = [ RecordOpen; FileAlloc; DirOpen ext_a FSE_OK;
         DirRead true; Printf "\t[D] %s\r\n" [ArgStr "docs"];
         DirRead true; Printf "\t[F] %s %lub\r\n" [ArgStr "a"; ArgNum 3];
         DirRead false; DirClose true; FileFree; RecordClose ].
Proof.
  assert (Hpath : ext_a <> "/") by discriminate.
  split; [exact Hpath|].
  destruct (@storage_cli_list_spec shelf ext_a three_bytes Hpath)
    as [_ Hrun].
  rewrite Hrun. reflexivity.
Defined.

Lemma read_prints_content_witness :
  fault (storage three_bytes) ext_a = FSE_OK
  /\ files (storage three_bytes) ext_a = Some ["1"; "2"; "3"]%byte
  /\ echoed
       (new_events three_bytes
          (@storage_cli_read collaborators ext_a three_bytes))
     = ["1"; "2"; "3"]%byte
  /\ length
       (file_reads
          (new_events three_bytes
             (@storage_cli_read collaborators ext_a three_bytes)))
     = 2%nat.
Proof.
  do 2 (split; [reflexivity|]).
  destruct (@read_prints_content collaborators ext_a three_bytes
              ["1"; "2"; "3"]%byte eq_refl eq_refl)
    as [Hrun [Hout _]].
  rewrite Hrun. split; [|reflexivity].
  unfold new_events. cbn [world_of log emits].
  rewrite skipn_app, skipn_all, Nat.sub_diag. exact Hout.
Defined.

Lemma open_failure_is_reported_witness :
  @sscanf_lu collaborators "2" = Some 2%Z
  /\ fault (storage denied) ext_a <> FSE_OK
  /\ new_events denied (@storage_cli_write collaborators ext_a denied)
     = [ RecordOpen; FileAlloc;
         FileOpen ext_a FSAM_WRITE FSOM_OPEN_APPEND FSE_DENIED;
         Printf "Storage error: %s\r\n" [ArgStr "access denied"];
         FileClose false; FileFree; RecordClose ]
  /\ cli_rx (world_of (@storage_cli_write collaborators ext_a denied))
     = cli_rx denied
  /\ fault (storage three_bytes) "/ext/none" = FSE_OK
  /\ files (storage three_bytes) "/ext/none" = None
  /\ new_events three_bytes
       (@storage_cli_read_chunks collaborators "/ext/none" "2" three_bytes)
     = [ RecordOpen; FileAlloc;
         FileOpen "/ext/none" FSAM_READ FSOM_OPEN_EXISTING FSE_NOT_EXIST;
         Printf "Storage error: %s\r\n" [ArgStr "file/dir not exist"];
         FileClose false; FileFree; RecordClose ].
Proof.
  assert (Hfault : fault (storage denied) ext_a <> FSE_OK) by discriminate.
  split; [reflexivity|]. split; [exact Hfault|].
  destruct (@open_failure_is_reported collaborators ext_a "2" 2%Z denied
              eq_refl) as [Hdenied _].
  destruct (Hdenied Hfault) as [_ [_ [Hwrite _]]].
  rewrite Hwrite. do 4 (split; [reflexivity|]).
  destruct (@open_failure_is_reported collaborators "/ext/none" "2" 2%Z
              three_bytes eq_refl) as [_ Hmissing].
  destruct (Hmissing eq_refl eq_refl) as [_ Hchunks].
  rewrite Hchunks. reflexivity.
Defined.

(** 512 symbols on a volume with room for ten bytes, then two more. *)
Lemma write_stops_when_volume_full_witness :
  let w := world (repeat "x"%byte 512 ++ ["y"; "z"]%byte) ext_a ["1"%byte] 10 in
  fault (storage w) ext_a = FSE_OK
  /\ length (repeat "x"%byte 512) = 512%nat
  /\ (space (storage w) < 512)%nat
  /\ exists w',
       @storage_cli_write collaborators ext_a w = Done tt w'
       /\ files (storage w') ext_a = Some ("1"%byte :: repeat "x"%byte 10)
       /\ cli_rx w' = ["y"; "z"]%byte.
Proof.
  intro w.
  assert (Hroom : (space (storage w) < 512)%nat)
    by (apply Nat.ltb_lt; vm_compute; reflexivity).
  assert (Hsym : Forall (fun symbol => symbol <> CliSymbolAsciiETX)
                   (repeat "x"%byte 512)).
  { apply Forall_forall. intros symbol Hin.
    apply repeat_spec in Hin. subst symbol. discriminate. }
  split; [reflexivity|]. split; [apply repeat_length|].
  split; [exact Hroom|].
  destruct (@write_stops_when_volume_full collaborators ext_a w
              (repeat "x"%byte 512) ["y"; "z"]%byte eq_refl eq_refl
              (repeat_length _ _) Hsym Hroom)
    as [w' [error [Hrun [Hfiles [Hrx _]]]]].
  exists w'. split; [exact Hrun|]. split; [exact Hfiles|exact Hrx].
Defined.

Lemma write_appends_typed_symbols_witness :
  let w := world ["x"; "y"; "003"; "z"]%byte ext_a ["1"%byte] 1000 in
  fault (storage w) ext_a = FSE_OK
  /\ cli_rx w = ["x"; "y"]%byte ++ CliSymbolAsciiETX :: ["z"%byte]
  /\ (Z.of_nat (length ["x"; "y"]%byte) mod 512 <> 0)%Z
  /\ (length ["x"; "y"]%byte + 512 <= space (storage w))%nat
  /\ exists w',
       @storage_cli_write collaborators ext_a w = Done tt w'
       /\ files (storage w') ext_a = Some ["1"; "x"; "y"]%byte
       /\ cli_rx w' = ["z"%byte].
Proof.
  intro w.
  assert (Hk : (Z.of_nat (length ["x"; "y"]%byte) mod 512 <> 0)%Z)
    by (vm_compute; discriminate).
  assert (Hroom : (length ["x"; "y"]%byte + 512 <= space (storage w))%nat)
    by (apply Nat.leb_le; vm_compute; reflexivity).
  assert (Hsym : Forall (fun symbol => symbol <> CliSymbolAsciiETX)
                   ["x"; "y"]%byte)
    by (repeat constructor; discriminate).
  do 2 (split; [reflexivity|]). split; [exact Hk|]. split; [exact Hroom|].
  destruct (@write_appends_typed_symbols collaborators ext_a w
              ["x"; "y"]%byte ["z"%byte] eq_refl eq_refl Hsym Hk Hroom)
    as [w' [Hrun [Hfiles [Hrx _]]]].
  exists w'. split; [exact Hrun|]. split; [exact Hfiles|exact Hrx].
Defined.

Lemma write_then_read_witness :
  let w := world ["x"; "y"; "003"; "z"]%byte ext_a ["1"%byte] 1000 in
  fault (storage w) ext_a = FSE_OK
  /\ cli_rx w = ["x"; "y"]%byte ++ CliSymbolAsciiETX :: ["z"%byte]
  /\ (Z.of_nat (length ["x"; "y"]%byte) mod 512 <> 0)%Z
  /\ (length ["x"; "y"]%byte + 512 <= space (storage w))%nat
  /\ exists w',
       @storage_cli_write collaborators ext_a w = Done tt w'
       /\ echoed (new_events w' (@storage_cli_read collaborators ext_a w'))
          = ["1"; "x"; "y"]%byte.
Proof.
  intro w.
  assert (Hk : (Z.of_nat (length ["x"; "y"]%byte) mod 512 <> 0)%Z)
    by (vm_compute; discriminate).
  assert (Hroom : (length ["x"; "y"]%byte + 512 <= space (storage w))%nat)
    by (apply Nat.leb_le; vm_compute; reflexivity).
  assert (Hsym : Forall (fun symbol => symbol <> CliSymbolAsciiETX)
                   ["x"; "y"]%byte)
    by (repeat constructor; discriminate).
  do 2 (split; [reflexivity|]). split; [exact Hk|]. split; [exact Hroom|].
  destruct (@write_then_read collaborators ext_a w
              ["x"; "y"]%byte ["z"%byte] eq_refl eq_refl Hsym Hk Hroom)
    as [w' [w'' [Hrun [_ [_ [Hout _]]]]]].
  exists w'. split; [exact Hrun|exact Hout].
Defined.

(** Two bytes sent to a file of three, read back in blocks of two. *)
Lemma write_chunk_then_read_chunks_witness :
  let w := world ["x"; "y"; "a"; "b"; "c"; "z"]%byte ext_a
             ["1"; "2"; "3"]%byte 1000 in
  @sscanf_lu collaborators "2" = Some 2%Z
  /\ fault (storage w) ext_a = FSE_OK
  /\ Z.of_nat (length ["x"; "y"]%byte) = uint32 2
  /\ (length ["x"; "y"]%byte <= space (storage w))%nat
  /\ exists w1,
       @storage_cli_write_chunk collaborators ext_a "2" w = Done tt w1
       /\ put_out
            (new_events w1
               (@storage_cli_read_chunks collaborators ext_a "2" w1))
          = ["1"; "2"; "3"; "x"; "y"]%byte
       /\ cli_rx
            (world_of (@storage_cli_read_chunks collaborators ext_a "2" w1))
          = ["z"%byte].
Proof.
  intro w.
  assert (Hroom : (length ["x"; "y"]%byte <= space (storage w))%nat)
    by (apply Nat.leb_le; vm_compute; reflexivity).
  assert (Hdata : ["x"; "y"]%byte <> []) by discriminate.
  do 3 (split; [reflexivity|]). split; [exact Hroom|].
  destruct (@write_chunk_then_read_chunks collaborators ext_a "2" "2" 2%Z 2%Z
              w ["x"; "y"]%byte ["a"; "b"; "c"]%byte ["z"%byte]
              eq_refl eq_refl eq_refl eq_refl eq_refl Hdata Hroom eq_refl
              eq_refl eq_refl)
    as [w1 [w2 [Hrun [_ [Hrun2 [Hout Hrx]]]]]].
  exists w1. split; [exact Hrun|]. split; [exact Hout|].
  rewrite Hrun2. exact Hrx.
Defined.

(** A file of three bytes read in blocks of two with one character on
    the console: the first block is put out, and the handler waits. *)
Lemma read_chunks_waits_for_ack_witness :
  let w := world ["a"%byte] ext_a ["1"; "2"; "3"]%byte 1000 in
  @sscanf_lu collaborators "2" = Some 2%Z
  /\ fault (storage w) ext_a = FSE_OK
  /\ files (storage w) ext_a = Some ["1"; "2"; "3"]%byte
  /\ (length (cli_rx w) < length (chunks 2 ["1"; "2"; "3"]%byte))%nat
  /\ exists w',
       @storage_cli_read_chunks collaborators ext_a "2" w = Blocked w'
       /\ put_out
            (new_events w (@storage_cli_read_chunks collaborators ext_a "2" w))
          = ["1"; "2"]%byte
       /\ opened w' = 1%nat.
Proof.
  intro w.
  assert (Hshort : (length (cli_rx w)
                    < length (chunks 2 ["1"; "2"; "3"]%byte))%nat)
    by (apply Nat.ltb_lt; vm_compute; reflexivity).
  do 3 (split; [reflexivity|]). split; [exact Hshort|].
  destruct (@read_chunks_waits_for_ack collaborators ext_a "2" 2%Z w
              ["1"; "2"; "3"]%byte eq_refl eq_refl eq_refl eq_refl eq_refl
              Hshort)
    as [w' [Hrun [_ [Hout [_ [_ [_ [_ Hopened]]]]]]]].
  exists w'. split; [exact Hrun|]. split; [exact Hout|exact Hopened].
Defined.

Lemma usage_documents_the_table_witness :
  @read_command collaborators "md5 /ext/a" = Some ("md5", ext_a, "")
  /\ In "md5" usage_verbs
  /\ @storage_cli collaborators "md5 /ext/a" three_bytes
     = @storage_cli_md5 collaborators ext_a three_bytes
  /\ @read_command collaborators "erase /ext/a" = Some ("erase", ext_a, "")
  /\ ~ In "erase" usage_verbs
  /\ @storage_cli collaborators "erase /ext/a" three_bytes
     = Done tt (emits usage_events three_bytes).
Proof.
  assert (Hmd5 : In "md5" usage_verbs).
  { rewrite usage_verbs_value. do 13 right. left. reflexivity. }
  assert (Herase : ~ In "erase" usage_verbs).
  { rewrite usage_verbs_value. cbn [In]. intro H.
    repeat (destruct H as [H|H]; [discriminate H|]). exact H. }
  split; [reflexivity|]. split; [exact Hmd5|]. split.
  - destruct (@usage_documents_the_table collaborators "md5 /ext/a" "md5"
                ext_a "" three_bytes eq_refl)
      as [_ [_ [_ [Hfound [Hserved _]]]]].
    destruct (Hserved Hmd5) as [handler [Hin Hrun]].
    rewrite Hrun. apply Hfound in Hin.
    assert (Hentry : @first_match collaborators "md5"
                     = Some ("md5", fun path (_ : string) =>
                                      @storage_cli_md5 collaborators path))
      by reflexivity.
    rewrite Hentry in Hin. injection Hin as <-. reflexivity.
  - split; [reflexivity|]. split; [exact Herase|].
    destruct (@usage_documents_the_table collaborators "erase /ext/a" "erase"
                ext_a "" three_bytes eq_refl)
      as [_ [_ [_ [_ [_ Hother]]]]].
    exact (Hother Herase).
Defined.

Lemma queries_change_nothing_witness :
  In ("read", fun path (_ : string) => @storage_cli_read collaborators path)
     (@command_table collaborators)
  /\ In "read" query_verbs
  /\ exists w',
       @storage_cli_read collaborators ext_a three_bytes = Done tt w'
       /\ cli_rx w' = ["a"; "b"; "c"]%byte
       /\ storage w' = storage three_bytes.
Proof.
  assert (Hin : In ("read",
                    fun path (_ : string) =>
                      @storage_cli_read collaborators path)
                   (@command_table collaborators)).
  { unfold command_table. do 4 right. left. reflexivity. }
  assert (Hquery : In "read" query_verbs).
  { unfold query_verbs. do 3 right. left. reflexivity. }
  split; [exact Hin|]. split; [exact Hquery|].
  destruct (@queries_change_nothing collaborators "read" _ ext_a ""
              three_bytes Hin) as [Hasks _].
  destruct (Hasks Hquery) as [w' [Hrun [Hrx [Hstorage _]]]].
  exists w'. split; [exact Hrun|]. split; [exact Hrx|exact Hstorage].
Defined.

Lemma confirmed_destruction_witness :
  let w := world ["Y"; "n"]%byte ext_a ["1"%byte] 1000 in
  cli_rx w = "Y"%byte :: ["n"%byte]
  /\ ("Y"%byte = "y"%byte \/ "Y"%byte = "Y"%byte)
  /\ (exists w',
        @storage_cli_format collaborators STORAGE_EXT_PATH_PREFIX w
        = Done tt w'
        /\ files (storage w') ext_a = None
        /\ cli_rx w' = ["n"%byte])
  /\ returned (storage_cli_factory_reset "" w) = false
  /\ In PowerReboot
       (log (world_of (storage_cli_factory_reset "" w))).
Proof.
  intro w.
  assert (Hyes : "Y"%byte = "y"%byte \/ "Y"%byte = "Y"%byte)
    by (right; reflexivity).
  split; [reflexivity|]. split; [exact Hyes|].
  destruct (@confirmed_destruction collaborators "" w "Y"%byte ["n"%byte]
              eq_refl Hyes) as [Hformat [Hreset _]].
  split.
  - rewrite Hformat. eexists. split; [reflexivity|]. split; reflexivity.
  - rewrite Hreset. split; [reflexivity|].
    cbn. do 4 right. left. reflexivity.
Defined.

Lemma write_chunk_zero_size_witness :
  let w := world ["a"%byte] "/ext/b" [] 1000 in
  @sscanf_lu collaborators "0" = Some 0%Z
  /\ uint32 0 = 0%Z
  /\ fault (storage w) ext_a = FSE_OK
  /\ files (storage w) ext_a = None
  /\ exists w',
       @storage_cli_write_chunk collaborators ext_a "0" w = Done tt w'
       /\ files (storage w') ext_a = Some []
       /\ cli_rx w' = ["a"%byte].
Proof.
  intro w. do 4 (split; [reflexivity|]).
  destruct (@write_chunk_zero_size collaborators ext_a "0" 0%Z w
              eq_refl eq_refl eq_refl)
    as [w' [Hrun [_ [Hrx [Hfiles _]]]]].
  exists w'. split; [exact Hrun|]. split; [exact Hfiles|exact Hrx].
Defined.

Lemma stat_of_a_path_witness :
  ext_a <> "/" /\ ext_a <> STORAGE_EXT_PATH_PREFIX
  /\ ext_a <> STORAGE_INT_PATH_PREFIX /\ ext_a <> STORAGE_ANY_PATH_PREFIX
  /\ new_events three_bytes (@storage_cli_stat collaborators ext_a three_bytes)
     = [ RecordOpen; CommonStat ext_a FSE_OK;
         Printf "File, size: %lub\r\n" [ArgNum 3]; RecordClose ].
Proof.
  assert (H1 : ext_a <> "/") by discriminate.
  assert (H2 : ext_a <> STORAGE_EXT_PATH_PREFIX) by discriminate.
  assert (H3 : ext_a <> STORAGE_INT_PATH_PREFIX) by discriminate.
  assert (H4 : ext_a <> STORAGE_ANY_PATH_PREFIX) by discriminate.
  do 4 (split; [assumption|]).
  rewrite (@stat_of_a_path collaborators ext_a three_bytes H1 H2 H3 H4).
  reflexivity.
Defined.


Lemma tree_hides_walk_errors_witness :
  ext_a <> "/"
  /\ @svc_walk shelf ext_a (storage three_bytes)
     = inr (two_entries, DirWalkLast)
  /\ printed (new_events three_bytes (@storage_cli_tree shelf ext_a three_bytes))
     = [ Printf "\t[D] %s\r\n" [ArgStr "docs"];
         Printf "\t[F] %s %lub\r\n" [ArgStr "a"; ArgNum 3] ].
Proof.
  assert (Hpath : ext_a <> "/") by discriminate.
  split; [exact Hpath|]. split; [reflexivity|].
  destruct (@tree_hides_walk_errors shelf ext_a three_bytes two_entries
              DirWalkLast Hpath eq_refl) as [_ [Hprinted _]].
  rewrite Hprinted. reflexivity.
Defined.

Lemma read_and_read_chunks_agree_witness :
  @sscanf_lu collaborators "2" = Some 2%Z
  /\ fault (storage three_bytes) ext_a = FSE_OK
  /\ files (storage three_bytes) ext_a = Some ["1"; "2"; "3"]%byte
  /\ echoed
       (new_events three_bytes
          (@storage_cli_read collaborators ext_a three_bytes))
     = put_out
         (new_events three_bytes
            (@storage_cli_read_chunks collaborators ext_a "2" three_bytes)).
Proof.
  do 3 (split; [reflexivity|]).
  destruct (@read_and_read_chunks_agree collaborators ext_a "2" 2%Z
              three_bytes ["1"; "2"; "3"]%byte ["a"; "b"]%byte ["c"%byte]
              eq_refl eq_refl eq_refl eq_refl eq_refl eq_refl eq_refl)
    as [Hread [Hchunks _]].
  now rewrite Hread, Hchunks.
Defined.

(** Three symbols and the cancel symbol on a volume with room for one
    byte. *)
Lemma write_cancel_on_full_volume_witness :
  let w := world ["x"; "y"; "z"; "003"; "q"]%byte ext_a ["1"%byte] 1 in
  fault (storage w) ext_a = FSE_OK
  /\ (length ["x"; "y"; "z"]%byte < 512)%nat
  /\ (space (storage w) < length ["x"; "y"; "z"]%byte)%nat
  /\ exists w',
       @storage_cli_write collaborators ext_a w = Done tt w'
       /\ files (storage w') ext_a = Some ["1"; "x"]%byte
       /\ cli_rx w' = ["q"%byte]
       /\ In (@error_event collaborators FSE_INTERNAL) (log w').
Proof.
  intro w.
  assert (Hlen : (length ["x"; "y"; "z"]%byte < 512)%nat)
    by (apply Nat.ltb_lt; vm_compute; reflexivity).
  assert (Hroom : (space (storage w) < length ["x"; "y"; "z"]%byte)%nat)
    by (apply Nat.ltb_lt; vm_compute; reflexivity).
  assert (Hsym : Forall (fun symbol => symbol <> CliSymbolAsciiETX)
                   ["x"; "y"; "z"]%byte)
    by (repeat constructor; discriminate).
  split; [reflexivity|]. split; [exact Hlen|]. split; [exact Hroom|].
  destruct (@write_cancel_on_full_volume collaborators ext_a w
              ["x"; "y"; "z"]%byte ["q"%byte] eq_refl eq_refl Hsym Hlen Hroom)
    as [w' [error [Hrun [Hfiles [Hrx _]]]]].
  exists w'. split; [exact Hrun|]. split; [exact Hfiles|].
  split; [exact Hrx|].
  assert (Hw' : w' = world_of (@storage_cli_write collaborators ext_a w))
    by (now rewrite Hrun).
  rewrite Hw'. vm_compute. do 12 right. left. reflexivity.
Defined.

(** The cancel symbol at once, which is taken for data: the file keeps
    its three bytes. *)
Lemma write_is_append_only_witness :
  let w := world ["003"; "x"]%byte ext_a ["1"; "2"; "3"]%byte 1000 in
  files (storage w) ext_a = Some ["1"; "2"; "3"]%byte
  /\ (exists extra,
        files (storage (world_of (@storage_cli_write collaborators ext_a w)))
          ext_a
        = Some (["1"; "2"; "3"]%byte ++ extra))
  /\ files (storage (world_of (@storage_cli_write collaborators ext_a w)))
       ext_a
     = Some ["1"; "2"; "3"]%byte.
Proof.
  intro w. split; [reflexivity|].
  destruct (@write_is_append_only collaborators ext_a "" w
              ["1"; "2"; "3"]%byte eq_refl) as [Hwrite _].
  split; [exact Hwrite|reflexivity].
Defined.

(** Two symbols, the cancel symbol and one more: the two are echoed, the
    three are taken, the last is left. *)
Example write_echo_run :
  let w := world ["x"; "y"; "003"; "z"]%byte ext_a ["1"%byte] 1000 in
  let r := @storage_cli_write collaborators ext_a w in
  taken (new_events w r) = ["x"; "y"; "003"]%byte
  /\ echoed (new_events w r) = ["x"; "y"]%byte
  /\ cli_rx (world_of r) = ["z"%byte].
Proof. vm_compute. repeat split. Qed.

(** remove of a file that is there prints nothing. *)
Example remove_is_silent_run :
  printed
    (new_events three_bytes
       (@storage_cli_remove collaborators ext_a three_bytes))
  = [].
Proof. reflexivity. Qed.

(** The cancel symbol first, then two symbols and the cancel symbol
    again: the first cancel symbol is echoed and is in the file. *)
Lemma write_stores_what_it_echoes_witness :
  let w := world ["003"; "x"; "y"; "003"]%byte ext_a ["1"%byte] 1000 in
  let r := @storage_cli_write collaborators ext_a w in
  fault (storage w) ext_a = FSE_OK
  /\ (length (cli_rx w) <= space (storage w))%nat
  /\ returned r = true
  /\ echoed (new_events w r) = ["003"; "x"; "y"]%byte
  /\ files (storage (world_of r)) ext_a = Some ["1"; "003"; "x"; "y"]%byte.
Proof.
  intros w r.
  assert (Hroom : (length (cli_rx w) <= space (storage w))%nat)
    by (apply Nat.leb_le; vm_compute; reflexivity).
  assert (Hdone : returned r = true) by (vm_compute; reflexivity).
  assert (Hecho : echoed (new_events w r) = ["003"; "x"; "y"]%byte)
    by (vm_compute; reflexivity).
  split; [reflexivity|]. split; [exact Hroom|]. split; [exact Hdone|].
  split; [exact Hecho|].
  destruct (@write_stores_what_it_echoes collaborators ext_a w eq_refl Hroom)
    as [content [pending [Hfiles [Hdata [_ [Hnone _]]]]]].
  fold r in Hfiles, Hdata, Hnone.
  rewrite (Hnone Hdone), app_nil_r, Hecho in Hdata.
  rewrite Hfiles, Hdata. reflexivity.
Defined.

End Runs.
